(** * hemkop-shopper: the ingredient-to-product resolution core

    A shallow embedding of the decision logic of [src/llm.ts]
    ([selectBestProduct], [processIngredientDescription]), of [src/main.ts]
    ([extractWeightInformation], [adjustProductQuantity]) and of the JSON-LD
    recipe parser ([findRecipeData], [extractIngredients],
    [shouldExcludeIngredient]).  Around this core it embeds [src/logger.ts],
    the rest of the recipe parser ([extractJsonLdData],
    [extractIngredientsFromJsonLd]) and, of [src/main.ts], the command line
    ([getRecipeUrlFromCommandLine]), the shopping list and the loop over its
    items in [shopForGroceries], [extractSearchTerm], [processSearchResults],
    [addProductToCart] and its alternative method, [extractProductInfo] and
    [handleCookieDialog].

    Conventions of the embedding.
    - A JavaScript string is a [string]; every [ascii] stands for one UTF-16
      code unit in the range 0..255 (Basic Latin and Latin-1).
    - A JavaScript number holding an integer is a [Z], with exact
      arithmetic (doubles agree with it below 2^53); one holding the result
      of [parseFloat], or of arithmetic on it, is the [Q] that the binary64
      stands for, and each operation rounds to the nearest binary64
      ([Binary64.round]).
    - [Array.prototype.sort] is stable (ECMAScript 2019); it is embedded as
      a stable insertion sort.
    - A regular-expression literal is a term of [regex], run by a
      backtracking matcher that follows the ECMAScript semantics for the
      constructs the program uses.
    - What the browser page answers (the counts of the locators, the texts
      of the elements, the outcome of an attempt on the cookie dialog) is an
      input of the functions that ask for it; [new URL] and [JSON.parse] are
      parameters of the sections that use them. *)

From Stdlib Require Import Bool Arith ZArith QArith Qround List Ascii String.
From Stdlib Require Import DecimalString DecimalNat Sorted Permutation Lia.
Import ListNotations.

Open Scope string_scope.
Open Scope Z_scope.

(* ================================================================== *)
(** * Numbers: binary64 as rationals *)

Module Binary64.

(** A JavaScript number that is not known to be a whole number is kept as
    the rational it stands for, and every operation on such numbers rounds
    its exact result to the nearest binary64, ties to the even mantissa, as
    IEEE 754 prescribes.  The numbers of the program are never negative.
    At 2^53 and above, where the whole numbers of the program are no longer
    exact either, a value is left as it is: the embedding follows the
    program for numbers below 2^53. *)

(** The integer nearest to [a / b], the even one of the two when [a / b] lies
    half way, for [0 <= a] and [0 < b]. *)
Definition roundHalfEven (a b : Z) : Z :=
  let q := a / b in
  match 2 * (a mod b) ?= b with
  | Lt => q
  | Gt => q + 1
  | Eq => if Z.even q then q else q + 1
  end.

(** For [0 < n < 2^53 * d]: how many binary places below the unit the last
    bit of the mantissa of [n / d] lies, 1074 at most (the subnormal
    numbers). *)
Definition shift (n d : Z) : Z :=
  let t := 53 + Z.log2 d - Z.log2 n in
  Z.min 1074 (if n * 2 ^ t <? 2 ^ 53 * d then t else t - 1).

(** The binary64 nearest to [n / d], for [0 < n] and [0 < d]. *)
Definition roundPositive (n d : Z) : Q :=
  if 2 ^ 53 * d <=? n then Qmake n (Z.to_pos d)
  else
    let s := shift n d in
    Qred (Qmake (roundHalfEven (n * 2 ^ s) d) (Z.to_pos (2 ^ s))).

Definition round (q : Q) : Q :=
  match Qnum q with
  | Z0 => 0%Q
  | Zpos _ => roundPositive (Qnum q) (Zpos (Qden q))
  | Zneg _ => Qopp (roundPositive (- Qnum q) (Zpos (Qden q)))
  end.

(** [a * b] and [a / b] on numbers. *)
Definition mul (a b : Q) : Q := round (a * b).
Definition div (a b : Q) : Q := round (a / b).

(** A positive binary64 below 2^53, as a rational. *)
Definition finite (v : Q) : Prop :=
  exists M t, 0 < M < 2 ^ 53 /\ 0 <= t /\ (v == M # Z.to_pos (2 ^ t))%Q.
End Binary64.

(* ================================================================== *)
(** * Strings *)

Module JsString.

(** Code unit of a character. *)
Definition code (c : ascii) : N := N_of_ascii c.

Definition between (lo hi : N) (c : ascii) : bool :=
  ((lo <=? code c) && (code c <=? hi))%N.

(** [\d] *)
Definition isDigit (c : ascii) : bool := between 48 57 c.

(** [\s]: WhiteSpace and LineTerminator code units below 256. *)
Definition isSpace (c : ascii) : bool :=
  between 9 13 c || (code c =? 32)%N || (code c =? 160)%N.

(** [\w], as used by [\b]. *)
Definition isWord (c : ascii) : bool :=
  between 97 122 c || between 65 90 c || isDigit c || (code c =? 95)%N.

(** [String.prototype.toLowerCase] on one code unit below 256. *)
Definition lowerChar (c : ascii) : ascii :=
  if between 65 90 c
     || (between 192 222 c && negb (code c =? 215)%N)
  then ascii_of_N (code c + 32)
  else c.

Fixpoint toLowerCase (s : string) : string :=
  match s with
  | EmptyString => EmptyString
  | String c s' => String (lowerChar c) (toLowerCase s')
  end.

(** [s.startsWith(p)] *)
Fixpoint startsWith (p s : string) : bool :=
  match p, s with
  | EmptyString, _ => true
  | String a p', String b s' => Ascii.eqb a b && startsWith p' s'
  | String _ _, EmptyString => false
  end.

(** [s.includes(p)] *)
Fixpoint includes (s p : string) : bool :=
  startsWith p s ||
  match s with
  | EmptyString => false
  | String _ s' => includes s' p
  end.

Fixpoint rev_onto (s acc : string) : string :=
  match s with
  | EmptyString => acc
  | String c s' => rev_onto s' (String c acc)
  end.

Definition reverse (s : string) : string := rev_onto s EmptyString.

(** [s.split('\n')]: never empty, the last piece is what follows the last
    line feed. *)
Fixpoint splitLines (s : string) : list string :=
  match s with
  | EmptyString => [EmptyString]
  | String c s' =>
      if (code c =? 10)%N then EmptyString :: splitLines s'
      else match splitLines s' with
           | l :: ls => String c l :: ls
           | [] => [String c EmptyString]
           end
  end.

(** Value of a run of decimal digits, most significant first
    ([parseInt(ds, 10)] on a string of digits). *)
Fixpoint decAcc (acc : Z) (s : string) : Z :=
  match s with
  | EmptyString => acc
  | String c s' => decAcc (10 * acc + Z.of_N (code c - 48)) s'
  end.

Definition parseInt (s : string) : Z := decAcc 0 s.

Fixpoint allb (p : ascii -> bool) (s : string) : bool :=
  match s with
  | EmptyString => true
  | String c s' => p c && allb p s'
  end.

Fixpoint takeWhile (p : ascii -> bool) (s : string) : string :=
  match s with
  | String c s' => if p c then String c (takeWhile p s') else EmptyString
  | EmptyString => EmptyString
  end.

Fixpoint dropWhile (p : ascii -> bool) (s : string) : string :=
  match s with
  | String c s' => if p c then dropWhile p s' else s
  | EmptyString => EmptyString
  end.

(** Line feed and double quote, which a string literal cannot hold as
    written in the source. *)
Definition nl : string := String (ascii_of_nat 10) EmptyString.
Definition dq : string := String (ascii_of_nat 34) EmptyString.

(** [pieces.join(sep)] *)
Fixpoint join (sep : string) (pieces : list string) : string :=
  match pieces with
  | [] => EmptyString
  | [x] => x
  | x :: rest => x ++ sep ++ join sep rest
  end.

(** The decimal text of a natural number, as a template literal renders it. *)
Definition ofNat (n : nat) : string := NilEmpty.string_of_uint (Nat.to_uint n).

(** A string is truthy when it is not empty. *)
Definition truthy (s : string) : bool := negb (String.eqb s EmptyString).

(** [s.trim()] *)
Definition trim (s : string) : string :=
  reverse (dropWhile isSpace (reverse (dropWhile isSpace s))).

(** [parseFloat] on a text made of digits, an optional point and digits,
    the only shape the program passes to it. *)
Definition parseFloat (s : string) : Q :=
  let ip := takeWhile isDigit s in
  let fp := match dropWhile isDigit s with
            | String "." r => takeWhile isDigit r
            | _ => EmptyString
            end in
  Binary64.round
    (Qmake (decAcc (parseInt ip) fp) (Z.to_pos (10 ^ Z.of_nat (String.length fp)))).

(** A string does not begin with a character of the class. *)
Definition clear (p : ascii -> bool) (s : string) : Prop :=
  match s with
  | String c _ => p c = false
  | EmptyString => True
  end.

End JsString.

(* ================================================================== *)
(** * Regular expressions *)

Module Regex.
Import JsString.

(** The constructs that occur in the program's regular-expression
    literals.  [Star] and [Plus] are the greedy quantifiers over a character
    class, [Opt] the greedy [?], [Grp n] the n-th capture group. *)
Inductive regex : Type :=
| Cls (p : ascii -> bool)
| Star (p : ascii -> bool)
| Plus (p : ascii -> bool)
| Opt (r : regex)
| Cat (r1 r2 : regex)
| Or (r1 r2 : regex)
| Grp (n : nat) (r : regex)
| Eps
| Bol
| Eol
| WordB.

(** One literal character, and one literal character under the [i] flag. *)
Definition chr (c : ascii) : regex := Cls (Ascii.eqb c).
Definition chri (c : ascii) : regex :=
  Cls (fun x => Ascii.eqb (lowerChar x) (lowerChar c)).

(** A literal word, character by character. *)
Fixpoint lit (mk : ascii -> regex) (w : string) : regex :=
  match w with
  | EmptyString => Eps
  | String c w' => Cat (mk c) (lit mk w')
  end.

(** Captures, most recent first. *)
Definition caps := list (nat * string).

Fixpoint capture (n : nat) (cs : caps) : option string :=
  match cs with
  | [] => None
  | (m, s) :: cs' => if (n =? m)%nat then Some s else capture n cs'
  end.

(** What was consumed between the position with [s] left and the later
    position with [s'] left. *)
Fixpoint firstn (n : nat) (s : string) : string :=
  match n, s with
  | S n', String c s' => String c (firstn n' s')
  | _, _ => EmptyString
  end.

Definition consumed (s s' : string) : string :=
  firstn (String.length s - String.length s') s.

Definition wordAt (o : option ascii) : bool :=
  match o with Some c => isWord c | None => false end.

Definition headOf (s : string) : option ascii :=
  match s with String c _ => Some c | EmptyString => None end.

Section Matcher.
Context {R : Type}.

(** A continuation receives the character before the position, the rest of
    the input and the captures; [None] makes the matcher backtrack. *)
Definition cont := option ascii -> string -> caps -> option R.

(** Greedy [p*]: as many characters as possible, one fewer on failure. *)
Fixpoint star (p : ascii -> bool) (prev : option ascii) (s : string)
         (cs : caps) (k : cont) : option R :=
  match s with
  | String c s' =>
      if p c then
        match star p (Some c) s' cs k with
        | Some r => Some r
        | None => k prev s cs
        end
      else k prev s cs
  | EmptyString => k prev s cs
  end.

Fixpoint run (r : regex) (prev : option ascii) (s : string) (cs : caps)
         (k : cont) : option R :=
  match r with
  | Cls p =>
      match s with
      | String c s' => if p c then k (Some c) s' cs else None
      | EmptyString => None
      end
  | Star p => star p prev s cs k
  | Plus p =>
      match s with
      | String c s' => if p c then star p (Some c) s' cs k else None
      | EmptyString => None
      end
  | Opt r1 =>
      match run r1 prev s cs k with
      | Some x => Some x
      | None => k prev s cs
      end
  | Cat r1 r2 => run r1 prev s cs (fun prev' s' cs' => run r2 prev' s' cs' k)
  | Or r1 r2 =>
      match run r1 prev s cs k with
      | Some x => Some x
      | None => run r2 prev s cs k
      end
  | Grp n r1 =>
      run r1 prev s cs (fun prev' s' cs' => k prev' s' ((n, consumed s s') :: cs'))
  | Eps => k prev s cs
  | Bol => match prev with None => k prev s cs | Some _ => None end
  | Eol => match s with EmptyString => k prev s cs | String _ _ => None end
  | WordB =>
      if xorb (wordAt prev) (wordAt (headOf s)) then k prev s cs else None
  end.
End Matcher.

(** Match anchored at the current position. *)
Definition matchHere (r : regex) (prev : option ascii) (s : string) : option caps :=
  run r prev s [] (fun _ _ cs => Some cs).

(** [re.exec(s)] / [s.match(re)] without the [g] flag: the leftmost start
    position at which the pattern matches.  Group 0 is the whole match. *)
Fixpoint searchFrom (r : regex) (prev : option ascii) (s : string) : option caps :=
  match matchHere r prev s with
  | Some cs => Some cs
  | None =>
      match s with
      | String c s' => searchFrom r (Some c) s'
      | EmptyString => None
      end
  end.

Definition exec (r : regex) (s : string) : option caps :=
  searchFrom (Grp 0 r) None s.

(** [m[n]] for a group that took part in the match. *)
Definition group (n : nat) (m : caps) : string :=
  match capture n m with Some s => s | None => EmptyString end.

(** The character before the position reached after reading [s]. *)
Fixpoint lastOf (prev : option ascii) (s : string) : option ascii :=
  match s with
  | EmptyString => prev
  | String c s' => lastOf (Some c) s'
  end.

End Regex.

(* ================================================================== *)
(** * Effects: the text-generation collaborator and exceptions *)

Module Effect.

(** A computation that may ask the collaborator ([await ollama.chat]) and
    may throw.  The answer to a request is [None] when the call rejects
    (transport or response error). *)
Inductive prog (A : Type) : Type :=
| Ret (a : A)
| Throw
| Chat (prompt : string) (k : option string -> prog A).

Arguments Ret {A} a.
Arguments Throw {A}.
Arguments Chat {A} prompt k.

Fixpoint bind {A B : Type} (m : prog A) (f : A -> prog B) : prog B :=
  match m with
  | Ret a => f a
  | Throw => Throw
  | Chat q k => Chat q (fun r => bind (k r) f)
  end.

(** [await ollama.chat(...)] followed by [response.message.content]. *)
Definition chat (prompt : string) : prog string :=
  Chat prompt (fun r => match r with Some t => Ret t | None => Throw end).

(** [try { body } catch (error) { handler }] *)
Fixpoint tryCatch {A : Type} (body : prog A) (handler : prog A) : prog A :=
  match body with
  | Ret a => Ret a
  | Throw => handler
  | Chat q k => Chat q (fun r => tryCatch (k r) handler)
  end.

(** Running a computation against a collaborator: the value returned
    ([None] for an exception that escapes) and the prompts sent, in order. *)
Fixpoint run {A : Type} (oracle : string -> option string) (m : prog A)
  : option A * list string :=
  match m with
  | Ret a => (Some a, [])
  | Throw => (None, [])
  | Chat q k => let (r, log) := run oracle (k (oracle q)) in (r, q :: log)
  end.

Definition result {A : Type} (oracle : string -> option string) (m : prog A)
  : option A := fst (run oracle m).

Definition requests {A : Type} (oracle : string -> option string) (m : prog A)
  : list string := snd (run oracle m).

End Effect.

Declare Scope prog_scope.
Delimit Scope prog_scope with prog.
Notation "x <- m ;; f" := (Effect.bind m (fun x => f))
  (at level 61, m at next level, right associativity) : prog_scope.

(* ================================================================== *)
(** * [src/types.ts] *)

(** [interface Product].  [element] is the page handle of the scraped
    product, opaque to the decision logic. *)
Record Product : Type := mkProduct {
  title : string;
  element : nat;
  price : option string;
  comparePrice : option string;
  displayVolume : option string;
  quantity : Z
}.

(** Stable sort by a comparator [(a, b) => number], as
    [Array.prototype.sort]: [a] stays before [b] unless [cmp a b > 0]. *)
Section Sort.
Context {A : Type} (cmp : A -> A -> Z).

Fixpoint insert (x : A) (l : list A) : list A :=
  match l with
  | [] => [x]
  | y :: l' => if cmp x y <=? 0 then x :: l else y :: insert x l'
  end.

Definition sort (l : list A) : list A := fold_right insert [] l.
End Sort.

(* ================================================================== *)
(** * [src/llm.ts] *)

Module Llm.
Import JsString Regex Effect.
Local Open Scope prog_scope.

(** Line 16: one or more digits, an optional point, digits (group 1), white
    space, then g, gram, kg or kilo (group 2); flag [i]. *)
Definition requirementRe : regex :=
  Cat (Grp 1 (Cat (Plus isDigit) (Cat (Opt (chr ".")) (Star isDigit))))
      (Cat (Star isSpace)
           (Grp 2 (Or (lit chri "g")
                  (Or (lit chri "gram")
                  (Or (lit chri "kg") (lit chri "kilo")))))).

(** Line 35: one or more digits (group 1), white space, then g or kg
    (group 2); flag [i]. *)
Definition volumeRe : regex :=
  Cat (Grp 1 (Plus isDigit))
      (Cat (Star isSpace) (Grp 2 (Or (lit chri "g") (lit chri "kg")))).

(** Line 133: one or more digits (group 1). *)
Definition digitsRe : regex := Grp 1 (Plus isDigit).

(** Line 143: the word Product, one or more white-space characters, one
    or more digits (group 1); flag [i]. *)
Definition productPhraseRe : regex :=
  Cat (lit chri "Product") (Cat (Plus isSpace) (Grp 1 (Plus isDigit))).

(** Line 153: start of input, one digit from 1 to 9, end of input. *)
Definition singleDigitRe : regex :=
  Cat Bol (Cat (Cls (between 49 57)) Eol).

(** Line 163: a word boundary, one or more digits (group 1), a word
    boundary. *)
Definition anyNumberRe : regex :=
  Cat WordB (Cat (Grp 1 (Plus isDigit)) WordB).

(** Lines 16-29: the weight the shopping-list item asks for, in grams;
    [None] when [weightMatch] is null. *)
Definition requestedWeight (shoppingListItem : string) : option Q :=
  match exec requirementRe shoppingListItem with
  | Some weightMatch =>
      let requestedWeight := parseFloat (group 1 weightMatch) in
      let requestedUnit := toLowerCase (group 2 weightMatch) in
      if String.eqb requestedUnit "kg" || String.eqb requestedUnit "kilo"
      then Some (Binary64.mul requestedWeight 1000)
      else Some requestedWeight
  | None => None
  end.

(** Lines 34-49: the weight of one product, in grams. *)
Definition productWeight (product : Product) : Z :=
  let weightText := match displayVolume product with
                    | Some v => v
                    | None => ""
                    end in
  match exec volumeRe weightText with
  | Some productWeightMatch =>
      let weight := parseInt (group 1 productWeightMatch) in
      let unit := toLowerCase (group 2 productWeightMatch) in
      if String.eqb unit "kg" then weight * 1000 else weight
  | None => 0
  end.

(** [array[0].product]: a [TypeError] on an empty array. *)
Definition firstProduct (l : list (Product * Z)) : prog (option Product) :=
  match l with
  | pw :: _ => Ret (Some (fst pw))
  | [] => Throw
  end.

(** Lines 31-68: the selection by weight. *)
Definition selectByWeight (products : list Product) (requestedWeight : Q)
  : prog (option Product) :=
  let productWeights := map (fun product => (product, productWeight product)) products in
  let validProducts :=
    filter (fun p => Qle_bool requestedWeight (inject_Z (snd p))) productWeights in
  if (0 <? List.length validProducts)%nat then
    firstProduct (sort (fun a b => snd a - snd b) validProducts)
  else
    firstProduct (sort (fun a b => snd b - snd a) productWeights).

(** Lines 73-78: the numbered listing of the products. *)
Definition orNotAvailable (label : string) (field : option string) : string :=
  match field with
  | Some v => if truthy v then label ++ ": " ++ v else label ++ ": Not available"
  | None => label ++ ": Not available"
  end.

Fixpoint listing (index : nat) (products : list Product) : list string :=
  match products with
  | [] => []
  | p :: rest =>
      (ofNat (index + 1) ++ ". " ++ title p
         ++ " - " ++ orNotAvailable "Price" (price p)
         ++ " - " ++ orNotAvailable "Compare Price" (comparePrice p)
         ++ " - " ++ orNotAvailable "Volume/Weight" (displayVolume p))
      :: listing (S index) rest
  end.

Definition productListText (products : list Product) : string :=
  join nl (listing 0 products).

(** Lines 86-105: the prompt. *)
Definition selectionPrompt (products : list Product) (shoppingListItem : string)
  : string :=
  join nl
    [ "";
      "Shopping list item: " ++ shoppingListItem;
      "";
      "Available products:";
      productListText products;
      "";
      "Based on the shopping list item, which product number is the best match? ";
      "Pick the product with weight closest to but not less than what's needed.";
      "Also consider type, quality requirements, and price in your decision.";
      "If weight matches, then prefer products with the lowest comparison price (jmf pris).";
      "";
      "First, explain your reasoning in detail. Consider the following factors, in order of importance:";
      "1. Product type match";
      "2. Compare price";
      "3. Weight/volume match with the requirement";
      "4. Product quality";
      "5. Any other relevant factors";
      "";
      "Then, in the final line, provide ONLY a single digit number representing your choice. For example: 2";
      "" ].

(** [array.pop()]: the last element, [None] for [undefined]. *)
Fixpoint pop {A : Type} (l : list A) : option A :=
  match l with
  | [] => None
  | [x] => Some x
  | _ :: l' => pop l'
  end.

(** Line 133: the digits of the last line that is not blank. *)
Definition lastLineMatch (responseText : string) : option caps :=
  match pop (filter (fun line => (0 <? String.length (trim line))%nat)
                    (splitLines responseText)) with
  | Some line => exec digitsRe line
  | None => None
  end.

(** [selectedIndex >= 0 && selectedIndex < products.length] *)
Definition inRange (selectedIndex : Z) (products : list Product) : bool :=
  (0 <=? selectedIndex) && (selectedIndex <? Z.of_nat (List.length products)).

(** One extraction step:
    [if (m) { const selectedIndex = parseInt(m[g], 10) - 1;
              if (in range) return products[selectedIndex]; }]
    followed by the rest of the function. *)
Definition step (m : option caps) (g : nat) (products : list Product)
           (rest : prog (option Product)) : prog (option Product) :=
  match m with
  | Some found =>
      let selectedIndex := parseInt (group g found) - 1 in
      if inRange selectedIndex products
      then Ret (nth_error products (Z.to_nat selectedIndex))
      else rest
  | None => rest
  end.

(** Lines 127-179: from the collaborator's answer to the product. *)
Definition fromResponse (products : list Product) (content : string)
  : prog (option Product) :=
  let responseText := trim content in
  step (lastLineMatch responseText) 1 products
    (step (exec productPhraseRe responseText) 1 products
       (step (exec singleDigitRe responseText) 0 products
          (step (exec anyNumberRe responseText) 1 products
             (if (0 <? List.length products)%nat
              then Ret (nth_error products 0)
              else Ret None)))).

(** Lines 10-184.  The calls to the logger are left out. *)
Definition selectBestProduct (products : list Product) (shoppingListItem : string)
  : prog (option Product) :=
  tryCatch
    (match requestedWeight shoppingListItem with
     | Some requestedWeight => selectByWeight products requestedWeight
     | None =>
         content <- chat (selectionPrompt products shoppingListItem) ;;
         fromResponse products content
     end)
    (Ret None).

(** Lines 197-210: the prompt of the normalizer.  The code units 228 and
    246 are the letters a and o with diaeresis. *)
Definition ae : string := String (ascii_of_nat 228) EmptyString.
Definition oe : string := String (ascii_of_nat 246) EmptyString.

Definition ingredientPrompt (ingredient : string) : string :=
  join nl
    [ "";
      "I need to search for products in a grocery store. ";
      "Convert this ingredient description to the simplest, most basic search term:";
      "";
      "Ingredient: " ++ dq ++ ingredient ++ dq;
      "";
      "For example:";
      "- " ++ dq ++ "4 " ++ ae ++ "ggulor" ++ dq ++ " should be " ++ dq ++ ae ++ "gg" ++ dq;
      "- " ++ dq ++ "500g vetemj" ++ oe ++ "l" ++ dq ++ " should be "
           ++ dq ++ "vetemj" ++ oe ++ "l" ++ dq;
      "- " ++ dq ++ "en burk krossade tomater" ++ dq ++ " should be "
           ++ dq ++ "krossade tomater" ++ dq;
      "- " ++ dq ++ "2.5 kg bananer" ++ dq ++ " should be " ++ dq ++ "banan" ++ dq;
      "";
      "Return ONLY the normalized search term as plain text, with no explanation, formatting, or additional text.";
      "" ].

(** Lines 191-226. *)
Definition processIngredientDescription (ingredient : string) : prog string :=
  tryCatch
    (content <- chat (ingredientPrompt ingredient) ;;
     let searchTerm := trim content in
     Ret searchTerm)
    (Ret ingredient).

End Llm.

(* ================================================================== *)
(** * [src/main.ts]: quantity *)

Module Main.
Import JsString Regex.

(** Lines 407 and 447: a successful click on the buy button. *)
Definition addedToCart (product : Product) : Product :=
  mkProduct (title product) (element product) (price product)
            (comparePrice product) (displayVolume product) 1.

(** [product.quantity += 1] *)
Definition incrementQuantity (product : Product) : Product :=
  mkProduct (title product) (element product) (price product)
            (comparePrice product) (displayVolume product)
            (quantity product + 1).

(** Lines 529-561: [unitWeight] and [requiredWeight], in grams, 0 when the
    text holds none. *)
Definition extractWeightInformation (product : Product) (shoppingListItem : string)
  : Z * Q :=
  let unitWeight :=
    match displayVolume product with
    | Some v =>
        match exec Llm.volumeRe v with
        | Some weightMatch =>
            let weight := parseInt (group 1 weightMatch) in
            let unit := toLowerCase (group 2 weightMatch) in
            if String.eqb unit "kg" then weight * 1000 else weight
        | None => 0
        end
    | None => 0
    end in
  let requiredWeight :=
    match exec Llm.requirementRe shoppingListItem with
    | Some requiredWeightMatch =>
        let requiredWeight := parseFloat (group 1 requiredWeightMatch) in
        let unit := toLowerCase (group 2 requiredWeightMatch) in
        if String.eqb unit "kg" || String.eqb unit "kilo"
        then Binary64.mul requiredWeight 1000
        else requiredWeight
    | None => 0%Q
    end in
  (unitWeight, requiredWeight).

(** The state the adjustment works on: the product record and the number of
    clicks requested on the plus button so far. *)
Record Cart : Type := mkCart { inCart : Product; plusClicks : nat }.

(** [for (let i = 0; i < n; i++) body]; [fuel] bounds the iterations. *)
Fixpoint forLoop {S : Type} (fuel : nat) (i n : Z) (body : Z -> S -> S) (st : S) : S :=
  match fuel with
  | O => st
  | Datatypes.S fuel' =>
      if i <? n then forLoop fuel' (i + 1) n body (body i st) else st
  end.

(** Lines 513-518: one click on the plus button, then the record follows. *)
Definition clickPlus (_ : Z) (c : Cart) : Cart :=
  mkCart (incrementQuantity (inCart c)) (S (plusClicks c)).

(** [Math.ceil(requiredWeight / unitWeight)] *)
Definition optimalQuantity (unitWeight : Z) (requiredWeight : Q) : Z :=
  Qceiling (Binary64.div requiredWeight (inject_Z unitWeight)).

(** Lines 480-521.  [plusButtonCount] is what the page answers to
    [plusButtonLocator.count()]. *)
Definition adjustProductQuantity (plusButtonCount : nat) (product : Product)
           (shoppingListItem : string) : Cart :=
  if (plusButtonCount =? 0)%nat then mkCart product 0
  else
    let (unitWeight, requiredWeight) :=
      extractWeightInformation product shoppingListItem in
    if (unitWeight =? 0) || Qeq_bool requiredWeight 0 then mkCart product 0
    else
      let optimalQuantity := optimalQuantity unitWeight requiredWeight in
      let clicksNeeded := optimalQuantity - 1 in
      forLoop (Z.to_nat clicksNeeded) 0 clicksNeeded clickPlus (mkCart product 0).

End Main.

(* ================================================================== *)
(** * The JSON-LD recipe parser *)

Module JsonLd.
Import JsString.

(** A value produced by [JSON.parse].  The members of an object are listed
    in the order [for ... in] enumerates them, with distinct keys. *)
#[local] Unset Elimination Schemes.
Inductive json : Type :=
| JNull
| JBool (b : bool)
| JNum (n : Z)
| JStr (s : string)
| JArr (items : list json)
| JObj (members : list (string * json)).
#[local] Set Elimination Schemes.

(** Result of an expression that may raise a [TypeError]. *)
Inductive res (A : Type) : Type :=
| Ok (a : A)
| Raise.
Arguments Ok {A} a.
Arguments Raise {A}.

Fixpoint lookup (key : string) (members : list (string * json)) : option json :=
  match members with
  | [] => None
  | (k, v) :: rest => if String.eqb k key then Some v else lookup key rest
  end.

(** [v[key]] for a key that is not an index: [Ok None] is [undefined], and
    the access raises on [null]. *)
Definition prop (v : json) (key : string) : res (option json) :=
  match v with
  | JNull => Raise
  | JObj members => Ok (lookup key members)
  | _ => Ok None
  end.

Definition isRecipeString (v : json) : bool :=
  match v with
  | JStr s => String.eqb s "Recipe"
  | _ => false
  end.

(** Lines 131-132: the test of [find]. *)
Definition isRecipeBlock (block : json) : res bool :=
  match prop block "@type" with
  | Raise => Raise
  | Ok (Some (JStr s)) => Ok (String.eqb s "Recipe")
  | Ok (Some (JArr types)) => Ok (existsb isRecipeString types)
  | Ok _ => Ok false
  end.

(** [jsonLdBlocks.find(...)] with a test that may raise. *)
Fixpoint findDirect (blocks : list json) : res (option json) :=
  match blocks with
  | [] => Ok None
  | block :: rest =>
      match isRecipeBlock block with
      | Raise => Raise
      | Ok true => Ok (Some block)
      | Ok false => findDirect rest
      end
  end.

(** The values [block[key]] for the keys of [for (const key in block)]. *)
Definition ownValues (block : json) : list json :=
  match block with
  | JObj members => map snd members
  | JArr items => items
  | JStr s => map (fun c => JStr (String c EmptyString)) (list_ascii_of_string s)
  | _ => []
  end.

(** Lines 140-141: [typeof v === 'object' && v !== null] and then
    [v['@type'] === 'Recipe']. *)
Definition isNestedRecipe (v : json) : bool :=
  match v with
  | JObj members =>
      match lookup "@type" members with
      | Some t => isRecipeString t
      | None => false
      end
  | _ => false
  end.

(** Lines 139-146: the inner loop, which stops at the first hit. *)
Fixpoint scanValues (values : list json) (recipeData : option json) : option json :=
  match values with
  | [] => recipeData
  | v :: rest => if isNestedRecipe v then Some v else scanValues rest recipeData
  end.

(** Lines 137-148: the outer loop, which stops once [recipeData] is set. *)
Fixpoint scanBlocks (blocks : list json) (recipeData : option json) : option json :=
  match blocks with
  | [] => recipeData
  | block :: rest =>
      match scanValues (ownValues block) recipeData with
      | Some r => Some r
      | None => scanBlocks rest None
      end
  end.

(** Lines 128-152. *)
Definition findRecipeData (jsonLdBlocks : list json) : res (option json) :=
  match findDirect jsonLdBlocks with
  | Raise => Raise
  | Ok (Some recipeData) => Ok (Some recipeData)
  | Ok None => Ok (scanBlocks jsonLdBlocks None)
  end.

(** Lines 157-167. *)
Definition extractIngredients (recipeData : json) : res (list json) :=
  match prop recipeData "recipeIngredient" with
  | Raise => Raise
  | Ok (Some (JArr recipeIngredient)) => Ok recipeIngredient
  | Ok _ =>
      match prop recipeData "ingredients" with
      | Raise => Raise
      | Ok (Some (JArr ingredients)) => Ok ingredients
      | Ok _ => Ok []
      end
  end.

(** Lines 52-65 of [extractIngredientsFromJsonLd]: from the blocks to the
    ingredient list, before the filter; an exception is caught at line 84
    and gives the empty list. *)
Definition ingredientsOfBlocks (jsonLdData : list json) : list json :=
  match findRecipeData jsonLdData with
  | Ok (Some recipeData) =>
      match extractIngredients recipeData with
      | Ok ingredients => ingredients
      | Raise => []
      end
  | Ok None => []
  | Raise => []
  end.

Section Filter.
(** [config.recipeParser.excludeIngredients] *)
Variable excludeIngredients : list string.

(** Lines 172-180. *)
Definition shouldExcludeIngredient (ingredient : string) : bool :=
  let lowerIngredient := toLowerCase ingredient in
  existsb (fun excluded => includes lowerIngredient (toLowerCase excluded))
          excludeIngredients.

(** Lines 69-71. *)
Definition filteredIngredients (ingredients : list string) : list string :=
  filter (fun i => negb (shouldExcludeIngredient i))
         (filter (fun i => truthy i && (0 <? String.length i)%nat) ingredients).
End Filter.

(** The exclusion list of the configuration file; code unit 246 is the
    letter o with diaeresis. *)
Definition configExcludeIngredients : list string :=
  [ "salt"; "peppar"; "vatten"; "olja";
    "sm" ++ String (ascii_of_nat 246) "r" ].

End JsonLd.

(* ================================================================== *)
(** * Specification-side definitions: selection *)

Module LlmSpec.
Import JsString Regex Llm.

(** The number a strategy extracts, when its pattern matches. *)
Definition number (m : option caps) (g : nat) : option Z :=
  match m with
  | Some found => Some (parseInt (group g found))
  | None => None
  end.

(** The four strategies of [fromResponse], in the order of the source. *)
Definition extracted (responseText : string) : list (option Z) :=
  [ number (lastLineMatch responseText) 1;
    number (exec productPhraseRe responseText) 1;
    number (exec singleDigitRe responseText) 0;
    number (exec anyNumberRe responseText) 1 ].

(** The first extracted number [n] whose index [n - 1] is in range. *)
Fixpoint firstInRange (products : list Product) (numbers : list (option Z))
  : option Z :=
  match numbers with
  | [] => None
  | Some n :: rest =>
      if inRange (n - 1) products then Some (n - 1) else firstInRange products rest
  | None :: rest => firstInRange products rest
  end.

(** The phrase Final choice: N of the specification, in any case. *)
Definition finalChoiceRe : regex :=
  Cat (lit chri "Final choice:") (Cat (Star isSpace) (Grp 1 (Plus isDigit))).

(** The chain as the specification words its second strategy: the phrase
    Product N or the phrase Final choice: N. *)
Definition extractedAsSpecified (responseText : string) : list (option Z) :=
  [ number (lastLineMatch responseText) 1;
    number (exec (Or productPhraseRe finalChoiceRe) responseText) 1;
    number (exec singleDigitRe responseText) 0;
    number (exec anyNumberRe responseText) 1 ].

(** The digits that follow the word Product, in any case, and one or more
    white-space characters, in a text that begins so. *)
Definition phraseAt (text : string) : option string :=
  match text with
  | String a (String b (String c (String d (String e (String f (String g after)))))) =>
      if String.eqb
           (toLowerCase
              (String a (String b (String c (String d (String e (String f
                 (String g EmptyString))))))))
           "product"
      then match after with
           | String s _ =>
               if isSpace s
               then match takeWhile isDigit (dropWhile isSpace after) with
                    | EmptyString => None
                    | ds => Some ds
                    end
               else None
           | EmptyString => None
           end
      else None
  | _ => None
  end.

(** The digits of the leftmost such phrase of a text. *)
Fixpoint firstPhrase (text : string) : option string :=
  match phraseAt text with
  | Some ds => Some ds
  | None =>
      match text with
      | String _ rest => firstPhrase rest
      | EmptyString => None
      end
  end.

(** The run of digits a text begins with, when it is a token: the
    character before it, if any, is no letter, digit or underscore, and
    neither is the character after it. *)
Definition tokenAt (before : option ascii) (text : string) : option string :=
  match takeWhile isDigit text with
  | EmptyString => None
  | ds =>
      if match before with Some c => isWord c | None => false end then None
      else match dropWhile isDigit text with
           | String c _ => if isWord c then None else Some ds
           | EmptyString => Some ds
           end
  end.

(** The leftmost token of a text that follows the character [before]. *)
Fixpoint firstToken (before : option ascii) (text : string) : option string :=
  match tokenAt before text with
  | Some ds => Some ds
  | None =>
      match text with
      | String c rest => firstToken (Some c) rest
      | EmptyString => None
      end
  end.

(** The unit a text begins with, as written: g or kg in any case. *)
Definition volumeUnitAt (text : string) : option string :=
  match text with
  | String a rest =>
      if Ascii.eqb (lowerChar a) "g" then Some (String a EmptyString)
      else if Ascii.eqb (lowerChar a) "k" then
        match rest with
        | String b _ =>
            if Ascii.eqb (lowerChar b) "g"
            then Some (String a (String b EmptyString))
            else None
        | EmptyString => None
        end
      else None
  | EmptyString => None
  end.

(** The whole number and the unit a text begins with: digits, white space
    if any, and g or kg. *)
Definition volumeAt (text : string) : option (string * string) :=
  match takeWhile isDigit text with
  | EmptyString => None
  | ds =>
      match volumeUnitAt (dropWhile isSpace (dropWhile isDigit text)) with
      | Some u => Some (ds, u)
      | None => None
      end
  end.

(** The leftmost place of a text where there is such a number. *)
Fixpoint firstVolume (text : string) : option (string * string) :=
  match volumeAt text with
  | Some found => Some found
  | None =>
      match text with
      | String _ rest => firstVolume rest
      | EmptyString => None
      end
  end.

(** The weight a volume text states, in grams, 0 when it states none. *)
Definition weightOfVolume (volume : string) : Z :=
  match firstVolume volume with
  | Some (ds, u) =>
      if String.eqb (toLowerCase u) "kg" then parseInt ds * 1000 else parseInt ds
  | None => 0
  end.

(** The unit a requirement begins with, as written: g, kg or kilo in any
    case; the unit gram is read as its first letter. *)
Definition requirementUnitAt (text : string) : option string :=
  match text with
  | String a rest =>
      if Ascii.eqb (lowerChar a) "g" then Some (String a EmptyString)
      else if Ascii.eqb (lowerChar a) "k" then
        match rest with
        | String b rest' =>
            if Ascii.eqb (lowerChar b) "g"
            then Some (String a (String b EmptyString))
            else if Ascii.eqb (lowerChar b) "i" then
              match rest' with
              | String c (String d _) =>
                  if Ascii.eqb (lowerChar c) "l" && Ascii.eqb (lowerChar d) "o"
                  then Some (String a (String b (String c (String d EmptyString))))
                  else None
              | _ => None
              end
            else None
        | EmptyString => None
        end
      else None
  | EmptyString => None
  end.

(** The number and the unit a text begins with: digits, then a point and
    digits if there are any, white space if any, and a unit. *)
Definition measureAt (text : string) : option (string * string) :=
  match takeWhile isDigit text with
  | EmptyString => None
  | ds =>
      let after := dropWhile isDigit text in
      let (number, rest) :=
        match after with
        | String x decimals =>
            if Ascii.eqb "." x
            then (ds ++ "." ++ takeWhile isDigit decimals, dropWhile isDigit decimals)
            else (ds, after)
        | EmptyString => (ds, after)
        end in
      match requirementUnitAt (dropWhile isSpace rest) with
      | Some u => Some (number, u)
      | None => None
      end
  end.

(** What the requirement pattern does on the text [t] once it has read
    the number: white space if any, and a unit; the number read is what
    lies between the beginning of [t] and the position reached. *)
Definition afterNumber (t : string) : @cont caps :=
  fun prev s cs =>
    star isSpace prev s ((1%nat, consumed t s) :: cs)
         (fun prev' s' cs' =>
            Regex.run (Grp 2 (Or (lit chri "g")
                             (Or (lit chri "gram")
                             (Or (lit chri "kg") (lit chri "kilo")))))
                      prev' s' cs'
                      (fun _ s'' cs'' => Some ((0%nat, consumed t s'') :: cs''))).

(** The leftmost place of a text where there is such a measure. *)
Fixpoint firstMeasure (text : string) : option (string * string) :=
  match measureAt text with
  | Some found => Some found
  | None =>
      match text with
      | String _ rest => firstMeasure rest
      | EmptyString => None
      end
  end.

(** The weight a requirement states, in grams, if it states one. *)
Definition weightOfRequirement (item : string) : option Q :=
  match firstMeasure item with
  | Some (number, u) =>
      if String.eqb (toLowerCase u) "kg" || String.eqb (toLowerCase u) "kilo"
      then Some (Binary64.mul (parseFloat number) 1000)
      else Some (parseFloat number)
  | None => None
  end.

(** The product of the first number in range, else the first product. *)
Definition chosen (products : list Product) (numbers : list (option Z))
  : option Product :=
  match firstInRange products numbers with
  | Some i => nth_error products (Z.to_nat i)
  | None => nth_error products 0
  end.

(** A candidate meets the requirement of [R] grams. *)
Definition sufficient (R : Q) (q : Product) : Prop :=
  (R <= inject_Z (productWeight q))%Q.

(** A product with its weight, as line 46 pairs them. *)
Definition weighed (product : Product) : Product * Z :=
  (product, productWeight product).

End LlmSpec.

(* ================================================================== *)
(** * Specification-side definitions: recipe parser *)

Module JsonLdSpec.
Import JsString JsonLd.

(** The exclusion word [e] occurs in the ingredient [i] when case is
    ignored. *)
Definition occursIgnoringCase (e i : string) : Prop :=
  exists pre post, toLowerCase i = pre ++ toLowerCase e ++ post.

(** The text Recipe. *)
Definition isTheTextRecipe (value : json) : bool :=
  match value with
  | JStr s => String.eqb s "Recipe"
  | _ => false
  end.

(** A block whose type discriminator is, or includes, Recipe. *)
Definition declaresRecipe (block : json) : bool :=
  match block with
  | JObj members =>
      match lookup "@type" members with
      | Some (JStr s) => String.eqb s "Recipe"
      | Some (JArr types) => existsb isTheTextRecipe types
      | _ => false
      end
  | _ => false
  end.

(** An object whose type discriminator is the text Recipe. *)
Definition isRecipeObject (value : json) : bool :=
  match value with
  | JObj members =>
      match lookup "@type" members with
      | Some (JStr s) => String.eqb s "Recipe"
      | _ => false
      end
  | _ => false
  end.

(** The values one level below a block: those of the members of an
    object, and the elements of an array. *)
Definition propertyValues (block : json) : list json :=
  match block with
  | JObj members => map snd members
  | JArr items => items
  | _ => []
  end.

(** The Recipe object of a sequence of blocks: the first top-level block
    that declares Recipe, and only when there is none the first value one
    level deeper, in block order and then member order, that is an object
    of type Recipe. *)
Definition locateRecipe (blocks : list json) : option json :=
  match find declaresRecipe blocks with
  | Some block => Some block
  | None => find isRecipeObject (flat_map propertyValues blocks)
  end.

(** The ingredient list of a Recipe object: the primary field when it is a
    list, else the secondary field when it is a list, else nothing. *)
Definition ingredientList (recipe : json) : list json :=
  match recipe with
  | JObj members =>
      match lookup "recipeIngredient" members with
      | Some (JArr primary) => primary
      | _ =>
          match lookup "ingredients" members with
          | Some (JArr secondary) => secondary
          | _ => []
          end
      end
  | _ => []
  end.

End JsonLdSpec.

(* ================================================================== *)
(** * [src/logger.ts] *)

Module Logger.
Import JsString.

(** [enum LogLevel] with its numeric values. *)
Inductive LogLevel : Type := NONE | ERROR | INFO | DEBUG.

Definition levelValue (level : LogLevel) : Z :=
  match level with
  | NONE => 0
  | ERROR => 1
  | INFO => 2
  | DEBUG => 3
  end.

(** One line on the console.  The pictographs that open a line lie outside
    the code units a [string] holds here, so a line keeps its pictograph as a
    [Marker]; [framed] tells that the line is written between two line
    feeds. *)
Inductive Console : Type := ConsoleLog | ConsoleError.

Inductive Marker : Type :=
  CrossMark | InfoSign | Magnifier | Robot | Trolley | CheckMark.

Record Line : Type := mkLine {
  console : Console;
  marker : Marker;
  framed : bool;
  message : string
}.



(** Lines 37-76: the six printing methods, as the lines they write at a
    given [logLevel]. *)
Definition error (logLevel : LogLevel) (text : string) : list Line :=
  if levelValue logLevel >=? levelValue ERROR
  then [mkLine ConsoleError CrossMark false text] else [].

Definition info (logLevel : LogLevel) (text : string) : list Line :=
  if levelValue logLevel >=? levelValue INFO
  then [mkLine ConsoleLog InfoSign false text] else [].

Definition debug (logLevel : LogLevel) (text : string) : list Line :=
  if levelValue logLevel >=? levelValue DEBUG
  then [mkLine ConsoleLog Magnifier false text] else [].

Definition llm (logLevel : LogLevel) (text : string) : list Line :=
  if levelValue logLevel >=? levelValue INFO
  then [mkLine ConsoleLog Robot true text] else [].

Definition product (logLevel : LogLevel) (text : string) : list Line :=
  if levelValue logLevel >=? levelValue INFO
  then [mkLine ConsoleLog Trolley true text] else [].

Definition decision (logLevel : LogLevel) (text : string) : list Line :=
  if levelValue logLevel >=? levelValue INFO
  then [mkLine ConsoleLog CheckMark true text] else [].

(** The methods by name, to speak of all of them at once. *)
Inductive Method : Type :=
  MError | MInfo | MDebug | MLlm | MProduct | MDecision.

Definition write (method : Method) : LogLevel -> string -> list Line :=
  match method with
  | MError => error
  | MInfo => info
  | MDebug => debug
  | MLlm => llm
  | MProduct => product
  | MDecision => decision
  end.



End Logger.

(* ================================================================== *)
(** * [src/main.ts]: the command line, the shopping list and the items *)

Module Pipeline.
Import JsString Regex Effect Llm Main.
Local Open Scope prog_scope.

(** [array.findIndex(test)]: -1 when no element passes. *)
Fixpoint findIndex {A : Type} (test : A -> bool) (l : list A) : Z :=
  match l with
  | [] => -1
  | x :: rest =>
      if test x then 0
      else let i := findIndex test rest in
           if i =? -1 then -1 else i + 1
  end.

Section CommandLine.
(** [new URL(text).toString()]; [None] when the constructor throws. *)
Variable newURL : string -> option string.

(** Lines 125-152.  [args] is [process.argv.slice(2)]. *)
Definition getRecipeUrlFromCommandLine (args : list string) : option string :=
  let urlArg := find (startsWith "http") args in
  let fromArgument :=
    match urlArg with
    | Some text => if truthy text then newURL text else None
    | None => None
    end in
  match fromArgument with
  | Some url => Some url
  | None =>
      let recipeIndex :=
        findIndex (fun arg => String.eqb arg "--recipe" || String.eqb arg "-r") args in
      if negb (recipeIndex =? -1)
         && (recipeIndex <? Z.of_nat (List.length args) - 1)
      then match nth_error args (Z.to_nat (recipeIndex + 1)) with
           | Some text => newURL text
           | None => None
           end
      else None
  end.
End CommandLine.

(** Lines 159-170. *)
Definition extractSearchTerm (shoppingListItem : string) : prog string :=
  tryCatch
    (searchTerm <- processIngredientDescription shoppingListItem ;;
     Ret searchTerm)
    (Ret shoppingListItem).

(** Lines 36-41 and 46-51: the loop that normalizes the ingredients one
    after the other and pushes the search terms. *)
Fixpoint normalizeInto (shoppingList ingredients : list string) : prog (list string) :=
  match ingredients with
  | [] => Ret shoppingList
  | ingredient :: rest =>
      searchTerm <- processIngredientDescription ingredient ;;
      normalizeInto (shoppingList ++ [searchTerm])%list rest
  end.

(** Lines 15-55 of [shopForGroceries]: the shopping list.  [ingredients] is
    what [extractIngredientsFromJsonLd] returns for the address,
    [fallbackIngredients] what [extractIngredientsFromUrl] returns, and
    [defaultList] is [config.shoppingList]. *)
Definition buildShoppingList (recipeUrl : option string)
           (ingredients fallbackIngredients defaultList : list string)
  : prog (list string) :=
  match recipeUrl with
  | Some url =>
      if truthy url then
        if (List.length ingredients =? 0)%nat then
          if (List.length fallbackIngredients =? 0)%nat then Ret defaultList
          else normalizeInto [] fallbackIngredients
        else normalizeInto [] ingredients
      else Ret defaultList
  | None => Ret defaultList
  end.

(** What the page answers, for one product, to the counts the code asks
    for: the product container and its buy button, the parent block and its
    buy button of the alternative method, and the plus button after the
    purchase. *)
Record Controls : Type := mkControls {
  containerCount : nat;
  buyButtonCount : nat;
  parentDivCount : nat;
  alternativeBuyButtonCount : nat;
  plusButtonCount : nat
}.

(** A result page: the products [findProductsOnPage] returns and, by page
    handle, the controls of each.  Clicks are taken to succeed. *)
Record Page : Type := mkPage {
  productsOnPage : list Product;
  controlsOf : nat -> Controls
}.

(** Lines 421-453. *)
Definition addProductToCartAlternativeMethod (controls : Controls) (product : Product)
  : bool * Product :=
  if (parentDivCount controls =? 0)%nat then (false, product)
  else if (alternativeBuyButtonCount controls =? 0)%nat then (false, product)
  else (true, addedToCart product).

(** Lines 381-414. *)
Definition addProductToCart (controls : Controls) (product : Product)
  : bool * Product :=
  if (containerCount controls =? 0)%nat
  then addProductToCartAlternativeMethod controls product
  else if (buyButtonCount controls =? 0)%nat then (false, product)
  else (true, addedToCart product).

(** Lines 228-263. *)
Definition processSearchResults (page : Page) (shoppingListItem : string)
  : prog (option Product) :=
  let products := productsOnPage page in
  if (List.length products =? 0)%nat then Ret None
  else
    selectedProduct <- selectBestProduct products shoppingListItem ;;
    match selectedProduct with
    | None => Ret None
    | Some selected =>
        let controls := controlsOf page (element selected) in
        let (added, bought) := addProductToCart controls selected in
        if negb added then Ret None
        else
          let cart := adjustProductQuantity (plusButtonCount controls) bought
                                            shoppingListItem in
          Ret (Some (inCart cart))
    end.

(** Lines 81-104 of [shopForGroceries]: the items one after the other.
    [site] gives the result page that [searchForProduct] reaches for a search
    term; the search itself and the pauses are taken to succeed. *)
Fixpoint processItems (site : string -> Page) (shoppingList : list string)
         (cartItems : list Product) : prog (list Product) :=
  match shoppingList with
  | [] => Ret cartItems
  | shoppingListItem :: rest =>
      searchTerm <- extractSearchTerm shoppingListItem ;;
      addedProduct <- processSearchResults (site searchTerm) shoppingListItem ;;
      processItems site rest
        (match addedProduct with
         | Some p => (cartItems ++ [p])%list
         | None => cartItems
         end)
  end.

(** Lines 627-667: the cookie dialog.  What one attempt meets: the button
    is not visible, the visibility check throws, the button is visible and
    the click goes through, or the button is visible and the click throws.
    An exception of an attempt is caught at line 656 and the polling goes
    on. *)
Inductive Probe : Type := Hidden | CheckFailed | Rejected | ClickFailed.

Inductive PageAction : Type :=
| WaitFor (milliseconds : Z)
| Click.

Definition cookieTimeout : Z := 15000.
Definition pollingInterval : Z := 1000.
Definition maxAttempts : Z := cookieTimeout / pollingInterval.

Fixpoint pollCookieDialog (fuel : nat) (attempt : Z) (probe : Z -> Probe)
         (actions : list PageAction) : bool * list PageAction :=
  match fuel with
  | O => (false, actions)
  | S fuel' =>
      if attempt <? maxAttempts then
        match probe attempt with
        | Rejected => (true, (actions ++ [WaitFor 500; Click])%list)
        | met =>
            let tried :=
              match met with
              | ClickFailed => (actions ++ [WaitFor 500; Click])%list
              | _ => actions
              end in
            let waited :=
              if attempt <? maxAttempts - 1
              then (tried ++ [WaitFor pollingInterval])%list
              else tried in
            pollCookieDialog fuel' (attempt + 1) probe waited
        end
      else (false, actions)
  end.

Definition handleCookieDialog (probe : Z -> Probe) : bool * list PageAction :=
  pollCookieDialog (Z.to_nat maxAttempts) 0 probe [].







End Pipeline.

(* ================================================================== *)
(** * The JSON-LD recipe parser: from the page to the ingredients *)

Module Extractor.
Import JsString JsonLd.

Section Extraction.
(** [JSON.parse]; [None] when it throws. *)
Variable jsonParse : string -> option json.
(** For an object [i], the test [i.length > 0], which converts the member
    [length] to a number. *)
Variable lengthPositive : list (string * json) -> bool.
(** [config.recipeParser.excludeIngredients] *)
Variable excludeIngredients : list string.

(** Lines 106-119: one script element. *)
Definition blocksOfScript (textContent : option string) : list json :=
  let content := match textContent with
                 | Some t => if truthy t then t else "{}"
                 | None => "{}"
                 end in
  match jsonParse content with
  | Some (JArr data) => data
  | Some data => [data]
  | None => []
  end.

(** Lines 101-123. *)
Definition extractJsonLdData (scripts : list (option string)) : list json :=
  fold_left (fun jsonLdBlocks script => (jsonLdBlocks ++ blocksOfScript script)%list)
            scripts [].

(** Line 70: [i && i.length > 0] on a value of any kind. *)
Definition nonEmptyIngredient (i : json) : bool :=
  match i with
  | JStr s => truthy s && (0 <? String.length s)%nat
  | JArr items => (0 <? List.length items)%nat
  | JObj members => lengthPositive members
  | _ => false
  end.

(** Line 71: [!shouldExcludeIngredient(i)], which calls [i.toLowerCase()]
    and so raises on a value that is not a string. *)
Fixpoint keepAllowed (ingredients : list json) : res (list string) :=
  match ingredients with
  | [] => Ok []
  | JStr s :: rest =>
      match keepAllowed rest with
      | Ok kept =>
          Ok (if shouldExcludeIngredient excludeIngredients s then kept else s :: kept)
      | Raise => Raise
      end
  | _ :: _ => Raise
  end.

(** Lines 17-96.  [page] is [None] when the browser cannot be started or
    the address cannot be loaded, else the texts of the script elements of
    type application/ld+json. *)
Definition extractIngredientsFromJsonLd (page : option (list (option string)))
  : list string :=
  match page with
  | None => []
  | Some scripts =>
      let jsonLdData := extractJsonLdData scripts in
      if (List.length jsonLdData =? 0)%nat then []
      else
        match findRecipeData jsonLdData with
        | Ok (Some recipeData) =>
            match extractIngredients recipeData with
            | Ok ingredients =>
                if (List.length ingredients =? 0)%nat then []
                else
                  match keepAllowed (filter nonEmptyIngredient ingredients) with
                  | Ok filteredIngredients => filteredIngredients
                  | Raise => []
                  end
            | Raise => []
            end
        | Ok None => []
        | Raise => []
        end
  end.
End Extraction.

End Extractor.

(* ================================================================== *)
(** * Notions used to state the facts about the pipeline *)

Module PipelineSpec.
Import Pipeline.

(** The number of waits of one polling interval among the actions. *)
Definition pollingWaits (actions : list PageAction) : nat :=
  List.length
    (filter (fun action => match action with
                           | WaitFor milliseconds => milliseconds =? pollingInterval
                           | Click => false
                           end) actions).

End PipelineSpec.

Module ExtractorSpec.
Import JsonLd.

(** The texts among the values of a list, in order. *)
Definition textsOf (items : list json) : list string :=
  flat_map (fun item => match item with
                        | JStr s => [s]
                        | _ => []
                        end) items.

(** A value is a text. *)
Definition isText (item : json) : bool :=
  match item with
  | JStr _ => true
  | _ => false
  end.

End ExtractorSpec.

(* ================================================================== *)
(** * Sample inputs *)

Module Samples.
Import JsString Llm JsonLd.

Definition banana (handle : nat) (volume : string) : Product :=
  mkProduct "Bananer" handle None None (Some volume) 0.

Definition bananas : list Product :=
  [banana 0 "150g"; banana 1 "300g"; banana 2 "500g"].

Definition potato (handle : nat) (volume : string) : Product :=
  mkProduct "Potatis" handle None None (Some volume) 0.

Definition potatoes : list Product := [potato 0 "4030g"; potato 1 "5 kg"].

(** The binary64 that [4.03 * 1000] gives: 4030 and 2^-41. *)
Definition fourKiloThirty : Q := 8862063719874561 # 2199023255552.

Definition jars : list Product :=
  [ mkProduct "A" 1 None None None 0;
    mkProduct "B" 2 None None None 0;
    mkProduct "C" 3 None None None 0 ].

Definition recipeBlock : json :=
  JObj [ ("@context", JStr "https://schema.org");
         ("@type", JStr "Recipe");
         ("recipeIngredient",
          JArr [JStr ("500g vetemj" ++ oe ++ "l"); JStr "1 burk tomater"]) ].

(** A block that holds the recipe one level deeper. *)
Definition pageBlock : json :=
  JObj [ ("@context", JStr "https://schema.org");
         ("@type", JStr "WebPage");
         ("mainEntity", recipeBlock) ].

End Samples.

(* ================================================================== *)
(** * More sample inputs *)

Module MoreSamples.
Import JsString Llm JsonLd Pipeline Samples.

(** A result page that lists the three bananas, each in a container with a
    buy button and a plus button. *)
Definition shelf : Page :=
  mkPage bananas (fun _ => mkControls 1 1 0 0 1).

(** A collaborator that cannot be reached, and one that always gives the
    same answer. *)
Definition unreachable : string -> option string := fun _ => None.

Definition answering (content : string) : string -> option string :=
  fun _ => Some content.

(** The text of a script element that holds [recipeBlock], and a parser
    that knows this text only. *)
Definition recipeScript : string :=
  "{" ++ dq ++ "@context" ++ dq ++ ":" ++ dq ++ "https://schema.org" ++ dq ++ ","
      ++ dq ++ "@type" ++ dq ++ ":" ++ dq ++ "Recipe" ++ dq ++ ","
      ++ dq ++ "recipeIngredient" ++ dq ++ ":["
      ++ dq ++ "500g vetemj" ++ oe ++ "l" ++ dq ++ ","
      ++ dq ++ "1 burk tomater" ++ dq ++ "]}".

Definition parseRecipeScript (text : string) : option json :=
  if String.eqb text recipeScript then Some recipeBlock else None.

(** A recipe whose ingredient list holds values that are no texts, and
    one whose list holds an array. *)
Definition mixedBlock : json :=
  JObj [ ("@type", JStr "Recipe");
         ("recipeIngredient",
          JArr [ JStr "1 kg potatis"; JNull; JNum 3; JBool true; JArr [];
                 JStr ""; JObj []; JStr "2 dl vatten"; JStr "3 morotter" ]) ].

Definition groupedBlock : json :=
  JObj [ ("@type", JStr "Recipe");
         ("recipeIngredient",
          JArr [ JStr "1 kg potatis"; JArr [JStr "3 morotter"] ]) ].

(** A result page that lists a 130 g banana with a buy button and a plus
    button. *)
Definition smallShelf : Page :=
  mkPage [banana 0 "130g"] (fun _ => mkControls 1 1 0 0 1).

(** A document that lists its recipe in the member graph. *)
Definition graphBlock : json :=
  JObj [ ("@context", JStr "https://schema.org");
         ("@graph", JArr [recipeBlock]) ].

End MoreSamples.

(* ================================================================== *)
(** * Properties of the stable sort *)

Section SortFacts.
Context {A : Type} (cmp : A -> A -> Z) (key : A -> Z).
Hypothesis cmp_key : forall a b, cmp a b <= 0 <-> key a <= key b.

(** The head of the sorted list is the first element of the input whose
    key is the least: everything before it is strictly greater, everything
    after it is at least as great. *)
Lemma sort_head (l : list A) :
  l <> [] ->
  exists l1 p l2 rest,
    l = (l1 ++ p :: l2)%list /\ sort cmp l = p :: rest /\
    (forall q, In q l1 -> key p < key q) /\
    (forall q, In q l2 -> key p <= key q).
Proof.
  induction l as [|x l IH]; [congruence|intros _].
  destruct l as [|y l'].
  - exists [], x, [], []. simpl. repeat split; intros q [].
  - destruct IH as (l1 & p & l2 & rest & El & Es & H1 & H2); [discriminate|].
    change (sort cmp (x :: y :: l')) with (insert cmp x (sort cmp (y :: l'))).
    rewrite Es. simpl insert.
    destruct (cmp x p <=? 0) eqn:E.
    + apply Z.leb_le, cmp_key in E.
      exists [], x, (y :: l'), (p :: rest). repeat split; [intros q []|].
      intros q Hq. rewrite El in Hq. apply in_app_or in Hq.
      destruct Hq as [Hq|[<-|Hq]]; [specialize (H1 q Hq)|..|specialize (H2 q Hq)]; lia.
    + apply Z.leb_gt in E.
      assert (key p < key x) by (destruct (Z.le_gt_cases (key x) (key p)) as [L|L];
                                 [apply cmp_key in L; lia|lia]).
      exists (x :: l1), p, l2, (insert cmp x rest).
      rewrite El. repeat split; auto.
      intros q [<-|Hq]; auto.
Qed.

(** [sort] rearranges its input. *)
Lemma insert_permutation (x : A) (l : list A) : Permutation (x :: l) (insert cmp x l).
Proof.
  induction l as [|y l IH]; simpl; [reflexivity|].
  destruct (cmp x y <=? 0); [reflexivity|].
  rewrite perm_swap. apply perm_skip. exact IH.
Qed.

Lemma sort_permutation (l : list A) : Permutation l (sort cmp l).
Proof.
  induction l as [|x l IH]; simpl; [reflexivity|].
  rewrite <- insert_permutation. apply perm_skip. exact IH.
Qed.

(** [sort] puts its input in order of the keys. *)
Lemma insert_sorted (x : A) (l : list A) :
  Sorted (fun a b => key a <= key b) l ->
  Sorted (fun a b => key a <= key b) (insert cmp x l).
Proof.
  induction 1 as [|y l Hs IH Hd]; simpl; [repeat constructor|].
  destruct (cmp x y <=? 0) eqn:E.
  - apply Z.leb_le, cmp_key in E. repeat constructor; assumption.
  - apply Z.leb_gt in E.
    assert (key y <= key x).
    { destruct (Z.le_gt_cases (key x) (key y)) as [L|L]; [apply cmp_key in L|]; lia. }
    constructor; [exact IH|].
    destruct l as [|z l]; simpl; [constructor; assumption|].
    destruct (cmp x z <=? 0); constructor; [assumption|].
    inversion Hd; assumption.
Qed.

Lemma sort_sorted (l : list A) : Sorted (fun a b => key a <= key b) (sort cmp l).
Proof.
  induction l as [|x l IH]; simpl; [constructor|].
  apply insert_sorted. exact IH.
Qed.

(** [sort] is stable: the elements of one key keep their order. *)
Lemma insert_stable (k : Z) (x : A) (l : list A) :
  filter (fun a => key a =? k) (insert cmp x l)
  = filter (fun a => key a =? k) (x :: l).
Proof.
  induction l as [|y l IH]; [reflexivity|].
  cbn [insert]. destruct (cmp x y <=? 0) eqn:E; [reflexivity|].
  apply Z.leb_gt in E.
  assert (key y < key x).
  { destruct (Z.le_gt_cases (key x) (key y)) as [L|L]; [apply cmp_key in L|]; lia. }
  cbn [filter] in *. rewrite IH.
  destruct (Z.eqb_spec (key y) k), (Z.eqb_spec (key x) k); try reflexivity; lia.
Qed.

Lemma sort_stable (k : Z) (l : list A) :
  filter (fun a => key a =? k) (sort cmp l) = filter (fun a => key a =? k) l.
Proof.
  induction l as [|x l IH]; [reflexivity|].
  change (sort cmp (x :: l)) with (insert cmp x (sort cmp l)).
  rewrite insert_stable. cbn [filter]. rewrite IH. reflexivity.
Qed.
End SortFacts.

Lemma filter_split {A : Type} (f : A -> bool) (l m1 m2 : list A) (x : A) :
  filter f l = (m1 ++ x :: m2)%list ->
  exists l1 l2, l = (l1 ++ x :: l2)%list /\ filter f l1 = m1 /\ filter f l2 = m2 /\ f x = true.
Proof.
  revert m1. induction l as [|a l IH]; intros m1 E; simpl in E.
  - destruct m1; discriminate.
  - destruct (f a) eqn:Fa.
    + destruct m1 as [|b m1]; simpl in E; injection E as -> E.
      * exists [], l. simpl. auto.
      * destruct (IH _ E) as (l1 & l2 & -> & F1 & F2 & Fx).
        exists (b :: l1), l2. simpl. rewrite Fa, F1. auto.
    + destruct (IH _ E) as (l1 & l2 & -> & F1 & F2 & Fx).
      exists (a :: l1), l2. simpl. rewrite Fa. auto.
Qed.

Lemma filter_nil_iff {A : Type} (f : A -> bool) (l : list A) :
  filter f l = [] <-> forall x, In x l -> f x = false.
Proof.
  induction l as [|a l IH]; simpl.
  - split; [intros _ x []|reflexivity].
  - destruct (f a) eqn:Fa; split.
    + discriminate.
    + intros H. specialize (H a (or_introl eq_refl)). congruence.
    + intros E x [<-|Hx]; [assumption|apply IH; assumption].
    + intros H. apply IH. auto.
Qed.

(* ================================================================== *)
(** * Facts about strings *)

Module StringFacts.
Import JsString.

Lemma append_nil_r (s : string) : s ++ "" = s.
Proof. induction s as [|c s IH]; simpl; [reflexivity|rewrite IH; reflexivity]. Qed.

Lemma append_assoc (a b c : string) : (a ++ b) ++ c = a ++ (b ++ c).
Proof. induction a as [|x a IH]; simpl; [reflexivity|rewrite IH; reflexivity]. Qed.

Lemma length_append (a b : string) :
  String.length (a ++ b) = (String.length a + String.length b)%nat.
Proof. induction a as [|x a IH]; simpl; [reflexivity|rewrite IH; reflexivity]. Qed.

Lemma rev_onto_append (s acc : string) : rev_onto s acc = reverse s ++ acc.
Proof.
  unfold reverse. revert acc. induction s as [|c s IH]; intros acc; simpl.
  - reflexivity.
  - rewrite IH, (IH (String c "")), append_assoc. reflexivity.
Qed.

Lemma reverse_cons (c : ascii) (s : string) :
  reverse (String c s) = reverse s ++ String c "".
Proof. unfold reverse at 1. simpl. apply rev_onto_append. Qed.

Lemma reverse_append (a b : string) : reverse (a ++ b) = reverse b ++ reverse a.
Proof.
  induction a as [|c a IH]; simpl.
  - rewrite append_nil_r. reflexivity.
  - rewrite !reverse_cons, IH, append_assoc. reflexivity.
Qed.

Lemma reverse_involutive (s : string) : reverse (reverse s) = s.
Proof.
  induction s as [|c s IH]; [reflexivity|].
  rewrite reverse_cons, reverse_append, IH. reflexivity.
Qed.

Lemma allb_append (p : ascii -> bool) (a b : string) :
  allb p (a ++ b) = allb p a && allb p b.
Proof.
  induction a as [|c a IH]; simpl; [reflexivity|].
  rewrite IH, andb_assoc. reflexivity.
Qed.

Lemma allb_reverse (p : ascii -> bool) (s : string) : allb p (reverse s) = allb p s.
Proof.
  induction s as [|c s IH]; [reflexivity|].
  rewrite reverse_cons, allb_append, IH. simpl.
  rewrite andb_true_r, andb_comm. reflexivity.
Qed.

Lemma take_drop (p : ascii -> bool) (s : string) :
  takeWhile p s ++ dropWhile p s = s.
Proof.
  induction s as [|c s IH]; simpl; [reflexivity|].
  destruct (p c); simpl; [rewrite IH|]; reflexivity.
Qed.

Lemma allb_takeWhile (p : ascii -> bool) (s : string) : allb p (takeWhile p s) = true.
Proof.
  induction s as [|c s IH]; simpl; [reflexivity|].
  destruct (p c) eqn:E; simpl; [rewrite E, IH|]; reflexivity.
Qed.

Lemma clear_dropWhile (p : ascii -> bool) (s : string) : clear p (dropWhile p s).
Proof.
  induction s as [|c s IH]; simpl; [exact I|].
  destruct (p c) eqn:E; [exact IH|exact E].
Qed.

Lemma dropWhile_clear (p : ascii -> bool) (s : string) :
  clear p s -> dropWhile p s = s.
Proof. destruct s as [|c s]; simpl; [reflexivity|intros ->; reflexivity]. Qed.

(** [trim] removes a run of white space at each end and nothing else, and
    what is left neither begins nor ends with white space. *)
Lemma trim_spec (s : string) :
  exists l r,
    s = l ++ trim s ++ r /\
    allb isSpace l = true /\ allb isSpace r = true /\
    clear isSpace (trim s) /\ clear isSpace (reverse (trim s)).
Proof.
  unfold trim.
  set (t := dropWhile isSpace s).
  set (b := dropWhile isSpace (reverse t)).
  exists (takeWhile isSpace s), (reverse (takeWhile isSpace (reverse t))).
  assert (Et : t = reverse b ++ reverse (takeWhile isSpace (reverse t))).
  { rewrite <- reverse_append. subst b. rewrite take_drop.
    symmetry. apply reverse_involutive. }
  repeat split.
  - rewrite <- Et. subst t. symmetry. apply take_drop.
  - apply allb_takeWhile.
  - rewrite allb_reverse. apply allb_takeWhile.
  - destruct (reverse b) as [|c rb] eqn:Erb; [exact I|].
    pose proof (clear_dropWhile isSpace s) as Hc. fold t in Hc.
    rewrite Et in Hc. exact Hc.
  - rewrite reverse_involutive. subst b. apply clear_dropWhile.
Qed.

Lemma isSpace_not_digit (c : ascii) : isSpace c = true -> isDigit c = false.
Proof. destruct c as [[] [] [] [] [] [] [] []]; vm_compute; congruence. Qed.

Lemma isDigit_not_space (c : ascii) : isDigit c = true -> isSpace c = false.
Proof. destruct c as [[] [] [] [] [] [] [] []]; vm_compute; congruence. Qed.

Lemma lowerChar_idempotent (c : ascii) : lowerChar (lowerChar c) = lowerChar c.
Proof. destruct c as [[] [] [] [] [] [] [] []]; vm_compute; reflexivity. Qed.

Lemma toLowerCase_idempotent (s : string) :
  toLowerCase (toLowerCase s) = toLowerCase s.
Proof.
  induction s as [|c s IH]; simpl; [reflexivity|].
  rewrite lowerChar_idempotent, IH. reflexivity.
Qed.

Lemma startsWith_iff (p s : string) :
  startsWith p s = true <-> exists post, s = p ++ post.
Proof.
  revert s. induction p as [|a p IH]; intros s; simpl.
  - split; [intros _; exists s; reflexivity|reflexivity].
  - destruct s as [|b s].
    + split; [discriminate|intros (post & E); discriminate].
    + rewrite andb_true_iff, IH. split.
      * intros (Eab & post & ->). apply Ascii.eqb_eq in Eab. subst.
        exists post. reflexivity.
      * intros (post & E). injection E as -> ->.
        split; [apply Ascii.eqb_refl|exists post; reflexivity].
Qed.

Lemma includes_iff (s p : string) :
  includes s p = true <-> exists pre post, s = pre ++ p ++ post.
Proof.
  induction s as [|c s IH].
  - cbn [includes]. rewrite orb_false_r, startsWith_iff. split.
    + intros (post & E). exists "", post. exact E.
    + intros (pre & post & E). destruct pre; [exists post; exact E|discriminate].
  - cbn [includes]. rewrite orb_true_iff, startsWith_iff, IH. split.
    + intros [(post & E)|(pre & post & E)].
      * exists "", post. exact E.
      * exists (String c pre), post. simpl. rewrite E. reflexivity.
    + intros (pre & post & E). destruct pre as [|a pre].
      * left. exists post. exact E.
      * right. injection E as -> E. exists pre, post. exact E.
Qed.

End StringFacts.

(* ================================================================== *)
(** * Facts about the matcher *)

Module RegexFacts.
Import JsString Regex StringFacts.

(** The greedy star takes a whole run when the rest of the pattern accepts
    what follows. *)
Lemma star_run {R : Type} (p : ascii -> bool) (run t : string)
      (prev : option ascii) (cs : caps) (k : cont) (x : R) :
  allb p run = true ->
  clear p t ->
  k (lastOf prev run) t cs = Some x ->
  star p prev (run ++ t) cs k = Some x.
Proof.
  revert prev. induction run as [|c run IH]; intros prev Hall Hclear Hk.
  - simpl in *. destruct t as [|c t]; [exact Hk|].
    simpl in Hclear. cbn [star]. rewrite Hclear. exact Hk.
  - simpl in Hall. apply andb_true_iff in Hall. destruct Hall as [Hc Hall].
    cbn [append star]. rewrite Hc.
    rewrite (IH (Some c) Hall Hclear Hk). reflexivity.
Qed.

Lemma firstn_append (a b : string) : firstn (String.length a) (a ++ b) = a.
Proof. induction a as [|c a IH]; simpl; [destruct b|rewrite IH]; reflexivity. Qed.

Lemma consumed_append (a b : string) : consumed (a ++ b) b = a.
Proof.
  unfold consumed. rewrite length_append.
  replace (String.length a + String.length b - String.length b)%nat
    with (String.length a) by lia.
  apply firstn_append.
Qed.

Lemma searchFrom_here (r : regex) (prev : option ascii) (s : string) (cs : caps) :
  matchHere r prev s = Some cs -> searchFrom r prev s = Some cs.
Proof. intros H. destruct s; simpl; rewrite H; reflexivity. Qed.

Lemma takeWhile_all (p : ascii -> bool) (s : string) :
  allb p s = true -> takeWhile p s = s /\ dropWhile p s = "".
Proof.
  induction s as [|c s IH]; simpl; [auto|].
  intros H. apply andb_true_iff in H. destruct H as [Hc Hs].
  rewrite Hc. destruct (IH Hs) as [-> ->]. auto.
Qed.

(** A pattern that begins with one or more digits matches nowhere in a
    text without digits. *)
Lemma no_digit_no_match (g : nat) (tail : regex) (s : string) (prev : option ascii) :
  allb (fun c => negb (isDigit c)) s = true ->
  searchFrom (Grp 0 (Cat (Grp g (Plus isDigit)) tail)) prev s = None.
Proof.
  revert prev. induction s as [|c s IH]; intros prev H; [reflexivity|].
  simpl in H. apply andb_true_iff in H. destruct H as [Hc Hs].
  apply negb_true_iff in Hc.
  cbn [searchFrom]. unfold matchHere. cbn [Regex.run]. rewrite Hc.
  apply IH. exact Hs.
Qed.

(** The search passes over a prefix at no position of which the pattern
    matches. *)
Lemma searchFrom_skip (r : regex) (prev : option ascii) (pre s : string) :
  (forall x y prev', pre = x ++ y -> y <> "" -> matchHere r prev' (y ++ s) = None) ->
  searchFrom r prev (pre ++ s) = searchFrom r (lastOf prev pre) s.
Proof.
  revert prev. induction pre as [|c pre IH]; intros prev H; [reflexivity|].
  cbn [append searchFrom lastOf].
  pose proof (H "" (String c pre) prev eq_refl ltac:(discriminate)) as E0.
  cbn [append] in E0. rewrite E0.
  apply IH. intros x y prev' E Hy. apply (H (String c x) y prev'); [|exact Hy].
  rewrite E. reflexivity.
Qed.

(** A pattern that needs a digit first is found after a prefix without
    digits, if at all. *)
Lemma skip_to_digits (r : regex) (prev : option ascii) (pre s : string) :
  (forall prev' c t, isDigit c = false -> matchHere r prev' (String c t) = None) ->
  allb (fun c => negb (isDigit c)) pre = true ->
  searchFrom r prev (pre ++ s) = searchFrom r (lastOf prev pre) s.
Proof.
  intros Hr Hpre. apply searchFrom_skip. intros x y prev' E Hy.
  destruct y as [|c y]; [congruence|].
  rewrite E, allb_append in Hpre. apply andb_true_iff in Hpre.
  destruct Hpre as [_ Hy']. cbn [allb] in Hy'. apply andb_true_iff in Hy'.
  destruct Hy' as [Hc _]. apply negb_true_iff in Hc.
  cbn [append]. apply Hr. exact Hc.
Qed.

(** What the greedy star hands over to the rest of the pattern: the input
    after some run of characters of the class.  If the rest fails after
    every such run, the star fails. *)
Lemma star_fails {R : Type} (p : ascii -> bool) (prev : option ascii) (s : string)
      (cs : caps) (k : @cont R) :
  (forall a b, s = a ++ b -> allb p a = true -> k (lastOf prev a) b cs = None) ->
  star p prev s cs k = None.
Proof.
  revert prev. induction s as [|c s IH]; intros prev H.
  - cbn [star]. apply (H "" ""); reflexivity.
  - cbn [star]. destruct (p c) eqn:Ec.
    + rewrite IH.
      * apply (H "" (String c s)); reflexivity.
      * intros a b E Ha. apply (H (String c a) b).
        -- rewrite E. reflexivity.
        -- cbn [allb]. rewrite Ec, Ha. reflexivity.
    + apply (H "" (String c s)); reflexivity.
Qed.

(** The greedy star hands over at the end of the run when the rest of the
    pattern fails after every shorter run. *)
Lemma star_last_resort {R : Type} (p : ascii -> bool) (prev : option ascii)
      (s : string) (cs : caps) (k : @cont R) :
  (forall a c t, s = a ++ String c t -> allb p a = true -> p c = true ->
                 k (lastOf prev a) (String c t) cs = None) ->
  star p prev s cs k = k (lastOf prev (takeWhile p s)) (dropWhile p s) cs.
Proof.
  revert prev. induction s as [|c s IH]; intros prev H; [reflexivity|].
  cbn [star takeWhile dropWhile]. destruct (p c) eqn:Ec; [|reflexivity].
  cbn [lastOf]. rewrite IH.
  - destruct (k (lastOf (Some c) (takeWhile p s)) (dropWhile p s) cs) eqn:E;
      [reflexivity|].
    apply (H "" c s); [reflexivity|reflexivity|exact Ec].
  - intros a c' t E Ha Hc'. apply (H (String c a) c' t).
    + rewrite E. reflexivity.
    + cbn [allb]. rewrite Ec, Ha. reflexivity.
    + exact Hc'.
Qed.

End RegexFacts.

(* ================================================================== *)
(** * Facts about the rounding *)

Module Binary64Facts.
Import Binary64.

Lemma rhe_floor (a b : Z) : a / b <= roundHalfEven a b.
Proof.
  unfold roundHalfEven. destruct (2 * (a mod b) ?= b); [destruct (Z.even _)|..]; lia.
Qed.

Lemma rhe_le (a b N : Z) : 0 < b -> a <= N * b -> roundHalfEven a b <= N.
Proof.
  intros Hb H. unfold roundHalfEven.
  pose proof (Z.div_mod a b ltac:(lia)) as E.
  pose proof (Z.mod_pos_bound a b Hb) as Hr.
  destruct (Z.compare_spec (2 * (a mod b)) b) as [C|C|C];
    [destruct (Z.even (a / b))|..]; nia.
Qed.

Lemma rhe_gt (a b N : Z) : 0 < b -> 2 * N * b + b < 2 * a -> N + 1 <= roundHalfEven a b.
Proof.
  intros Hb H. unfold roundHalfEven.
  pose proof (Z.div_mod a b ltac:(lia)) as E.
  pose proof (Z.mod_pos_bound a b Hb) as Hr.
  destruct (Z.compare_spec (2 * (a mod b)) b) as [C|C|C];
    [destruct (Z.even (a / b))|..]; nia.
Qed.

Lemma rhe_exact (b N : Z) : 0 < b -> roundHalfEven (N * b) b = N.
Proof.
  intros Hb. unfold roundHalfEven.
  rewrite Z.mod_mul, Z.div_mul by lia.
  destruct (Z.compare_spec (2 * 0) b); [lia|reflexivity|lia].
Qed.

Lemma pow2_pos (s : Z) : 0 <= s -> 0 < 2 ^ s.
Proof. intros H. apply Z.pow_pos_nonneg; lia. Qed.

Lemma pow2_ge1 (s : Z) : 0 <= s -> 1 <= 2 ^ s.
Proof. intros H. pose proof (pow2_pos s H). lia. Qed.

Lemma pow2_split (a b : Z) : 0 <= a -> 0 <= b -> 2 ^ (a + b) = 2 ^ a * 2 ^ b.
Proof. intros. apply Z.pow_add_r; assumption. Qed.

Lemma log2_bounds (n : Z) :
  0 < n -> 0 <= Z.log2 n /\ 2 ^ Z.log2 n <= n < 2 * 2 ^ Z.log2 n.
Proof.
  intros Hn. pose proof (Z.log2_nonneg n) as H0.
  destruct (Z.log2_spec n Hn) as [L U]. rewrite <- Z.add_1_r in U.
  rewrite pow2_split in U by lia. change (2 ^ 1) with 2 in U. lia.
Qed.

Lemma shift_spec (n d : Z) :
  0 < n -> 0 < d -> n < 2 ^ 53 * d ->
  0 <= shift n d <= 1074 /\
  n * 2 ^ shift n d < 2 ^ 53 * d /\
  (shift n d = 1074 \/ 2 ^ 52 * d <= n * 2 ^ shift n d).
Proof.
  intros Hn Hd Hlt. unfold shift.
  set (t := 53 + Z.log2 d - Z.log2 n).
  destruct (log2_bounds n Hn) as (Nn & Ln & Un).
  destruct (log2_bounds d Hd) as (Nd & Ld & Ud).
  set (ln := Z.log2 n) in *. set (ld := Z.log2 d) in *.
  pose proof (pow2_pos ln Nn) as Pn. pose proof (pow2_pos ld Nd) as Pd.
  assert (P53 : 2 ^ 53 = 2 * 2 ^ 52) by reflexivity.
  assert (P52 : 0 < 2 ^ 52) by reflexivity.
  assert (Ht : 0 <= t).
  { destruct (Z.le_gt_cases 0 t) as [H|H]; [exact H|exfalso].
    assert (E : 2 ^ ln = 2 ^ (ln - 54 - ld) * (2 ^ 53 * (2 * 2 ^ ld))).
    { change 2 with (2 ^ 1) at 4. rewrite <- !pow2_split by lia. f_equal. lia. }
    pose proof (pow2_ge1 (ln - 54 - ld) ltac:(lia)). nia. }
  (* n * 2^(t+1) >= 2^53 * d *)
  assert (Hup : 2 ^ 53 * d <= n * (2 * 2 ^ t)).
  { assert (E : 2 ^ ln * (2 * 2 ^ t) = 2 ^ 53 * (2 * 2 ^ ld)).
    { change 2 with (2 ^ 1) at 2 5. rewrite <- !pow2_split by lia. f_equal. lia. }
    pose proof (pow2_pos t Ht). nia. }
  destruct (Z.ltb_spec (n * 2 ^ t) (2 ^ 53 * d)) as [C|C].
  - destruct (Z.min_spec 1074 t) as [[Hc ->]|[Hc ->]].
    + split; [lia|]. split; [|left; reflexivity].
      assert (E : 2 ^ t = 2 ^ 1074 * 2 ^ (t - 1074))
        by (rewrite <- pow2_split by lia; f_equal; lia).
      pose proof (pow2_ge1 (t - 1074) ltac:(lia)).
      pose proof (pow2_pos 1074 ltac:(lia)). nia.
    + split; [lia|]. split; [exact C|right]. lia.
  - assert (Ht1 : 1 <= t).
    { destruct (Z.eq_dec t 0) as [E|E]; [|lia]. rewrite E in C.
      change (2 ^ 0) with 1 in C. lia. }
    assert (Et : 2 ^ t = 2 * 2 ^ (t - 1)).
    { change 2 with (2 ^ 1) at 2. rewrite <- pow2_split by lia. f_equal. lia. }
    assert (Hlow : n * 2 ^ (t - 1) < 2 ^ 53 * d).
    { assert (E : (2 * 2 ^ ln) * 2 ^ (t - 1) = 2 ^ 53 * 2 ^ ld).
      { change 2 with (2 ^ 1) at 1. rewrite <- !pow2_split by lia. f_equal. lia. }
      pose proof (pow2_pos (t - 1) ltac:(lia)). nia. }
    destruct (Z.min_spec 1074 (t - 1)) as [[Hc ->]|[Hc ->]].
    + split; [lia|]. split; [|left; reflexivity].
      assert (E : 2 ^ (t - 1) = 2 ^ 1074 * 2 ^ (t - 1 - 1074))
        by (rewrite <- pow2_split by lia; f_equal; lia).
      pose proof (pow2_ge1 (t - 1 - 1074) ltac:(lia)).
      pose proof (pow2_pos 1074 ltac:(lia)). nia.
    + split; [lia|]. split; [exact Hlow|right]. lia.
Qed.

Lemma roundPositive_small (n d : Z) :
  0 < n -> 0 < d -> n < 2 ^ 53 * d ->
  (roundPositive n d
   == roundHalfEven (n * 2 ^ shift n d) d # Z.to_pos (2 ^ shift n d))%Q.
Proof.
  intros Hn Hd Hlt. unfold roundPositive.
  destruct (Z.leb_spec (2 ^ 53 * d) n); [lia|]. apply Qred_correct.
Qed.

Lemma roundPositive_large (n d : Z) :
  0 < d -> 2 ^ 53 * d <= n -> roundPositive n d = n # Z.to_pos d.
Proof.
  intros Hd H. unfold roundPositive.
  destruct (Z.leb_spec (2 ^ 53 * d) n); [reflexivity|lia].
Qed.

Lemma Qle_small (m s k : Z) :
  0 <= s -> m <= k * 2 ^ s -> (m # Z.to_pos (2 ^ s) <= inject_Z k)%Q.
Proof.
  intros Hs H. unfold Qle. cbn [Qnum Qden inject_Z].
  rewrite Z2Pos.id by (apply pow2_pos; exact Hs). lia.
Qed.

Lemma Qlt_small (m s k : Z) :
  0 <= s -> k * 2 ^ s < m -> (inject_Z k < m # Z.to_pos (2 ^ s))%Q.
Proof.
  intros Hs H. unfold Qlt. cbn [Qnum Qden inject_Z].
  rewrite Z2Pos.id by (apply pow2_pos; exact Hs). lia.
Qed.

Lemma roundPositive_le (n d k : Z) :
  0 < n -> 0 < d -> n <= k * d -> (roundPositive n d <= inject_Z k)%Q.
Proof.
  intros Hn Hd H. destruct (Z.le_gt_cases (2 ^ 53 * d) n) as [C|C].
  - rewrite (roundPositive_large n d Hd C). unfold Qle. cbn [Qnum Qden inject_Z].
    rewrite Z2Pos.id by exact Hd. lia.
  - rewrite (roundPositive_small n d Hn Hd C).
    destruct (shift_spec n d Hn Hd C) as ((Hs & _) & _).
    apply Qle_small; [exact Hs|]. apply rhe_le; [exact Hd|].
    pose proof (pow2_pos _ Hs). nia.
Qed.

Lemma roundPositive_gt (n d M t u k : Z) :
  0 < n -> 0 < d -> 0 < M < 2 ^ 53 -> 0 <= t -> 0 < u -> 1 <= k ->
  n * (2 ^ t * u) = M * d -> k * u * 2 ^ t < M ->
  (inject_Z k < roundPositive n d)%Q.
Proof.
  intros Hn Hd HM Ht Hu Hk E Hgap.
  pose proof (pow2_pos t Ht) as Pt. set (B := 2 ^ t) in *.
  assert (Hx : k * d < n).
  { apply (Z.mul_lt_mono_pos_r (B * u)); [nia|].
    replace (n * (B * u)) with (M * d) by lia. nia. }
  destruct (Z.le_gt_cases (2 ^ 53 * d) n) as [C|C].
  - rewrite (roundPositive_large n d Hd C). unfold Qlt. cbn [Qnum Qden inject_Z].
    rewrite Z2Pos.id by exact Hd. lia.
  - rewrite (roundPositive_small n d Hn Hd C).
    destruct (shift_spec n d Hn Hd C) as ((Hs & Hs') & Hlt & Hmax).
    pose proof (pow2_pos _ Hs) as Ps. set (A := 2 ^ shift n d) in *.
    assert (Hnormal : 2 ^ 52 * d <= n * A).
    { destruct Hmax as [Ecap|H]; [|exact H]. exfalso.
      assert (2 ^ 53 <= A) by (unfold A; rewrite Ecap; vm_compute; discriminate).
      nia. }
    apply Qlt_small; [exact Hs|].
    assert (H1 : B * u < 2 * A).
    { assert (2 ^ 52 * (B * u) <= A * M).
      { apply (Z.mul_le_mono_pos_r _ _ d); [exact Hd|].
        replace (A * M * d) with (A * (n * (B * u))) by (rewrite E; ring).
        nia. }
      change (2 ^ 53) with (2 * 2 ^ 52) in HM. nia. }
    assert (Hgoal : 2 * (k * A) * d + d < 2 * (n * A)).
    { apply (Z.mul_lt_mono_pos_r (B * u)); [nia|].
      replace (2 * (n * A) * (B * u)) with (2 * A * (M * d)) by (rewrite <- E; ring).
      assert (2 * A * (M - k * u * B) > B * u) by nia. nia. }
    pose proof (rhe_gt (n * A) d (k * A) Hd Hgoal). lia.
Qed.

Lemma roundPositive_normal (n d : Z) :
  0 < n -> 0 < d -> d <= n * 2 ^ 1022 -> (0 < roundPositive n d)%Q.
Proof.
  intros Hn Hd H. destruct (Z.le_gt_cases (2 ^ 53 * d) n) as [C|C].
  - rewrite (roundPositive_large n d Hd C). unfold Qlt. cbn [Qnum Qden]. lia.
  - rewrite (roundPositive_small n d Hn Hd C).
    destruct (shift_spec n d Hn Hd C) as ((Hs & Hs') & Hlt & Hmax).
    pose proof (pow2_pos _ Hs) as Ps.
    assert (Hnormal : 2 ^ 52 * d <= n * 2 ^ shift n d).
    { destruct Hmax as [Ecap|Hm]; [|exact Hm]. rewrite Ecap.
      change (2 ^ 1074) with (2 ^ 1022 * 2 ^ 52).
      assert (0 < 2 ^ 52) by reflexivity. nia. }
    change 0%Q with (inject_Z 0). apply Qlt_small; [exact Hs|].
    pose proof (rhe_floor (n * 2 ^ shift n d) d) as Hf.
    assert (2 ^ 52 <= n * 2 ^ shift n d / d)
      by (apply Z.div_le_lower_bound; lia).
    assert (0 < 2 ^ 52) by reflexivity. lia.
Qed.

Lemma roundPositive_nonneg (n d : Z) : 0 < n -> 0 < d -> (0 <= roundPositive n d)%Q.
Proof.
  intros Hn Hd. destruct (Z.le_gt_cases (2 ^ 53 * d) n) as [C|C].
  - rewrite (roundPositive_large n d Hd C). unfold Qle. cbn [Qnum Qden]. lia.
  - rewrite (roundPositive_small n d Hn Hd C).
    destruct (shift_spec n d Hn Hd C) as ((Hs & _) & _).
    pose proof (pow2_pos _ Hs) as Ps.
    unfold Qle. cbn [Qnum Qden]. rewrite Z.mul_1_r. cbn [Z.mul].
    pose proof (rhe_floor (n * 2 ^ shift n d) d) as Hf.
    assert (0 <= n * 2 ^ shift n d / d) by (apply Z.div_pos; nia). lia.
Qed.

(** What rounding gives is 0 (underflow), at least 2^53, or a binary64. *)
Lemma roundPositive_shape (n d : Z) :
  0 < n -> 0 < d ->
  (roundPositive n d == 0)%Q \/ (inject_Z (2 ^ 53) <= roundPositive n d)%Q \/
  finite (roundPositive n d).
Proof.
  intros Hn Hd. destruct (Z.le_gt_cases (2 ^ 53 * d) n) as [C|C].
  - right. left. rewrite (roundPositive_large n d Hd C).
    unfold Qle. cbn [Qnum Qden inject_Z]. rewrite Z2Pos.id by exact Hd. lia.
  - pose proof (roundPositive_small n d Hn Hd C) as E.
    destruct (shift_spec n d Hn Hd C) as ((Hs & Hs') & Hlt & _).
    pose proof (pow2_pos _ Hs) as Ps.
    set (s := shift n d) in *. set (m := roundHalfEven (n * 2 ^ s) d) in *.
    assert (Hm : 0 <= m <= 2 ^ 53).
    { split.
      - pose proof (rhe_floor (n * 2 ^ s) d).
        assert (0 <= n * 2 ^ s / d) by (apply Z.div_pos; nia). unfold m. lia.
      - apply rhe_le; [exact Hd|lia]. }
    destruct (Z.eq_dec m 0) as [E0|N0].
    { left. rewrite E, E0. reflexivity. }
    destruct (Z.eq_dec m (2 ^ 53)) as [E53|N53].
    { destruct (Z.eq_dec s 0) as [Es|Ns].
      - right. left. rewrite E, E53, Es. vm_compute. discriminate.
      - right. right. exists (2 ^ 52), (s - 1). split; [vm_compute; auto|].
        split; [lia|]. rewrite E, E53. unfold Qeq. cbn [Qnum Qden].
        rewrite !Z2Pos.id by (apply pow2_pos; lia).
        replace s with (s - 1 + 1) at 2 by lia. rewrite pow2_split by lia.
        change (2 ^ 1) with 2. change (2 ^ 53) with (2 ^ 52 * 2). ring. }
    right. right. exists m, s. split; [lia|]. split; [exact Hs|exact E].
Qed.

(** From the numerator and the denominator to the rational. *)
Lemma round_positive_num (q : Q) :
  (0 < q)%Q -> 0 < Qnum q /\ Binary64.round q = roundPositive (Qnum q) (Zpos (Qden q)).
Proof.
  intros H. unfold Qlt in H. cbn [Qnum Qden] in H. rewrite Z.mul_1_r in H.
  cbn [Z.mul] in H. split; [exact H|]. unfold Binary64.round.
  destruct (Qnum q); [lia|reflexivity|lia].
Qed.

Lemma round_zero (q : Q) : (q == 0)%Q -> Binary64.round q = 0%Q.
Proof.
  intros H. unfold Qeq in H. cbn [Qnum Qden] in H. rewrite Z.mul_1_r in H.
  cbn [Z.mul] in H. unfold Binary64.round. rewrite H. reflexivity.
Qed.

Lemma round_nonneg (q : Q) : (0 <= q)%Q -> (0 <= Binary64.round q)%Q.
Proof.
  intros H. destruct (Qlt_le_dec 0 q) as [Hp|Hz].
  - destruct (round_positive_num q Hp) as [Hn ->].
    apply roundPositive_nonneg; [exact Hn|reflexivity].
  - rewrite round_zero; [apply Qle_refl|]. apply Qle_antisym; assumption.
Qed.

Lemma Qred_integer (n : Z) : Qred (inject_Z n) = inject_Z n.
Proof.
  unfold Qred, inject_Z.
  pose proof (Z.ggcd_gcd n 1) as Hg.
  pose proof (Z.ggcd_correct_divisors n 1) as Hd.
  destruct (Z.ggcd n 1) as (g, (a, b)). cbn [fst snd] in *.
  rewrite Z.gcd_1_r in Hg. subst g. destruct Hd as [Ea Eb].
  rewrite Z.mul_1_l in Ea, Eb. subst a b. reflexivity.
Qed.

Lemma round_integer (n : Z) : 0 <= n -> Binary64.round (inject_Z n) = inject_Z n.
Proof.
  intros Hn. destruct (Z.eq_dec n 0) as [->|Hz]; [reflexivity|].
  assert (Hp : (0 < inject_Z n)%Q) by (unfold Qlt; cbn; lia).
  destruct (round_positive_num _ Hp) as [_ ->]. cbn [Qnum Qden inject_Z].
  destruct (Z.le_gt_cases (2 ^ 53 * 1) n) as [C|C].
  - rewrite roundPositive_large by lia. reflexivity.
  - unfold roundPositive. destruct (Z.leb_spec (2 ^ 53 * 1) n); [lia|].
    destruct (shift_spec n 1 ltac:(lia) ltac:(lia) C) as ((Hs & _) & _).
    pose proof (pow2_pos _ Hs) as Ps.
    replace (n * 2 ^ shift n 1) with (n * 2 ^ shift n 1 * 1) by ring.
    rewrite rhe_exact by lia.
    transitivity (Qred (inject_Z n)).
    + apply Qred_complete. unfold Qeq. cbn [Qnum Qden inject_Z].
      rewrite Z2Pos.id by exact Ps. ring.
    + apply Qred_integer.
Qed.

Lemma round_le_integer (q : Q) (k : Z) :
  (0 < q)%Q -> (q <= inject_Z k)%Q -> (Binary64.round q <= inject_Z k)%Q.
Proof.
  intros Hp H. destruct (round_positive_num q Hp) as [Hn ->].
  apply roundPositive_le; [exact Hn|reflexivity|].
  unfold Qle in H. cbn [Qnum Qden inject_Z] in H. lia.
Qed.

Lemma round_normal (q : Q) :
  (0 < q)%Q -> (1 <= q * inject_Z (2 ^ 1022))%Q -> (0 < Binary64.round q)%Q.
Proof.
  intros Hp H. destruct (round_positive_num q Hp) as [Hn ->].
  apply roundPositive_normal; [exact Hn|reflexivity|].
  unfold Qle in H. cbn [Qmult Qnum Qden inject_Z] in H.
  rewrite Pos.mul_1_r in H. lia.
Qed.

Lemma round_gt_integer (q : Q) (M t u k : Z) :
  (0 < q)%Q -> 0 < M < 2 ^ 53 -> 0 <= t -> 0 < u -> 1 <= k ->
  (q == (M # Z.to_pos (2 ^ t)) / inject_Z u)%Q ->
  (inject_Z (k * u) < M # Z.to_pos (2 ^ t))%Q ->
  (inject_Z k < Binary64.round q)%Q.
Proof.
  intros Hp HM Ht Hu Hk E Hgap.
  destruct (round_positive_num q Hp) as [Hn ->].
  pose proof (pow2_pos t Ht) as Pt.
  apply (roundPositive_gt _ _ M t u k); try assumption; try reflexivity.
  - destruct u as [|pu|pu]; try lia.
    unfold Qeq, Qdiv, Qmult, Qinv in E. cbn [Qnum Qden inject_Z] in E.
    rewrite Pos2Z.inj_mul, Z2Pos.id in E by exact Pt. lia.
  - unfold Qlt in Hgap. cbn [Qnum Qden inject_Z] in Hgap.
    rewrite Z2Pos.id in Hgap by exact Pt. lia.
Qed.

Lemma round_shape (q : Q) :
  (0 <= q)%Q ->
  (Binary64.round q == 0)%Q \/ (inject_Z (2 ^ 53) <= Binary64.round q)%Q \/
  finite (Binary64.round q).
Proof.
  intros H. destruct (Qlt_le_dec 0 q) as [Hp|Hz].
  - destruct (round_positive_num q Hp) as [Hn ->].
    apply roundPositive_shape; [exact Hn|reflexivity].
  - left. rewrite round_zero; [reflexivity|]. apply Qle_antisym; assumption.
Qed.

Lemma finite_positive (r : Q) : finite r -> (0 < r)%Q.
Proof.
  intros (M & t & HM & Ht & E). rewrite E. unfold Qlt. cbn [Qnum Qden]. lia.
Qed.

(** The ceiling of the rounded quotient of a binary64 by a whole number is
    the ceiling of the quotient itself, unless the quotient underflows. *)
Lemma ceiling_of_quotient (r : Q) (u : Z) :
  finite r -> 0 < u -> (inject_Z u <= r * inject_Z (2 ^ 1022))%Q ->
  let c := Qceiling (div r (inject_Z u)) in
  (inject_Z ((c - 1) * u) < r)%Q /\ (r <= inject_Z (c * u))%Q.
Proof.
  intros Hr Hu Hnormal c.
  pose proof (finite_positive r Hr) as Hr0.
  assert (HU : (0 < inject_Z u)%Q) by (unfold Qlt; cbn; lia).
  assert (HU' : ~ (inject_Z u == 0)%Q) by (intros E; rewrite E in HU; discriminate HU).
  set (x := (r / inject_Z u)%Q).
  assert (Hx : (0 < x)%Q) by (apply Qlt_shift_div_l; [exact HU|rewrite Qmult_0_l; exact Hr0]).
  assert (Hback : forall k, (x <= inject_Z k)%Q <-> (r <= inject_Z (k * u))%Q).
  { intros k. rewrite inject_Z_mult. split; intros H.
    - apply (Qmult_le_r _ _ _ HU) in H. unfold x in H.
      rewrite Qmult_comm, Qmult_div_r in H by exact HU'. exact H.
    - apply Qle_shift_div_r; [exact HU|exact H]. }
  pose proof (Qle_ceiling (div r (inject_Z u))) as Hle.
  pose proof (Qceiling_lt (div r (inject_Z u))) as Hlt.
  fold c in Hle, Hlt. unfold div in Hle, Hlt. fold x in Hle, Hlt.
  split.
  - apply Qnot_le_lt. intros H. apply Hback in H.
    apply (round_le_integer x (c - 1) Hx) in H.
    apply (Qlt_not_le _ _ Hlt). exact H.
  - apply Qnot_lt_le. intros H.
    assert (Hv : (0 < Binary64.round x)%Q).
    { apply round_normal; [exact Hx|].
      setoid_replace (x * inject_Z (2 ^ 1022))%Q
        with ((r * inject_Z (2 ^ 1022)) / inject_Z u)%Q
        by (unfold x; field; exact HU').
      apply Qle_shift_div_l; [exact HU|]. rewrite Qmult_1_l. exact Hnormal. }
    assert (Hc : 1 <= c).
    { assert (L : (inject_Z 0 < inject_Z c)%Q)
        by (eapply Qlt_le_trans; [exact Hv|exact Hle]).
      rewrite <- Zlt_Qlt in L. lia. }
    destruct Hr as (M & t & HM & Ht & E).
    apply (Qlt_not_le _ _ (round_gt_integer x M t u c Hx HM Ht Hu Hc
                             ltac:(unfold x; rewrite E; reflexivity)
                             ltac:(rewrite <- E; exact H))).
    exact Hle.
Qed.
(** The rounding at numbers whose binary64 is well known: 0.1, 1/3,
    1.1 * 1.1, 4.03 * 1000 (which is 4030.0000000000005) and the quotient
    of that number by 130 (which is 31.000000000000004); a number below
    half the least subnormal gives 0. *)
Example rounding_of_known_numbers :
  Binary64.round (1 # 10) = 3602879701896397 # 36028797018963968 /\
  Binary64.round (1 # 3) = 6004799503160661 # 18014398509481984 /\
  Binary64.mul (Binary64.round (11 # 10)) (Binary64.round (11 # 10))
  = 5449355549118301 # 4503599627370496 /\
  Binary64.mul (Binary64.round (403 # 100)) 1000
  = 8862063719874561 # 2199023255552 /\
  Binary64.div (8862063719874561 # 2199023255552) 130
  = 8725724278030337 # 281474976710656 /\
  Binary64.round (Qmake 1 (10 ^ 400)) = 0%Q.
Proof. vm_compute. repeat split. Qed.

End Binary64Facts.

(* ================================================================== *)
(** * The selection by weight *)

Module LlmFacts.
Import JsString Regex Effect Llm LlmSpec.

Lemma map_weighed_split (products : list Product) (m1 m2 : list (Product * Z)) x :
  map weighed products = (m1 ++ x :: m2)%list ->
  exists l1 p l2,
    products = (l1 ++ p :: l2)%list /\ m1 = map weighed l1 /\ x = weighed p /\
    m2 = map weighed l2.
Proof.
  intros E. apply map_eq_app in E. destruct E as (l1 & r & -> & E1 & E2).
  apply map_eq_cons in E2. destruct E2 as (p & l2 & -> & Ep & E2).
  exists l1, p, l2. auto.
Qed.

(** What [selectByWeight] returns, in terms of the input order. *)
Lemma selectByWeight_spec (products : list Product) (R : Q) :
  products <> [] ->
  exists l1 p l2,
    products = (l1 ++ p :: l2)%list /\
    selectByWeight products R = Ret (Some p) /\
    ((exists q, In q products /\ sufficient R q) ->
       sufficient R p /\
       (forall q, In q l1 -> sufficient R q -> productWeight p < productWeight q) /\
       (forall q, In q l2 -> sufficient R q -> productWeight p <= productWeight q)) /\
    ((forall q, In q products -> ~ sufficient R q) ->
       (forall q, In q l1 -> productWeight q < productWeight p) /\
       (forall q, In q l2 -> productWeight q <= productWeight p)).
Proof.
  intros Hne. unfold selectByWeight.
  fold weighed.
  set (ok := fun p : Product * Z => Qle_bool R (inject_Z (snd p))).
  destruct (filter ok (map weighed products)) as [|v vs] eqn:Ev.
  - (* nothing is sufficient: the largest *)
    simpl Nat.ltb. cbv iota.
    assert (Hnone : forall q, In q products -> ~ sufficient R q).
    { intros q Hq Hs. apply (proj1 (filter_nil_iff _ _)) with (x := weighed q) in Ev.
      - unfold ok, weighed in Ev. simpl in Ev.
        apply Qle_bool_iff in Hs. unfold sufficient in *. congruence.
      - apply in_map. assumption. }
    destruct (sort_head (fun a b : Product * Z => snd b - snd a)
                        (fun a => - snd a)) with (l := map weighed products)
      as (m1 & x & m2 & rest & El & Es & H1 & H2).
    { intros a b. lia. }
    { destruct products; [congruence|discriminate]. }
    destruct (map_weighed_split _ _ _ _ El) as (l1 & p & l2 & -> & -> & -> & ->).
    exists l1, p, l2. rewrite Es. simpl. split; [reflexivity|]. split; [reflexivity|].
    split.
    + intros (q & Hq & Hs). exfalso. exact (Hnone q Hq Hs).
    + intros _. split; intros q Hq.
      * specialize (H1 (weighed q) (in_map _ _ _ Hq)). simpl in H1. lia.
      * specialize (H2 (weighed q) (in_map _ _ _ Hq)). simpl in H2. lia.
  - (* some are sufficient: the smallest of them *)
    simpl Nat.ltb. cbv iota.
    destruct (sort_head (fun a b : Product * Z => snd a - snd b)
                        (fun a => snd a)) with (l := v :: vs)
      as (m1 & x & m2 & rest & El & Es & H1 & H2).
    { intros a b. lia. }
    { discriminate. }
    rewrite El in Ev.
    destruct (filter_split _ _ _ _ _ Ev) as (n1 & n2 & En & F1 & F2 & Fx).
    destruct (map_weighed_split _ _ _ _ En) as (l1 & p & l2 & -> & -> & -> & ->).
    exists l1, p, l2. rewrite Es. simpl. split; [reflexivity|]. split; [reflexivity|].
    assert (Hp : sufficient R p).
    { unfold ok, weighed in Fx. simpl in Fx. apply Qle_bool_iff in Fx. exact Fx. }
    split.
    + intros _. split; [exact Hp|]. split; intros q Hq Hs.
      * assert (Hin : In (weighed q) m1).
        { rewrite <- F1. apply filter_In. split; [apply in_map; assumption|].
          unfold ok, weighed. simpl. apply Qle_bool_iff. exact Hs. }
        specialize (H1 _ Hin). simpl in H1. lia.
      * assert (Hin : In (weighed q) m2).
        { rewrite <- F2. apply filter_In. split; [apply in_map; assumption|].
          unfold ok, weighed. simpl. apply Qle_bool_iff. exact Hs. }
        specialize (H2 _ Hin). simpl in H2. lia.
    + intros Hnone. exfalso. apply (Hnone p); [|exact Hp].
      apply in_or_app. right. left. reflexivity.
Qed.

Lemma selectBestProduct_weighted (products : list Product) (item : string) (R : Q) :
  requestedWeight item = Some R ->
  selectBestProduct products item = tryCatch (selectByWeight products R) (Ret None).
Proof. intros E. unfold selectBestProduct. rewrite E. reflexivity. Qed.

(** C1.  When the shopping-list item states a weight [R > 0] and there is at
    least one candidate, [selectBestProduct] returns a candidate [p] at a
    position [l1 ++ p :: l2] of the input such that: if some candidate
    weighs at least [R], then [p] does, every sufficient candidate before
    [p] is strictly heavier and every sufficient candidate after [p] is at
    least as heavy (the first minimum of the sufficient ones); if none
    does, every candidate before [p] is strictly lighter and every one after
    it is at most as heavy (the first maximum).  The computation is a plain
    value: run against any collaborator it sends no prompt. *)
Theorem select_by_weight_first_minimal_sufficient
        (products : list Product) (item : string) (R : Q) :
  products <> [] ->
  requestedWeight item = Some R ->
  (0 < R)%Q ->
  exists l1 p l2,
    products = (l1 ++ p :: l2)%list /\
    selectBestProduct products item = Ret (Some p) /\
    (forall oracle,
        run oracle (selectBestProduct products item) = (Some (Some p), [])) /\
    ((exists q, In q products /\ sufficient R q) ->
       sufficient R p /\
       (forall q, In q l1 -> sufficient R q -> productWeight p < productWeight q) /\
       (forall q, In q l2 -> sufficient R q -> productWeight p <= productWeight q)) /\
    ((forall q, In q products -> ~ sufficient R q) ->
       (forall q, In q l1 -> productWeight q < productWeight p) /\
       (forall q, In q l2 -> productWeight q <= productWeight p)).
Proof.
  intros Hne HR _.
  destruct (selectByWeight_spec products R Hne) as (l1 & p & l2 & El & Es & Hmin & Hmax).
  exists l1, p, l2.
  assert (Eb : selectBestProduct products item = Ret (Some p)).
  { rewrite (selectBestProduct_weighted _ _ _ HR), Es. reflexivity. }
  repeat split; try assumption.
  - intros oracle. rewrite Eb. reflexivity.
  - apply Hmin; assumption.
  - apply Hmin; assumption.
  - apply Hmin; assumption.
  - apply Hmax; assumption.
  - apply Hmax; assumption.
Qed.

(** C10.  When the item states a weight [R > 0] and every candidate of a
    non-empty list has weight 0, [selectBestProduct] returns the first
    candidate of the input. *)
Theorem select_by_weight_all_zero_picks_first
        (first : Product) (others : list Product) (item : string) (R : Q) :
  requestedWeight item = Some R ->
  (0 < R)%Q ->
  (forall q, In q (first :: others) -> productWeight q = 0) ->
  selectBestProduct (first :: others) item = Ret (Some first).
Proof.
  intros HR Hpos Hzero.
  rewrite (selectBestProduct_weighted _ _ _ HR).
  destruct (selectByWeight_spec (first :: others) R) as (l1 & p & l2 & El & Es & _ & Hmax);
    [discriminate|].
  rewrite Es. simpl.
  assert (Hnone : forall q, In q (first :: others) -> ~ sufficient R q).
  { intros q Hq Hs. unfold sufficient in Hs. rewrite (Hzero q Hq) in Hs.
    apply (Qlt_not_le _ _ Hpos). exact Hs. }
  destruct (Hmax Hnone) as [H1 _].
  destruct l1 as [|a l1].
  - simpl in El. injection El as -> _. reflexivity.
  - exfalso. specialize (H1 a (or_introl eq_refl)).
    rewrite (Hzero a), (Hzero p) in H1; [lia| |]; rewrite El.
    + apply in_or_app. right. left. reflexivity.
    + left. reflexivity.
Qed.

End LlmFacts.

(* ================================================================== *)
(** * The two weight parsers *)

Module WeightFacts.
Import JsString Regex Llm LlmSpec StringFacts RegexFacts Binary64Facts.

Lemma lower_g_shape (u : string) :
  toLowerCase u = "g" -> exists a, u = String a "" /\ lowerChar a = "g"%char.
Proof.
  destruct u as [|a [|b u]]; simpl; try discriminate.
  intros [= E]. exists a. auto.
Qed.

Lemma lower_kg_shape (u : string) :
  toLowerCase u = "kg" ->
  exists a b, u = String a (String b "") /\
              lowerChar a = "k"%char /\ lowerChar b = "g"%char.
Proof.
  destruct u as [|a [|b [|c u]]]; simpl; try discriminate.
  intros [= E1 E2]. exists a, b. auto.
Qed.

Lemma lower_kilo_shape (u : string) :
  toLowerCase u = "kilo" ->
  exists a b c d,
    u = String a (String b (String c (String d ""))) /\
    lowerChar a = "k"%char /\ lowerChar b = "i"%char /\
    lowerChar c = "l"%char /\ lowerChar d = "o"%char.
Proof.
  destruct u as [|a [|b [|c [|d [|e u]]]]]; simpl; try discriminate.
  intros [= E1 E2 E3 E4]. exists a, b, c, d. auto.
Qed.

Lemma letter_not_space (a x : ascii) :
  lowerChar a = x -> isSpace x = false -> isSpace a = false.
Proof. intros <-. destruct a as [[] [] [] [] [] [] [] []]; vm_compute; congruence. Qed.

Lemma letter_not_digit (a x : ascii) :
  lowerChar a = x -> isDigit x = false -> isDigit a = false.
Proof. intros <-. destruct a as [[] [] [] [] [] [] [] []]; vm_compute; congruence. Qed.

Lemma letter_not_point (a x : ascii) :
  lowerChar a = x -> x <> "."%char -> Ascii.eqb "." a = false.
Proof.
  intros <-. destruct a as [[] [] [] [] [] [] [] []]; vm_compute; congruence.
Qed.

Lemma space_not_point (c : ascii) : isSpace c = true -> Ascii.eqb "." c = false.
Proof. destruct c as [[] [] [] [] [] [] [] []]; vm_compute; congruence. Qed.

Lemma clear_after_spaces (p : ascii -> bool) (ws : string) (a : ascii) (rest : string) :
  allb isSpace ws = true -> (forall c, isSpace c = true -> p c = false) ->
  p a = false -> clear p (ws ++ String a rest).
Proof.
  intros Hs Hsp Ha. destruct ws as [|w ws]; simpl; [exact Ha|].
  simpl in Hs. apply andb_true_iff in Hs. apply Hsp. tauto.
Qed.

Lemma cls_clear {R : Type} (p : ascii -> bool) (prev : option ascii) (t : string)
      (cs : caps) (k : @cont R) :
  clear p t -> Regex.run (Cls p) prev t cs k = None.
Proof. destruct t as [|c t]; simpl; [reflexivity|intros ->; reflexivity]. Qed.

Lemma star_clear {R : Type} (p : ascii -> bool) (prev : option ascii) (t : string)
      (cs : caps) (k : @cont R) :
  clear p t -> star p prev t cs k = k prev t cs.
Proof. destruct t as [|c t]; simpl; [reflexivity|intros ->; reflexivity]. Qed.

(** The first character of a unit is no digit, no white space, no point. *)
Lemma unit_head (u : string) :
  toLowerCase u = "g" \/ toLowerCase u = "kg" \/ toLowerCase u = "kilo" ->
  exists a t, u = String a t /\
              isDigit a = false /\ isSpace a = false /\ Ascii.eqb "." a = false.
Proof.
  intros [H|[H|H]].
  - destruct (lower_g_shape u H) as (a & -> & Ha). exists a, "".
    split; [reflexivity|]. split; [|split].
    + apply (letter_not_digit a _ Ha). reflexivity.
    + apply (letter_not_space a _ Ha). reflexivity.
    + apply (letter_not_point a _ Ha). discriminate.
  - destruct (lower_kg_shape u H) as (a & b & -> & Ha & _). exists a, (String b "").
    split; [reflexivity|]. split; [|split].
    + apply (letter_not_digit a _ Ha). reflexivity.
    + apply (letter_not_space a _ Ha). reflexivity.
    + apply (letter_not_point a _ Ha). discriminate.
  - destruct (lower_kilo_shape u H) as (a & b & c & d & -> & Ha & _).
    exists a, (String b (String c (String d ""))).
    split; [reflexivity|]. split; [|split].
    + apply (letter_not_digit a _ Ha). reflexivity.
    + apply (letter_not_space a _ Ha). reflexivity.
    + apply (letter_not_point a _ Ha). discriminate.
Qed.

(** The alternation of the volume pattern on a unit, when the rest of the
    pattern accepts what follows. *)
Lemma volume_unit {R : Type} (u rest : string) (prev : option ascii)
      (cs : caps) (k : @cont R) (x : R) :
  toLowerCase u = "g" \/ toLowerCase u = "kg" ->
  k (lastOf prev u) rest ((2%nat, u) :: cs) = Some x ->
  Regex.run (Grp 2 (Or (lit chri "g") (lit chri "kg"))) prev (u ++ rest) cs k
  = Some x.
Proof.
  intros [H|H] Hk.
  - destruct (lower_g_shape u H) as (a & -> & Ha).
    cbn [Regex.run lit chri append lastOf] in *.
    change (lowerChar "g") with "g"%char. rewrite Ha. cbn [Ascii.eqb Bool.eqb].
    change (String a rest) with (String a "" ++ rest). rewrite consumed_append.
    rewrite Hk. reflexivity.
  - destruct (lower_kg_shape u H) as (a & b & -> & Ha & Hb).
    cbn [Regex.run lit chri append lastOf] in *.
    change (lowerChar "g") with "g"%char. change (lowerChar "k") with "k"%char.
    rewrite Ha, Hb. cbn [Ascii.eqb Bool.eqb].
    change (String a (String b rest)) with (String a (String b "") ++ rest).
    rewrite consumed_append. exact Hk.
Qed.

(** The alternation of the requirement pattern on a unit, when the rest
    of the pattern accepts what follows. *)
Lemma requirement_unit {R : Type} (u rest : string) (prev : option ascii)
      (cs : caps) (k : @cont R) (x : R) :
  toLowerCase u = "g" \/ toLowerCase u = "kg" \/ toLowerCase u = "kilo" ->
  k (lastOf prev u) rest ((2%nat, u) :: cs) = Some x ->
  Regex.run (Grp 2 (Or (lit chri "g")
                   (Or (lit chri "gram")
                   (Or (lit chri "kg") (lit chri "kilo")))))
            prev (u ++ rest) cs k
  = Some x.
Proof.
  intros [H|[H|H]] Hk.
  - destruct (lower_g_shape u H) as (a & -> & Ha).
    cbn [Regex.run lit chri append lastOf] in *.
    change (lowerChar "g") with "g"%char. rewrite Ha. cbn [Ascii.eqb Bool.eqb].
    change (String a rest) with (String a "" ++ rest). rewrite consumed_append.
    rewrite Hk. reflexivity.
  - destruct (lower_kg_shape u H) as (a & b & -> & Ha & Hb).
    cbn [Regex.run lit chri append lastOf] in *.
    change (lowerChar "g") with "g"%char. change (lowerChar "k") with "k"%char.
    rewrite Ha, Hb. cbn [Ascii.eqb Bool.eqb].
    change (String a (String b rest)) with (String a (String b "") ++ rest).
    rewrite consumed_append. rewrite Hk. reflexivity.
  - destruct (lower_kilo_shape u H) as (a & b & c & d & -> & Ha & Hb & Hc & Hd).
    cbn [Regex.run lit chri append lastOf] in *.
    change (lowerChar "g") with "g"%char. change (lowerChar "k") with "k"%char.
    change (lowerChar "i") with "i"%char. change (lowerChar "l") with "l"%char.
    change (lowerChar "o") with "o"%char.
    rewrite Ha, Hb, Hc, Hd. cbn [Ascii.eqb Bool.eqb].
    change (String a (String b (String c (String d rest))))
      with (String a (String b (String c (String d ""))) ++ rest).
    rewrite consumed_append. exact Hk.
Qed.

Lemma either_unit (u : string) :
  toLowerCase u = "g" \/ toLowerCase u = "kg" ->
  toLowerCase u = "g" \/ toLowerCase u = "kg" \/ toLowerCase u = "kilo".
Proof. tauto. Qed.

Section AtThePosition.
(** A whole number, white space and a unit at the position the matcher
    stands at, whatever came before. *)
Variable prev : option ascii.
Variables (ds ws rest : string).
Hypothesis digits : allb isDigit ds = true.
Hypothesis some_digit : ds <> "".
Hypothesis spaces : allb isSpace ws = true.

Lemma volume_here (u : string) :
  toLowerCase u = "g" \/ toLowerCase u = "kg" ->
  matchHere (Grp 0 volumeRe) prev (ds ++ ws ++ u ++ rest)
  = Some [(0%nat, ds ++ ws ++ u); (2%nat, u); (1%nat, ds)].
Proof.
  intros Hu.
  destruct (unit_head u (either_unit u Hu)) as (a & t & Eu & Had & Has & _).
  destruct ds as [|c ds']; [congruence|].
  unfold matchHere, volumeRe. cbn [Regex.run append].
  simpl in digits. apply andb_true_iff in digits. destruct digits as [Hc Hd].
  rewrite Hc.
  assert (Hclear_d : clear isDigit (ws ++ u ++ rest)).
  { rewrite Eu. apply clear_after_spaces; [exact spaces|apply isSpace_not_digit|exact Had]. }
  assert (Hclear_s : clear isSpace (u ++ rest)) by (rewrite Eu; exact Has).
  apply star_run; [exact Hd|exact Hclear_d|].
  apply star_run; [exact spaces|exact Hclear_s|].
  apply (volume_unit u rest _ _
           (fun (_ : option ascii) (s' : string) (cs' : caps) =>
              Some ((0%nat, consumed (String c (ds' ++ ws ++ u ++ rest)) s') :: cs'))
           _ Hu).
  f_equal. f_equal; [f_equal|f_equal; f_equal; f_equal].
  - replace (String c (ds' ++ ws ++ u ++ rest))
      with ((String c ds' ++ ws ++ u) ++ rest)
      by (repeat (cbn [append]; rewrite ?append_assoc); reflexivity).
    apply consumed_append.
  - change (String c (ds' ++ ws ++ u ++ rest))
      with (String c ds' ++ ws ++ u ++ rest).
    apply consumed_append.
Qed.

Lemma requirement_here (u : string) :
  toLowerCase u = "g" \/ toLowerCase u = "kg" \/ toLowerCase u = "kilo" ->
  matchHere (Grp 0 requirementRe) prev (ds ++ ws ++ u ++ rest)
  = Some [(0%nat, ds ++ ws ++ u); (2%nat, u); (1%nat, ds)].
Proof.
  intros Hu.
  destruct (unit_head u Hu) as (a & t & Eu & Had & Has & Hap).
  destruct ds as [|c ds']; [congruence|].
  unfold matchHere, requirementRe. cbn [Regex.run append].
  simpl in digits. apply andb_true_iff in digits. destruct digits as [Hc Hd].
  rewrite Hc.
  assert (Hclear_d : clear isDigit (ws ++ u ++ rest)).
  { rewrite Eu. apply clear_after_spaces; [exact spaces|apply isSpace_not_digit|exact Had]. }
  assert (Hclear_p : clear (Ascii.eqb ".") (ws ++ u ++ rest)).
  { rewrite Eu. apply clear_after_spaces; [exact spaces|apply space_not_point|exact Hap]. }
  assert (Hclear_s : clear isSpace (u ++ rest)) by (rewrite Eu; exact Has).
  apply star_run; [exact Hd|exact Hclear_d|].
  unfold chr. rewrite cls_clear by exact Hclear_p.
  rewrite star_clear by exact Hclear_d.
  apply star_run; [exact spaces|exact Hclear_s|].
  apply (requirement_unit u rest _ _
           (fun (_ : option ascii) (s' : string) (cs' : caps) =>
              Some ((0%nat, consumed (String c (ds' ++ ws ++ u ++ rest)) s') :: cs'))
           _ Hu).
  f_equal. f_equal; [f_equal|f_equal; f_equal; f_equal].
  - replace (String c (ds' ++ ws ++ u ++ rest))
      with ((String c ds' ++ ws ++ u) ++ rest)
      by (repeat (cbn [append]; rewrite ?append_assoc); reflexivity).
    apply consumed_append.
  - change (String c (ds' ++ ws ++ u ++ rest))
      with (String c ds' ++ ws ++ u ++ rest).
    apply consumed_append.
Qed.

Lemma requirement_here_decimal (fs u : string) :
  allb isDigit fs = true ->
  toLowerCase u = "g" \/ toLowerCase u = "kg" \/ toLowerCase u = "kilo" ->
  matchHere (Grp 0 requirementRe) prev (ds ++ "." ++ fs ++ ws ++ u ++ rest)
  = Some [(0%nat, ds ++ "." ++ fs ++ ws ++ u); (2%nat, u); (1%nat, ds ++ "." ++ fs)].
Proof.
  intros decimals Hu.
  destruct (unit_head u Hu) as (a & t & Eu & Had & Has & Hap).
  destruct ds as [|c ds']; [congruence|].
  unfold matchHere, requirementRe. cbn [Regex.run append].
  simpl in digits. apply andb_true_iff in digits. destruct digits as [Hc Hd].
  rewrite Hc.
  apply star_run; [exact Hd|reflexivity|].
  unfold chr. cbn [Regex.run]. cbn [Ascii.eqb Bool.eqb].
  assert (Hclear_d : clear isDigit (ws ++ u ++ rest)).
  { rewrite Eu. apply clear_after_spaces; [exact spaces|apply isSpace_not_digit|exact Had]. }
  assert (Hclear_s : clear isSpace (u ++ rest)) by (rewrite Eu; exact Has).
  match goal with
  | |- match ?m with Some x => Some x | None => _ end = _ =>
      assert (Em : m = Some [(0%nat, String c ds' ++ "." ++ fs ++ ws ++ u);
                             (2%nat, u); (1%nat, String c ds' ++ "." ++ fs)])
  end.
  { apply star_run; [exact decimals|exact Hclear_d|].
    apply star_run; [exact spaces|exact Hclear_s|].
    apply (requirement_unit u rest _ _
             (fun (_ : option ascii) (s' : string) (cs' : caps) =>
                Some ((0%nat,
                       consumed (String c (ds' ++ String "." (fs ++ ws ++ u ++ rest))) s')
                      :: cs')) _ Hu).
    f_equal. f_equal; [f_equal|f_equal; f_equal; f_equal].
    - replace (String c (ds' ++ String "." (fs ++ ws ++ u ++ rest)))
        with ((String c ds' ++ "." ++ fs ++ ws ++ u) ++ rest)
        by (repeat (cbn [append]; rewrite ?append_assoc); reflexivity).
      apply consumed_append.
    - replace (String c (ds' ++ String "." (fs ++ ws ++ u ++ rest)))
        with ((String c ds' ++ "." ++ fs) ++ ws ++ u ++ rest)
        by (repeat (cbn [append]; rewrite ?append_assoc); reflexivity).
      apply consumed_append. }
  rewrite Em. reflexivity.
Qed.
End AtThePosition.

Lemma volume_needs_digit (prev : option ascii) (c : ascii) (t : string) :
  isDigit c = false -> matchHere (Grp 0 volumeRe) prev (String c t) = None.
Proof. intros H. unfold matchHere, volumeRe. cbn [Regex.run]. rewrite H. reflexivity. Qed.

Lemma requirement_needs_digit (prev : option ascii) (c : ascii) (t : string) :
  isDigit c = false -> matchHere (Grp 0 requirementRe) prev (String c t) = None.
Proof.
  intros H. unfold matchHere, requirementRe. cbn [Regex.run]. rewrite H. reflexivity.
Qed.

Section AfterAPrefix.
(** The same after a prefix without digits: the match is found at the
    first digits of the text. *)
Variables (pre ds ws rest : string).
Hypothesis no_digit_before : allb (fun c => negb (isDigit c)) pre = true.
Hypothesis digits : allb isDigit ds = true.
Hypothesis some_digit : ds <> "".
Hypothesis spaces : allb isSpace ws = true.

Lemma volume_found (u : string) :
  toLowerCase u = "g" \/ toLowerCase u = "kg" ->
  exec volumeRe (pre ++ ds ++ ws ++ u ++ rest)
  = Some [(0%nat, ds ++ ws ++ u); (2%nat, u); (1%nat, ds)].
Proof.
  intros Hu. unfold exec.
  rewrite (skip_to_digits _ _ _ _ volume_needs_digit no_digit_before).
  apply searchFrom_here. apply volume_here; assumption.
Qed.

Lemma requirement_found (u : string) :
  toLowerCase u = "g" \/ toLowerCase u = "kg" \/ toLowerCase u = "kilo" ->
  exec requirementRe (pre ++ ds ++ ws ++ u ++ rest)
  = Some [(0%nat, ds ++ ws ++ u); (2%nat, u); (1%nat, ds)].
Proof.
  intros Hu. unfold exec.
  rewrite (skip_to_digits _ _ _ _ requirement_needs_digit no_digit_before).
  apply searchFrom_here. apply requirement_here; assumption.
Qed.

Lemma requirement_found_decimal (fs u : string) :
  allb isDigit fs = true ->
  toLowerCase u = "g" \/ toLowerCase u = "kg" \/ toLowerCase u = "kilo" ->
  exec requirementRe (pre ++ ds ++ "." ++ fs ++ ws ++ u ++ rest)
  = Some [(0%nat, ds ++ "." ++ fs ++ ws ++ u); (2%nat, u); (1%nat, ds ++ "." ++ fs)].
Proof.
  intros Hf Hu. unfold exec.
  rewrite (skip_to_digits _ _ _ _ requirement_needs_digit no_digit_before).
  apply searchFrom_here. apply requirement_here_decimal; assumption.
Qed.
End AfterAPrefix.

Lemma decAcc_nonneg (acc : Z) (s : string) : 0 <= acc -> 0 <= decAcc acc s.
Proof.
  revert acc. induction s as [|c s IH]; intros acc H; cbn [decAcc]; [exact H|].
  apply IH. pose proof (N2Z.is_nonneg (code c - 48)). lia.
Qed.

Lemma parseInt_nonneg (s : string) : 0 <= parseInt s.
Proof. apply decAcc_nonneg. lia. Qed.

Lemma decAcc_append (acc : Z) (a b : string) :
  decAcc acc (a ++ b) = decAcc (decAcc acc a) b.
Proof. revert acc. induction a as [|c a IH]; intros acc; simpl; [reflexivity|apply IH]. Qed.

Lemma takeWhile_digits_then (ds t : string) :
  allb isDigit ds = true -> clear isDigit t ->
  takeWhile isDigit (ds ++ t) = ds /\ dropWhile isDigit (ds ++ t) = t.
Proof.
  intros Hd Ht. induction ds as [|c ds IH]; cbn [append takeWhile dropWhile].
  - destruct t as [|c t]; [auto|]. cbn [clear] in Ht.
    cbn [takeWhile dropWhile]. rewrite Ht. auto.
  - cbn [allb] in Hd. apply andb_true_iff in Hd. destruct Hd as [Hc Hd].
    rewrite Hc. destruct (IH Hd) as [-> ->]. auto.
Qed.

Lemma parseFloat_nonneg (s : string) : (0 <= parseFloat s)%Q.
Proof.
  unfold parseFloat. apply round_nonneg.
  unfold Qle. cbn [Qnum Qden]. rewrite Z.mul_1_r. cbn [Z.mul].
  apply decAcc_nonneg. apply parseInt_nonneg.
Qed.

Lemma parseFloat_whole (ds : string) :
  allb isDigit ds = true -> parseFloat ds = inject_Z (parseInt ds).
Proof.
  intros H. unfold parseFloat. destruct (takeWhile_all isDigit ds H) as [-> ->].
  apply (round_integer (parseInt ds)). apply parseInt_nonneg.
Qed.

(** The number a text with a decimal point stands for is rounded once. *)
Lemma parseFloat_point (ds fs : string) :
  allb isDigit ds = true -> allb isDigit fs = true ->
  parseFloat (ds ++ "." ++ fs)
  = Binary64.round
      (Qmake (parseInt (ds ++ fs)) (Z.to_pos (10 ^ Z.of_nat (String.length fs)))).
Proof.
  intros Hd Hf. unfold parseFloat.
  destruct (takeWhile_digits_then ds ("." ++ fs) Hd) as [-> ->]; [reflexivity|].
  cbn [append]. destruct (takeWhile_all isDigit fs Hf) as [-> _].
  unfold parseInt. rewrite decAcc_append. reflexivity.
Qed.

(** Whole numbers are multiplied exactly. *)
Lemma mul_whole (n k : Z) :
  0 <= n -> 0 <= k -> Binary64.mul (inject_Z n) (inject_Z k) = inject_Z (n * k).
Proof.
  intros Hn Hk. unfold Binary64.mul.
  change (inject_Z n * inject_Z k)%Q with (inject_Z (n * k)).
  apply round_integer. nia.
Qed.

Lemma productWeight_of_match (p : Product) (v whole u ds : string) :
  displayVolume p = Some v ->
  exec volumeRe v = Some [(0%nat, whole); (2%nat, u); (1%nat, ds)] ->
  productWeight p =
  if String.eqb (toLowerCase u) "kg" then parseInt ds * 1000 else parseInt ds.
Proof. intros Ev Em. unfold productWeight. rewrite Ev, Em. reflexivity. Qed.

Lemma requestedWeight_of_match (v whole u ds : string) :
  exec requirementRe v = Some [(0%nat, whole); (2%nat, u); (1%nat, ds)] ->
  requestedWeight v =
  if String.eqb (toLowerCase u) "kg" || String.eqb (toLowerCase u) "kilo"
  then Some (Binary64.mul (parseFloat ds) 1000) else Some (parseFloat ds).
Proof. intros Em. unfold requestedWeight. rewrite Em. reflexivity. Qed.

Lemma unit_factor (u : string) :
  toLowerCase u = "g" \/ toLowerCase u = "kg" \/ toLowerCase u = "kilo" ->
  String.eqb (toLowerCase u) "kg" || String.eqb (toLowerCase u) "kilo"
  = negb (String.eqb (toLowerCase u) "g").
Proof. intros [ -> | [ -> | -> ] ]; reflexivity. Qed.

(** The weight a requirement with a whole number states. *)
Lemma requestedWeight_whole (pre ds ws u rest : string) :
  allb (fun c => negb (isDigit c)) pre = true ->
  allb isDigit ds = true -> ds <> "" -> allb isSpace ws = true ->
  toLowerCase u = "g" \/ toLowerCase u = "kg" \/ toLowerCase u = "kilo" ->
  requestedWeight (pre ++ ds ++ ws ++ u ++ rest)
  = Some (inject_Z (parseInt ds
                    * if String.eqb (toLowerCase u) "g" then 1 else 1000)).
Proof.
  intros Hpre Hd Hne Hs Hu.
  rewrite (requestedWeight_of_match _ _ _ _
             (requirement_found pre ds ws rest Hpre Hd Hne Hs u Hu)).
  rewrite (unit_factor u Hu), (parseFloat_whole ds Hd).
  destruct (String.eqb (toLowerCase u) "g"); cbn [negb].
  - rewrite Z.mul_1_r. reflexivity.
  - change (Binary64.mul (inject_Z (parseInt ds)) 1000)
      with (Binary64.mul (inject_Z (parseInt ds)) (inject_Z 1000)).
    rewrite (mul_whole (parseInt ds) 1000 (parseInt_nonneg ds)) by lia. reflexivity.
Qed.

(** The weight a requirement with a decimal number states. *)
Lemma requestedWeight_decimal (pre ds fs ws u rest : string) :
  allb (fun c => negb (isDigit c)) pre = true ->
  allb isDigit ds = true -> ds <> "" -> allb isDigit fs = true ->
  allb isSpace ws = true ->
  toLowerCase u = "g" \/ toLowerCase u = "kg" \/ toLowerCase u = "kilo" ->
  requestedWeight (pre ++ ds ++ "." ++ fs ++ ws ++ u ++ rest)
  = Some (let number :=
            Binary64.round
              (Qmake (parseInt (ds ++ fs))
                     (Z.to_pos (10 ^ Z.of_nat (String.length fs)))) in
          if String.eqb (toLowerCase u) "g" then number
          else Binary64.mul number 1000).
Proof.
  intros Hpre Hd Hne Hf Hs Hu.
  rewrite (requestedWeight_of_match _ _ _ _
             (requirement_found_decimal pre ds ws rest Hpre Hd Hne Hs fs u Hf Hu)).
  rewrite (unit_factor u Hu), (parseFloat_point ds fs Hd Hf).
  destruct (String.eqb (toLowerCase u) "g"); reflexivity.
Qed.

(** Splitting one text in two ways. *)
Lemma append_split (a b x t : string) :
  a ++ b = x ++ t ->
  (exists x2, x = a ++ x2 /\ b = x2 ++ t) \/
  (exists t1, a = x ++ t1 /\ t = t1 ++ b).
Proof.
  revert x. induction a as [|c a IH]; intros x E.
  - left. exists x. auto.
  - destruct x as [|c' x].
    + right. exists (String c a). auto.
    + cbn [append] in E. injection E as -> E.
      destruct (IH x E) as [(x2 & -> & ->)|(t1 & -> & ->)].
      * left. exists x2. auto.
      * right. exists t1. auto.
Qed.

Lemma digit_or_space_no_unit (c : ascii) :
  isDigit c || isSpace c = true ->
  Ascii.eqb (lowerChar c) "g" || Ascii.eqb (lowerChar c) "k" = false.
Proof. destruct c as [[] [] [] [] [] [] [] []]; vm_compute; congruence. Qed.

Lemma clear_suffix (p : ascii -> bool) (x x1 x2 t : string) :
  x = x1 ++ x2 -> allb (fun c => negb (p c)) x = true -> clear p t ->
  clear p (x2 ++ t).
Proof.
  intros -> H Ht. rewrite allb_append in H. apply andb_true_iff in H.
  destruct H as [_ H]. destruct x2 as [|c x2]; [exact Ht|].
  cbn [allb] in H. apply andb_true_iff in H. destruct H as [Hc _].
  apply negb_true_iff in Hc. exact Hc.
Qed.

Lemma allb_weaken (p q : ascii -> bool) (s : string) :
  (forall c, p c = true -> q c = true) -> allb p s = true -> allb q s = true.
Proof.
  intros H. induction s as [|c s IH]; [reflexivity|].
  cbn [allb]. rewrite !andb_true_iff. intros [Hc Hs]. auto.
Qed.

Section NoUnit.
(** A number that no unit follows: digits, white space, and then neither
    white space nor a letter g or k. *)
Variables (ds ws tail : string).
Hypothesis digits : allb isDigit ds = true.
Hypothesis spaces : allb isSpace ws = true.
Hypothesis no_digit_after : allb (fun c => negb (isDigit c)) tail = true.
Hypothesis no_space : clear isSpace tail.
Hypothesis no_unit :
  clear (fun c => Ascii.eqb (lowerChar c) "g" || Ascii.eqb (lowerChar c) "k") tail.

Lemma after_the_digits {R : Type} (prev : option ascii) (d2 : string) (cs : caps)
      (k : @cont R) :
  (forall prev' b cs',
     clear (fun c => Ascii.eqb (lowerChar c) "g" || Ascii.eqb (lowerChar c) "k") b ->
     k prev' b cs' = None) ->
  (exists d1, ds = d1 ++ d2) ->
  star isSpace prev (d2 ++ ws ++ tail) cs k = None.
Proof.
  intros Hk (d1 & Ed). apply star_fails. intros a b E Ha.
  apply Hk.
  assert (Hx : allb (fun c => negb (Ascii.eqb (lowerChar c) "g"
                                    || Ascii.eqb (lowerChar c) "k")) (d2 ++ ws)
               = true).
  { rewrite allb_append. apply andb_true_iff. split.
    - apply (allb_weaken isDigit); [|].
      + intros c Hc. rewrite digit_or_space_no_unit; [reflexivity|].
        rewrite Hc. reflexivity.
      + rewrite Ed, allb_append in digits. apply andb_true_iff in digits. tauto.
    - apply (allb_weaken isSpace); [|exact spaces].
      intros c Hc. rewrite digit_or_space_no_unit; [reflexivity|].
      rewrite Hc. apply orb_true_r. }
  rewrite <- append_assoc in E.
  destruct (append_split a b (d2 ++ ws) tail (eq_sym E)) as [(x2 & Ex & ->)|(t1 & -> & Et)].
  - exact (clear_suffix _ _ a x2 tail Ex Hx no_unit).
  - destruct t1 as [|c t1].
    + cbn [append] in Et. subst b. exact no_unit.
    + exfalso. rewrite allb_append in Ha. apply andb_true_iff in Ha.
      destruct Ha as [_ Ha]. cbn [allb] in Ha. apply andb_true_iff in Ha.
      destruct Ha as [Hc _]. rewrite Et in no_space. cbn [append clear] in no_space.
      congruence.
Qed.

Lemma no_volume_here (prev : option ascii) (c : ascii) (d2 : string) :
  (exists d1, ds = d1 ++ String c d2) ->
  matchHere (Grp 0 volumeRe) prev (String c d2 ++ ws ++ tail) = None.
Proof.
  intros (d1 & Ed). unfold matchHere, volumeRe. cbn [Regex.run append].
  assert (Hc : isDigit c = true /\ allb isDigit d2 = true).
  { rewrite Ed, allb_append in digits. apply andb_true_iff in digits.
    destruct digits as [_ H]. cbn [allb] in H. apply andb_true_iff in H. exact H. }
  destruct Hc as [Hc Hd2]. rewrite Hc.
  apply star_fails. intros a b E Ha.
  match goal with
  | |- star isSpace _ _ _ ?k = None =>
      assert (unit_start :
                forall prev' b' cs',
                  clear (fun x => Ascii.eqb (lowerChar x) "g"
                                  || Ascii.eqb (lowerChar x) "k") b' ->
                  k prev' b' cs' = None)
  end.
  { intros prev' [|x b'] cs' Hb; [reflexivity|].
    cbn [clear] in Hb. apply orb_false_iff in Hb. destruct Hb as [Hg Hk].
    cbn [Regex.run lit chri].
    change (lowerChar "g") with "g"%char. change (lowerChar "k") with "k"%char.
    rewrite Hg, Hk. reflexivity. }
  assert (Hnd : allb (fun x => negb (isDigit x)) (ws ++ tail) = true).
  { rewrite allb_append, no_digit_after, andb_true_r.
    apply (allb_weaken isSpace); [|exact spaces].
    intros x Hx. rewrite (isSpace_not_digit x Hx). reflexivity. }
  destruct (append_split a b d2 (ws ++ tail) (eq_sym E))
    as [(x2 & Ex & ->)|(t1 & -> & Et)].
  - apply after_the_digits; [exact unit_start|].
    exists (d1 ++ String c a). rewrite Ed, Ex, append_assoc. reflexivity.
  - destruct t1 as [|x t1].
    + cbn [append] in Et. subst b. apply (after_the_digits _ ""); [exact unit_start|].
      exists ds. symmetry. apply append_nil_r.
    + exfalso. rewrite allb_append in Ha. apply andb_true_iff in Ha.
      destruct Ha as [_ Ha]. cbn [allb] in Ha. apply andb_true_iff in Ha.
      destruct Ha as [Hx _]. rewrite Et in Hnd. cbn [append allb] in Hnd.
      apply andb_true_iff in Hnd. destruct Hnd as [Hx' _].
      rewrite Hx in Hx'. discriminate.
Qed.

Lemma no_volume_from (prev : option ascii) (d2 : string) :
  (exists d1, ds = d1 ++ d2) ->
  searchFrom (Grp 0 volumeRe) prev (d2 ++ ws ++ tail) = None.
Proof.
  revert prev. induction d2 as [|c d2 IH]; intros prev (d1 & Ed).
  - cbn [append]. apply no_digit_no_match.
    rewrite allb_append, no_digit_after, andb_true_r.
    apply (allb_weaken isSpace); [|exact spaces].
    intros x Hx. rewrite (isSpace_not_digit x Hx). reflexivity.
  - change (searchFrom (Grp 0 volumeRe) prev (String c d2 ++ ws ++ tail))
      with (match matchHere (Grp 0 volumeRe) prev (String c d2 ++ ws ++ tail) with
            | Some cs => Some cs
            | None => searchFrom (Grp 0 volumeRe) (Some c) (d2 ++ ws ++ tail)
            end).
    rewrite (no_volume_here prev c d2) by (exists d1; exact Ed).
    apply IH. exists (d1 ++ String c ""). rewrite Ed, append_assoc. reflexivity.
Qed.

Lemma no_volume_without_unit (pre : string) :
  allb (fun c => negb (isDigit c)) pre = true ->
  exec volumeRe (pre ++ ds ++ ws ++ tail) = None.
Proof.
  intros Hpre. unfold exec.
  rewrite (skip_to_digits _ _ _ _ volume_needs_digit Hpre).
  apply no_volume_from. exists "". reflexivity.
Qed.
End NoUnit.

Lemma lower_gram_shape (u : string) :
  toLowerCase u = "gram" ->
  exists a t, u = String a "" ++ t /\ toLowerCase (String a "") = "g".
Proof.
  destruct u as [|a t]; cbn [toLowerCase]; [discriminate|].
  intros [= Ea _]. exists a, t. cbn [toLowerCase append]. rewrite Ea. auto.
Qed.

(** ** The two patterns at any place of a text *)

Lemma no_unit_letter (c : ascii) :
  isDigit c || isSpace c = true ->
  Ascii.eqb (lowerChar c) "g" = false /\ Ascii.eqb (lowerChar c) "k" = false.
Proof.
  intros H. apply orb_false_iff. apply digit_or_space_no_unit. exact H.
Qed.

Lemma consumed_one (a : ascii) (r : string) : consumed (String a r) r = String a "".
Proof. change (String a r) with (String a "" ++ r). apply consumed_append. Qed.

Lemma consumed_two (a b : ascii) (r : string) :
  consumed (String a (String b r)) r = String a (String b "").
Proof. change (String a (String b r)) with (String a (String b "") ++ r). apply consumed_append. Qed.

Lemma consumed_four (a b c d : ascii) (r : string) :
  consumed (String a (String b (String c (String d r)))) r
  = String a (String b (String c (String d ""))).
Proof.
  change (String a (String b (String c (String d r))))
    with (String a (String b (String c (String d ""))) ++ r).
  apply consumed_append.
Qed.

Lemma consumed_run (c : ascii) (s : string) :
  consumed (String c s) (dropWhile isDigit s) = String c (takeWhile isDigit s).
Proof.
  rewrite <- (take_drop isDigit s) at 1.
  change (String c (takeWhile isDigit s ++ dropWhile isDigit s))
    with (String c (takeWhile isDigit s) ++ dropWhile isDigit s).
  apply consumed_append.
Qed.

(** The volume pattern at one position. *)
Lemma volume_at (prev : option ascii) (t : string) :
  option_map (fun m => (group 1 m, group 2 m))
             (matchHere (Grp 0 volumeRe) prev t)
  = volumeAt t.
Proof.
  unfold matchHere, volumeRe, volumeAt.
  destruct t as [|c s]; [reflexivity|].
  cbn [Regex.run lit chri takeWhile dropWhile].
  change (lowerChar "g") with "g"%char. change (lowerChar "k") with "k"%char.
  destruct (isDigit c) eqn:Ec; [|reflexivity].
  rewrite star_last_resort.
  2:{ intros a c0 t0 _ _ Hc0. cbn [star]. rewrite (isDigit_not_space c0 Hc0).
      destruct (no_unit_letter c0) as [-> ->]; [rewrite Hc0; reflexivity|].
      reflexivity. }
  rewrite star_last_resort.
  2:{ intros a c0 t0 _ _ Hc0.
      destruct (no_unit_letter c0) as [-> ->]; [rewrite Hc0; apply orb_true_r|].
      reflexivity. }
  rewrite consumed_run. unfold volumeUnitAt.
  destruct (dropWhile isSpace (dropWhile isDigit s)) as [|a r]; [reflexivity|].
  destruct (Ascii.eqb (lowerChar a) "g") eqn:Eg.
  - rewrite consumed_one. reflexivity.
  - destruct (Ascii.eqb (lowerChar a) "k") eqn:Ek; [|reflexivity].
    destruct r as [|b r]; [reflexivity|].
    destruct (Ascii.eqb (lowerChar b) "g") eqn:Eb; [|reflexivity].
    rewrite consumed_two. reflexivity.
Qed.

Lemma volume_first (prev : option ascii) (t : string) :
  option_map (fun m => (group 1 m, group 2 m))
             (searchFrom (Grp 0 volumeRe) prev t)
  = firstVolume t.
Proof.
  revert prev. induction t as [|c t IH]; intros prev.
  - cbn [searchFrom firstVolume]. pose proof (volume_at prev "") as H.
    destruct (matchHere (Grp 0 volumeRe) prev ""); rewrite <- H; reflexivity.
  - cbn [searchFrom firstVolume]. pose proof (volume_at prev (String c t)) as H.
    destruct (matchHere (Grp 0 volumeRe) prev (String c t));
      rewrite <- H; cbn [option_map]; [reflexivity|apply IH].
Qed.

(** The weight of a product is the weight its volume text states. *)
Lemma productWeight_of_volume (p : Product) :
  productWeight p =
  match displayVolume p with
  | Some v => weightOfVolume v
  | None => 0
  end.
Proof.
  unfold productWeight, weightOfVolume.
  destruct (displayVolume p) as [v|].
  - rewrite <- (volume_first None v). unfold exec.
    destruct (searchFrom (Grp 0 volumeRe) None v); reflexivity.
  - reflexivity.
Qed.

(** The units of the requirement pattern at one position, after the
    number was captured. *)
Lemma requirement_unit_at (prev : option ascii) (t s : string) (number : string) :
  option_map (fun m => (group 1 m, group 2 m))
    (Regex.run (Grp 2 (Or (lit chri "g")
                      (Or (lit chri "gram")
                      (Or (lit chri "kg") (lit chri "kilo")))))
               prev s [(1%nat, number)]
               (fun _ s' cs' => Some ((0%nat, consumed t s') :: cs')))
  = match requirementUnitAt s with
    | Some u => Some (number, u)
    | None => None
    end.
Proof.
  unfold requirementUnitAt. destruct s as [|a r]; [reflexivity|].
  cbn [Regex.run lit chri].
  change (lowerChar "g") with "g"%char. change (lowerChar "k") with "k"%char.
  change (lowerChar "r") with "r"%char. change (lowerChar "a") with "a"%char.
  change (lowerChar "m") with "m"%char. change (lowerChar "i") with "i"%char.
  change (lowerChar "l") with "l"%char. change (lowerChar "o") with "o"%char.
  destruct (Ascii.eqb (lowerChar a) "g") eqn:Eg.
  - rewrite consumed_one. reflexivity.
  - destruct (Ascii.eqb (lowerChar a) "k") eqn:Ek; [|reflexivity].
    destruct r as [|b r]; [reflexivity|].
    destruct (Ascii.eqb (lowerChar b) "g") eqn:Eb.
    + rewrite consumed_two. reflexivity.
    + destruct (Ascii.eqb (lowerChar b) "i") eqn:Ei; [|reflexivity].
      destruct r as [|c [|d r]]; [reflexivity| |].
      * destruct (Ascii.eqb (lowerChar c) "l"); reflexivity.
      * destruct (Ascii.eqb (lowerChar c) "l"); [|reflexivity].
        destruct (Ascii.eqb (lowerChar d) "o"); [|reflexivity].
        cbn [andb]. rewrite consumed_four. reflexivity.
Qed.

Section Requirement.
(** The requirement pattern on the text [t]. *)
Variable t : string.

Lemma afterNumber_unit (prev : option ascii) (s : string) :
  option_map (fun m => (group 1 m, group 2 m)) (afterNumber t prev s [])
  = match requirementUnitAt (dropWhile isSpace s) with
    | Some u => Some (consumed t s, u)
    | None => None
    end.
Proof.
  unfold afterNumber. rewrite star_last_resort.
  - apply requirement_unit_at.
  - intros a c0 t0 _ _ Hc0. cbn [Regex.run lit chri].
    change (lowerChar "g") with "g"%char. change (lowerChar "k") with "k"%char.
    destruct (no_unit_letter c0) as [-> ->]; [rewrite Hc0; apply orb_true_r|].
    reflexivity.
Qed.

Lemma afterNumber_fails (prev : option ascii) (c : ascii) (s : string) (cs : caps) :
  isDigit c = true \/ c = "."%char -> afterNumber t prev (String c s) cs = None.
Proof.
  intros Hc. unfold afterNumber.
  assert (Hs : isSpace c = false)
    by (destruct Hc as [Hc| ->]; [apply isDigit_not_space; exact Hc|reflexivity]).
  assert (Hu : Ascii.eqb (lowerChar c) "g" = false /\ Ascii.eqb (lowerChar c) "k" = false).
  { destruct Hc as [Hc| ->]; [|split; reflexivity].
    apply no_unit_letter. rewrite Hc. reflexivity. }
  cbn [star]. rewrite Hs. cbn [Regex.run lit chri].
  change (lowerChar "g") with "g"%char. change (lowerChar "k") with "k"%char.
  destruct Hu as [-> ->]. reflexivity.
Qed.

(** After the first run of digits: the point and the digits that follow
    it, if any; giving back digits of the first run changes nothing. *)
Lemma digits_then_point (prev : option ascii) (s : string) (cs : caps) :
  star isDigit prev s cs
       (fun prev' s' cs' =>
          Regex.run (Cat (Opt (chr ".")) (Star isDigit)) prev' s' cs' (afterNumber t))
  = Regex.run (Cat (Opt (chr ".")) (Star isDigit))
              (lastOf prev (takeWhile isDigit s)) (dropWhile isDigit s) cs (afterNumber t).
Proof.
  revert prev. induction s as [|c s IH]; intros prev; [reflexivity|].
  cbn [star takeWhile dropWhile]. destruct (isDigit c) eqn:Ec; [|reflexivity].
  cbn [lastOf]. rewrite IH.
  destruct (Regex.run (Cat (Opt (chr ".")) (Star isDigit))
                      (lastOf (Some c) (takeWhile isDigit s)) (dropWhile isDigit s)
                      cs (afterNumber t)) eqn:E; [reflexivity|].
  cbn [Regex.run chr].
  assert (Ep : Ascii.eqb "." c = false)
    by (destruct c as [[] [] [] [] [] [] [] []]; vm_compute in Ec |- *; congruence).
  rewrite Ep.
  rewrite star_last_resort
    by (intros a c0 t0 _ _ Hc0; apply afterNumber_fails; left; exact Hc0).
  cbn [takeWhile dropWhile]. rewrite Ec. cbn [lastOf].
  cbn [Regex.run chr] in E.
  destruct (match dropWhile isDigit s with
            | String c0 s' =>
                if Ascii.eqb "." c0 then star isDigit (Some c0) s' cs (afterNumber t)
                else None
            | EmptyString => None
            end); [discriminate E|].
  rewrite star_clear in E by apply clear_dropWhile. exact E.
Qed.

Lemma consumed_number (c : ascii) (s r : string) :
  t = String c s -> dropWhile isDigit s = String "." r ->
  consumed t (dropWhile isDigit r)
  = String c (takeWhile isDigit s) ++ "." ++ takeWhile isDigit r.
Proof.
  intros Et Es.
  assert (E : t = (String c (takeWhile isDigit s) ++ "." ++ takeWhile isDigit r)
                  ++ dropWhile isDigit r).
  { rewrite Et, <- (take_drop isDigit s) at 1. rewrite Es.
    rewrite <- (take_drop isDigit r) at 1.
    cbn [append]. rewrite !append_assoc. reflexivity. }
  rewrite E at 1. apply consumed_append.
Qed.
End Requirement.

(** The requirement pattern at one position. *)
Lemma measure_at (prev : option ascii) (t : string) :
  option_map (fun m => (group 1 m, group 2 m))
             (matchHere (Grp 0 requirementRe) prev t)
  = measureAt t.
Proof.
  destruct t as [|c s]; [reflexivity|].
  change (matchHere (Grp 0 requirementRe) prev (String c s))
    with (if isDigit c
          then star isDigit (Some c) s []
                    (fun prev' s' cs' =>
                       Regex.run (Cat (Opt (chr ".")) (Star isDigit)) prev' s' cs'
                                 (afterNumber (String c s)))
          else None).
  unfold measureAt. cbn [takeWhile dropWhile].
  destruct (isDigit c) eqn:Ec; [|reflexivity].
  rewrite digits_then_point. cbn [Regex.run chr].
  pose proof (clear_dropWhile isDigit s) as Hclear.
  pose proof (consumed_run c s) as Hrun.
  destruct (dropWhile isDigit s) as [|x r] eqn:Ed.
  - cbn [star]. rewrite afterNumber_unit, Hrun. reflexivity.
  - cbn [clear] in Hclear. destruct (Ascii.eqb "." x) eqn:Ex.
    + apply Ascii.eqb_eq in Ex. subst x.
      rewrite star_last_resort
        by (intros a c0 t0 _ _ Hc0; apply afterNumber_fails; left; exact Hc0).
      rewrite (star_clear isDigit) by exact Hclear.
      rewrite (afterNumber_fails (String c s) _ "." r []) by (right; reflexivity).
      destruct (afterNumber (String c s)
                            (lastOf (Some "."%char) (takeWhile isDigit r))
                            (dropWhile isDigit r) []) eqn:E.
      * pose proof (afterNumber_unit (String c s)
                      (lastOf (Some "."%char) (takeWhile isDigit r))
                      (dropWhile isDigit r)) as H.
        rewrite E in H. rewrite (consumed_number _ c s r eq_refl Ed) in H.
        exact H.
      * pose proof (afterNumber_unit (String c s)
                      (lastOf (Some "."%char) (takeWhile isDigit r))
                      (dropWhile isDigit r)) as H.
        rewrite E in H. cbn [option_map] in H |- *.
        destruct (requirementUnitAt (dropWhile isSpace (dropWhile isDigit r)));
          [discriminate H|reflexivity].
    + rewrite (star_clear isDigit) by exact Hclear.
      rewrite afterNumber_unit, Hrun. reflexivity.
Qed.

Lemma measure_first (prev : option ascii) (t : string) :
  option_map (fun m => (group 1 m, group 2 m))
             (searchFrom (Grp 0 requirementRe) prev t)
  = firstMeasure t.
Proof.
  revert prev. induction t as [|c t IH]; intros prev.
  - cbn [searchFrom firstMeasure]. pose proof (measure_at prev "") as H.
    destruct (matchHere (Grp 0 requirementRe) prev ""); rewrite <- H; reflexivity.
  - cbn [searchFrom firstMeasure]. pose proof (measure_at prev (String c t)) as H.
    destruct (matchHere (Grp 0 requirementRe) prev (String c t));
      rewrite <- H; cbn [option_map]; [reflexivity|apply IH].
Qed.

(** The weight an item asks for is the weight its text states. *)
Lemma requestedWeight_of_requirement (item : string) :
  requestedWeight item = weightOfRequirement item.
Proof.
  unfold requestedWeight, weightOfRequirement.
  rewrite <- (measure_first None item). unfold exec.
  destruct (searchFrom (Grp 0 requirementRe) None item); reflexivity.
Qed.

(** C6 (src/llm.ts 16-29, 34-49).  A candidate's weight is what its
    volume text states: the whole number at the leftmost place of the text
    where digits, white space if any, and g or kg in any case follow each
    other (for example the 170 of [ca: 170g]), times 1000 for kg; it is 0
    when the volume is missing or has no such place, as a text without
    digits or a number that no unit follows.  The requirement's weight is
    read by another pattern, at the leftmost place where digits, then a
    point and digits if any, white space if any, and g, kg or kilo follow
    each other, gram being read as g: a whole number of g or gram is that
    number, of kg or kilo 1000 times it; a decimal number is the binary64
    nearest to it, multiplied by 1000 in binary64 for kg and kilo.  On
    [2kg] and [2000g] both parsers give 2000. *)
Theorem candidate_weight_whole_number_g_or_kg :
  (forall p,
     productWeight p = match displayVolume p with
                       | Some v => weightOfVolume v
                       | None => 0
                       end) /\
  (forall item, requestedWeight item = weightOfRequirement item) /\
  (forall p, displayVolume p = None -> productWeight p = 0) /\
  (forall p v, displayVolume p = Some v ->
     allb (fun c => negb (isDigit c)) v = true -> productWeight p = 0) /\
  (forall p pre ds ws tail,
     allb (fun c => negb (isDigit c)) pre = true ->
     allb isDigit ds = true -> allb isSpace ws = true ->
     allb (fun c => negb (isDigit c)) tail = true ->
     clear isSpace tail ->
     clear (fun c => Ascii.eqb (lowerChar c) "g" || Ascii.eqb (lowerChar c) "k")
           tail ->
     displayVolume p = Some (pre ++ ds ++ ws ++ tail) -> productWeight p = 0) /\
  (forall p pre ds ws u rest,
     allb (fun c => negb (isDigit c)) pre = true ->
     allb isDigit ds = true -> ds <> "" -> allb isSpace ws = true ->
     displayVolume p = Some (pre ++ ds ++ ws ++ u ++ rest) ->
     (toLowerCase u = "g" -> productWeight p = parseInt ds) /\
     (toLowerCase u = "kg" -> productWeight p = parseInt ds * 1000)) /\
  (forall pre ds ws u rest,
     allb (fun c => negb (isDigit c)) pre = true ->
     allb isDigit ds = true -> ds <> "" -> allb isSpace ws = true ->
     (toLowerCase u = "g" \/ toLowerCase u = "gram" ->
      requestedWeight (pre ++ ds ++ ws ++ u ++ rest)
      = Some (inject_Z (parseInt ds))) /\
     (toLowerCase u = "kg" \/ toLowerCase u = "kilo" ->
      requestedWeight (pre ++ ds ++ ws ++ u ++ rest)
      = Some (inject_Z (parseInt ds * 1000)))) /\
  (forall pre ds fs ws u rest,
     allb (fun c => negb (isDigit c)) pre = true ->
     allb isDigit ds = true -> ds <> "" -> allb isDigit fs = true ->
     allb isSpace ws = true ->
     let number :=
       Binary64.round
         (Qmake (parseInt (ds ++ fs)) (Z.to_pos (10 ^ Z.of_nat (String.length fs)))) in
     (toLowerCase u = "g" \/ toLowerCase u = "gram" ->
      requestedWeight (pre ++ ds ++ "." ++ fs ++ ws ++ u ++ rest) = Some number) /\
     (toLowerCase u = "kg" \/ toLowerCase u = "kilo" ->
      requestedWeight (pre ++ ds ++ "." ++ fs ++ ws ++ u ++ rest)
      = Some (Binary64.mul number 1000))) /\
  (forall p1 p2,
     displayVolume p1 = Some "2kg" -> displayVolume p2 = Some "2000g" ->
     productWeight p1 = 2000 /\ productWeight p2 = 2000 /\
     requestedWeight "2kg" = Some (inject_Z 2000) /\
     requestedWeight "2000g" = Some (inject_Z 2000)).
Proof.
  split; [exact productWeight_of_volume|].
  split; [exact requestedWeight_of_requirement|].
  split; [|split; [|split; [|split; [|split; [|split]]]]].
  - intros p E. unfold productWeight. rewrite E. reflexivity.
  - intros p v E H. unfold productWeight. rewrite E. unfold exec, volumeRe.
    rewrite (no_digit_no_match 1 _ v None H). reflexivity.
  - intros p pre ds ws tail Hpre Hd Hs Hnd Hsp Hun E.
    unfold productWeight. rewrite E.
    rewrite (no_volume_without_unit ds ws tail Hd Hs Hnd Hsp Hun pre Hpre).
    reflexivity.
  - intros p pre ds ws u rest Hpre Hd Hne Hs E. split; intros Hu.
    + rewrite (productWeight_of_match p _ _ u ds E
                 (volume_found pre ds ws rest Hpre Hd Hne Hs u (or_introl Hu))).
      rewrite Hu. reflexivity.
    + rewrite (productWeight_of_match p _ _ u ds E
                 (volume_found pre ds ws rest Hpre Hd Hne Hs u (or_intror Hu))).
      rewrite Hu. reflexivity.
  - intros pre ds ws u rest Hpre Hd Hne Hs. split.
    + intros [Hu|Hu].
      * rewrite (requestedWeight_whole pre ds ws u rest Hpre Hd Hne Hs (or_introl Hu)).
        rewrite Hu, Z.mul_1_r. reflexivity.
      * destruct (lower_gram_shape u Hu) as (a & t & -> & Ha).
        rewrite append_assoc.
        rewrite (requestedWeight_whole pre ds ws (String a "") (t ++ rest)
                   Hpre Hd Hne Hs (or_introl Ha)).
        rewrite Ha, Z.mul_1_r. reflexivity.
    + intros Hu.
      assert (Hu' : toLowerCase u = "g" \/ toLowerCase u = "kg" \/ toLowerCase u = "kilo")
        by tauto.
      rewrite (requestedWeight_whole pre ds ws u rest Hpre Hd Hne Hs Hu').
      destruct Hu as [ -> | -> ]; reflexivity.
  - intros pre ds fs ws u rest Hpre Hd Hne Hf Hs number. split.
    + intros [Hu|Hu].
      * rewrite (requestedWeight_decimal pre ds fs ws u rest Hpre Hd Hne Hf Hs
                   (or_introl Hu)).
        rewrite Hu. reflexivity.
      * destruct (lower_gram_shape u Hu) as (a & t & -> & Ha).
        rewrite append_assoc.
        rewrite (requestedWeight_decimal pre ds fs ws (String a "") (t ++ rest)
                   Hpre Hd Hne Hf Hs (or_introl Ha)).
        rewrite Ha. reflexivity.
    + intros Hu.
      assert (Hu' : toLowerCase u = "g" \/ toLowerCase u = "kg" \/ toLowerCase u = "kilo")
        by tauto.
      rewrite (requestedWeight_decimal pre ds fs ws u rest Hpre Hd Hne Hf Hs Hu').
      destruct Hu as [ -> | -> ]; reflexivity.
  - intros p1 p2 E1 E2. unfold productWeight. rewrite E1, E2.
    repeat split; vm_compute; reflexivity.
Qed.

(** C6, as stated, fails: the volume parser does not know the unit kilo and
    does not read a decimal point, the requirement parser does both. *)
Lemma volume_parser_is_not_requirement_parser :
  let kilo := mkProduct "Potatis" 0 None None (Some "2 kilo") 0 in
  let decimal := mkProduct "Potatis" 1 None None (Some "1.5kg") 0 in
  (exists q, requestedWeight "2 kilo" = Some q /\ (q == 2000)%Q /\
             ~ (inject_Z (productWeight kilo) == q)%Q) /\
  (exists q, requestedWeight "1.5kg" = Some q /\ (q == 1500)%Q /\
             ~ (inject_Z (productWeight decimal) == q)%Q).
Proof.
  split; eexists; (split; [vm_compute; reflexivity|]); split;
    vm_compute; congruence.
Qed.

End WeightFacts.

(* ================================================================== *)
(** * The answer of the collaborator *)

Module ResponseFacts.
Import JsString Regex Effect Llm LlmSpec StringFacts RegexFacts.

Lemma step_number (m : option caps) (g : nat) (products : list Product)
      (rest : prog (option Product)) :
  step m g products rest =
  match number m g with
  | Some n => if inRange (n - 1) products
              then Ret (nth_error products (Z.to_nat (n - 1)))
              else rest
  | None => rest
  end.
Proof. destruct m; reflexivity. Qed.

Lemma fromResponse_chosen (products : list Product) (content : string) :
  fromResponse products content = Ret (chosen products (extracted (trim content))).
Proof.
  unfold fromResponse, chosen, extracted. rewrite !step_number.
  cbn [firstInRange].
  repeat match goal with
         | |- context [match number ?m ?g with _ => _ end] =>
             destruct (number m g)
         | |- context [if inRange ?i ?p then _ else _] =>
             destruct (inRange i p)
         end; try reflexivity;
    destruct products; reflexivity.
Qed.

Lemma inRange_nth (products : list Product) (i : Z) :
  inRange i products = true ->
  0 <= i < Z.of_nat (List.length products) /\
  exists p, nth_error products (Z.to_nat i) = Some p.
Proof.
  unfold inRange. rewrite andb_true_iff, Z.leb_le, Z.ltb_lt. intros H.
  split; [exact H|].
  destruct (nth_error products (Z.to_nat i)) as [p|] eqn:E; [eauto|].
  apply nth_error_None in E. lia.
Qed.

Lemma firstInRange_inRange (products : list Product) (numbers : list (option Z)) (i : Z) :
  firstInRange products numbers = Some i -> inRange i products = true.
Proof.
  induction numbers as [|[n|] numbers IH]; simpl; [discriminate| |exact IH].
  destruct (inRange (n - 1) products) eqn:E; [intros [= <-]; exact E|exact IH].
Qed.

(** C5.  Whatever the answer of the collaborator, [fromResponse] returns a
    value without raising; the value is either a product at a 1-based index
    [i] with [0 <= i - 1 < |products|], or none, and none only for an empty
    list.  The index the chain of strategies extracts, when there is one, is
    in range.  A strategy whose number is out of range hands over to the
    rest of the chain. *)
Theorem response_selection_total_and_in_range
        (products : list Product) (content : string) :
  (exists r, fromResponse products content = Ret r /\
             match r with
             | Some p => exists i, 0 <= i - 1 < Z.of_nat (List.length products) /\
                                   nth_error products (Z.to_nat (i - 1)) = Some p
             | None => products = []
             end) /\
  (forall i,
      firstInRange products (extracted (trim content)) = Some i ->
      0 <= i < Z.of_nat (List.length products)) /\
  (forall found g rest,
      inRange (parseInt (group g found) - 1) products = false ->
      step (Some found) g products rest = rest).
Proof.
  split; [|split].
  2:{ intros i E. apply firstInRange_inRange, inRange_nth in E. tauto. }
  - exists (chosen products (extracted (trim content))).
    split; [apply fromResponse_chosen|].
    unfold chosen.
    destruct (firstInRange products (extracted (trim content))) as [i|] eqn:E.
    + apply firstInRange_inRange, inRange_nth in E. destruct E as (Hi & p & Hp).
      rewrite Hp. exists (i + 1). replace (i + 1 - 1) with i by lia. auto.
    + destruct products as [|p products]; [reflexivity|].
      simpl. exists 1. simpl. split; [lia|reflexivity].
  - intros found g rest H. unfold step. rewrite H. reflexivity.
Qed.


Lemma splitLines_not_nil (s : string) : splitLines s <> [].
Proof.
  induction s as [|c s IH]; simpl; [discriminate|].
  destruct (code c =? 10)%N; [discriminate|].
  destruct (splitLines s); discriminate.
Qed.

Lemma splitLines_append (a b : string) :
  splitLines (a ++ nl ++ b) = (splitLines a ++ splitLines b)%list.
Proof.
  induction a as [|c a IH]; [reflexivity|].
  cbn [append splitLines]. rewrite IH.
  destruct (code c =? 10)%N; [reflexivity|].
  destruct (splitLines a) as [|l ls] eqn:E; [|reflexivity].
  exfalso. exact (splitLines_not_nil a E).
Qed.

Lemma digit_not_lf (c : ascii) : isDigit c = true -> (code c =? 10)%N = false.
Proof. destruct c as [[] [] [] [] [] [] [] []]; vm_compute; congruence. Qed.

Lemma splitLines_digits (ds : string) :
  allb isDigit ds = true -> splitLines ds = [ds].
Proof.
  induction ds as [|c ds IH]; [reflexivity|].
  simpl. intros H. apply andb_true_iff in H. destruct H as [Hc Hd].
  rewrite (digit_not_lf c Hc), (IH Hd). reflexivity.
Qed.

Lemma clear_space_digits (ds : string) :
  allb isDigit ds = true -> clear isSpace ds.
Proof.
  destruct ds as [|c ds]; simpl; [auto|].
  intros H. apply andb_true_iff in H. apply isDigit_not_space. tauto.
Qed.

Lemma trim_digits (ds : string) : allb isDigit ds = true -> trim ds = ds.
Proof.
  intros H. unfold trim.
  rewrite (dropWhile_clear isSpace ds (clear_space_digits ds H)).
  rewrite dropWhile_clear.
  - apply reverse_involutive.
  - apply clear_space_digits. rewrite allb_reverse. exact H.
Qed.

Lemma pop_last {A : Type} (l : list A) (x : A) : pop (l ++ [x])%list = Some x.
Proof.
  induction l as [|a l IH]; [reflexivity|].
  cbn [app pop]. rewrite IH. destruct (l ++ [x])%list eqn:E; [|reflexivity].
  destruct l; discriminate.
Qed.

Lemma consumed_all (s : string) : consumed s "" = s.
Proof.
  rewrite <- (append_nil_r s) at 1. apply consumed_append.
Qed.

Lemma digits_match (ds : string) :
  allb isDigit ds = true -> ds <> "" ->
  exec digitsRe ds = Some [(0%nat, ds); (1%nat, ds)].
Proof.
  intros Hd Hne. destruct ds as [|c ds]; [congruence|].
  unfold exec. apply searchFrom_here. unfold matchHere, digitsRe.
  cbn [Regex.run].
  simpl in Hd. apply andb_true_iff in Hd. destruct Hd as [Hc Hd]. rewrite Hc.
  rewrite <- (append_nil_r ds) at 1.
  apply star_run; [exact Hd|exact I|].
  rewrite !consumed_all. reflexivity.
Qed.

(** First strategy: a last line made of digits gives its number. *)
Lemma lastLine_digits (body ds : string) :
  allb isDigit ds = true -> ds <> "" ->
  number (lastLineMatch (body ++ nl ++ ds)) 1 = Some (parseInt ds).
Proof.
  intros Hd Hne. unfold lastLineMatch.
  rewrite splitLines_append, (splitLines_digits ds Hd), filter_app.
  cbn [filter]. rewrite (trim_digits ds Hd).
  destruct ds as [|c ds']; [congruence|]. cbn [String.length Nat.ltb Nat.leb].
  rewrite pop_last, (digits_match _ Hd Hne). reflexivity.
Qed.


Lemma lower_product_shape (p : string) :
  toLowerCase p = "product" ->
  exists a b c d e f g,
    p = String a (String b (String c (String d (String e (String f (String g ""))))))
    /\ lowerChar a = "p"%char /\ lowerChar b = "r"%char /\ lowerChar c = "o"%char
    /\ lowerChar d = "d"%char /\ lowerChar e = "u"%char /\ lowerChar f = "c"%char
    /\ lowerChar g = "t"%char.
Proof.
  destruct p as [|a [|b [|c [|d [|e [|f [|g [|h p]]]]]]]]; simpl; try discriminate.
  intros [= E1 E2 E3 E4 E5 E6 E7]. exists a, b, c, d, e, f, g. repeat split; assumption.
Qed.

Lemma clear_digit_not_word (rest : string) : clear isWord rest -> clear isDigit rest.
Proof.
  destruct rest as [|c rest]; simpl; [auto|].
  destruct c as [[] [] [] [] [] [] [] []]; vm_compute; congruence.
Qed.

(** Second strategy: the word Product in any case, white space, digits. *)
Lemma productPhrase_number (p w ds rest : string) :
  toLowerCase p = "product" ->
  allb isSpace w = true -> w <> "" ->
  allb isDigit ds = true -> ds <> "" ->
  clear isDigit rest ->
  number (exec productPhraseRe (p ++ w ++ ds ++ rest)) 1 = Some (parseInt ds).
Proof.
  intros Hp Hw Hwne Hd Hdne Hrest.
  destruct (lower_product_shape p Hp)
    as (a & b & c & d & e & f & g & -> & Ha & Hb & Hc & Hd' & He & Hf & Hg).
  destruct w as [|s w]; [congruence|]. destruct ds as [|x ds]; [congruence|].
  simpl in Hw. apply andb_true_iff in Hw. destruct Hw as [Hs Hw].
  assert (Hd0 := Hd).
  simpl in Hd. apply andb_true_iff in Hd. destruct Hd as [Hx Hd].
  assert (E : exists whole,
             exec productPhraseRe
                  (String a (String b (String c (String d (String e (String f
                     (String g ""))))))
                   ++ String s w ++ String x ds ++ rest)
             = Some [(0%nat, whole); (1%nat, String x ds)]).
  { eexists. unfold exec. apply searchFrom_here. unfold matchHere, productPhraseRe.
    cbn [Regex.run lit chri append].
    change (lowerChar "P") with "p"%char. change (lowerChar "r") with "r"%char.
    change (lowerChar "o") with "o"%char. change (lowerChar "d") with "d"%char.
    change (lowerChar "u") with "u"%char. change (lowerChar "c") with "c"%char.
    change (lowerChar "t") with "t"%char.
    rewrite Ha, Hb, Hc, Hd', He, Hf, Hg. cbn [Ascii.eqb Bool.eqb]. rewrite Hs.
    apply star_run; [exact Hw|simpl; apply isDigit_not_space; exact Hx|].
    cbn [Regex.run]. rewrite Hx.
    apply star_run; [exact Hd|exact Hrest|].
    change (String x (ds ++ rest)) with (String x ds ++ rest).
    rewrite consumed_append. reflexivity. }
  destruct E as (whole & ->). reflexivity.
Qed.

Lemma bol_only_at_start (r : regex) (c : ascii) (s : string) :
  searchFrom (Grp 0 (Cat Bol r)) (Some c) s = None.
Proof.
  revert c. induction s as [|x s IH]; intros c; [reflexivity|].
  cbn [searchFrom]. unfold matchHere. cbn [Regex.run]. apply IH.
Qed.

(** Third strategy: the whole text is one digit from 1 to 9. *)
Lemma singleDigit_whole_text (text : string) :
  exec singleDigitRe text <> None <->
  exists c, text = String c "" /\ between 49 57 c = true.
Proof.
  unfold exec, singleDigitRe. destruct text as [|c text].
  - split; [intros H; exfalso; apply H; reflexivity|intros (c & E & _); discriminate].
  - cbn [searchFrom]. unfold matchHere. cbn [Regex.run].
    destruct (between 49 57 c) eqn:Ec.
    + destruct text as [|x text].
      * split; [intros _; exists c; auto|intros _; discriminate].
      * rewrite bol_only_at_start. split; [congruence|].
        intros (c' & E & _). discriminate.
    + rewrite bol_only_at_start. split; [congruence|].
      intros (c' & [= -> ->] & E). congruence.
Qed.

Lemma singleDigit_number (c : ascii) :
  between 49 57 c = true ->
  number (exec singleDigitRe (String c "")) 0 = Some (parseInt (String c "")).
Proof.
  intros Hc. unfold exec, singleDigitRe. cbn [searchFrom]. unfold matchHere.
  cbn [Regex.run]. rewrite Hc. reflexivity.
Qed.

Lemma lastOf_digit (c : ascii) (ds : string) :
  isDigit c = true -> allb isDigit ds = true ->
  exists x, lastOf (Some c) ds = Some x /\ isDigit x = true.
Proof.
  revert c. induction ds as [|y ds IH]; intros c Hc Hd; simpl.
  - exists c. auto.
  - simpl in Hd. apply andb_true_iff in Hd. apply IH; tauto.
Qed.

Lemma digit_is_word (c : ascii) : isDigit c = true -> isWord c = true.
Proof. destruct c as [[] [] [] [] [] [] [] []]; vm_compute; congruence. Qed.

(** Fourth strategy: a run of digits between word boundaries. *)
Lemma anyNumber_number (ds rest : string) :
  allb isDigit ds = true -> ds <> "" -> clear isWord rest ->
  number (exec anyNumberRe (ds ++ rest)) 1 = Some (parseInt ds).
Proof.
  intros Hd Hne Hrest. destruct ds as [|c ds]; [congruence|].
  simpl in Hd. apply andb_true_iff in Hd. destruct Hd as [Hc Hd].
  assert (E : exists whole,
             exec anyNumberRe (String c ds ++ rest)
             = Some [(0%nat, whole); (1%nat, String c ds)]).
  { eexists. unfold exec. apply searchFrom_here. unfold matchHere, anyNumberRe.
    cbn [Regex.run append wordAt headOf]. rewrite (digit_is_word c Hc).
    cbn [xorb]. rewrite Hc.
    apply star_run; [exact Hd|apply clear_digit_not_word; exact Hrest|].
    destruct (lastOf_digit c ds Hc Hd) as (x & -> & Hx).
    cbn [wordAt]. rewrite (digit_is_word x Hx).
    replace (wordAt (headOf rest)) with false.
    2:{ destruct rest as [|y rest]; [reflexivity|]. simpl in *. congruence. }
    cbn [xorb].
    change (String c (ds ++ rest)) with (String c ds ++ rest).
    rewrite consumed_append. reflexivity. }
  destruct E as (whole & ->). reflexivity.
Qed.


(** ** The strategies at any place of the answer *)

Lemma splitLines_line (line tail : string) :
  allb (fun c => negb (code c =? 10)%N) line = true ->
  splitLines (line ++ tail) =
  match splitLines tail with
  | t0 :: ts => (line ++ t0) :: ts
  | [] => [line]
  end.
Proof.
  induction line as [|c line IH]; intros H.
  - cbn [append]. destruct (splitLines tail) eqn:E; [|reflexivity].
    exfalso. exact (splitLines_not_nil tail E).
  - cbn [allb] in H. apply andb_true_iff in H. destruct H as [Hc Hl].
    apply negb_true_iff in Hc. cbn [append splitLines]. rewrite Hc, (IH Hl).
    destruct (splitLines tail); reflexivity.
Qed.

Lemma splitLines_spaces (s : string) :
  allb isSpace s = true ->
  Forall (fun line => allb isSpace line = true) (splitLines s).
Proof.
  induction s as [|c s IH]; intros H.
  - repeat constructor.
  - cbn [allb] in H. apply andb_true_iff in H. destruct H as [Hc Hs].
    specialize (IH Hs). cbn [splitLines].
    destruct (code c =? 10)%N; [constructor; [reflexivity|exact IH]|].
    destruct (splitLines s) as [|l ls].
    + repeat constructor. cbn [allb]. rewrite Hc. reflexivity.
    + inversion IH as [|? ? Hl Hls]; subst. constructor; [|exact Hls].
      cbn [allb]. rewrite Hc, Hl. reflexivity.
Qed.

Lemma trim_blank (s : string) : allb isSpace s = true -> trim s = "".
Proof.
  intros H. unfold trim. destruct (takeWhile_all isSpace s H) as [_ ->]. reflexivity.
Qed.

Lemma trim_not_blank (s : string) :
  allb isSpace s = false -> (0 <? String.length (trim s))%nat = true.
Proof.
  intros H. destruct (trim_spec s) as (l & r & E & Hl & Hr & _).
  destruct (trim s) as [|c t]; [|reflexivity].
  exfalso. rewrite E, !allb_append, Hl, Hr in H. discriminate H.
Qed.

Lemma filter_blank (lines : list string) :
  Forall (fun line => allb isSpace line = true) lines ->
  filter (fun line => (0 <? String.length (trim line))%nat) lines = [].
Proof.
  induction 1 as [|line lines Hl _ IH]; [reflexivity|].
  cbn [filter]. rewrite (trim_blank line Hl). exact IH.
Qed.

(** The line the first strategy looks at: the last one that is not blank,
    with the white space that follows it on its line. *)
Lemma lastLineMatch_last_line (before line tail : string) :
  before = "" \/ (exists body, before = body ++ nl) ->
  allb (fun c => negb (code c =? 10)%N) line = true ->
  allb isSpace line = false -> allb isSpace tail = true ->
  exists t0, allb isSpace t0 = true /\
             lastLineMatch (before ++ line ++ tail) = exec digitsRe (line ++ t0).
Proof.
  intros Hb Hl Hn Ht.
  pose proof (splitLines_spaces tail Ht) as Hs.
  assert (E : exists t0, allb isSpace t0 = true /\
              filter (fun l => (0 <? String.length (trim l))%nat)
                     (splitLines (line ++ tail)) = [line ++ t0]).
  { rewrite (splitLines_line line tail Hl).
    destruct (splitLines tail) as [|t0 ts].
    - exists "". split; [reflexivity|]. rewrite append_nil_r.
      cbn [filter]. rewrite (trim_not_blank line Hn). reflexivity.
    - inversion Hs as [|? ? H0 Hts]; subst. exists t0. split; [exact H0|].
      cbn [filter]. rewrite trim_not_blank by (rewrite allb_append, Hn; reflexivity).
      rewrite (filter_blank ts Hts). reflexivity. }
  destruct E as (t0 & H0 & E). exists t0. split; [exact H0|].
  unfold lastLineMatch. destruct Hb as [->|(body & ->)].
  - cbn [append]. rewrite E. reflexivity.
  - rewrite append_assoc, splitLines_append, filter_app, E, pop_last. reflexivity.
Qed.

Lemma digits_need_digit (prev : option ascii) (c : ascii) (t : string) :
  isDigit c = false -> matchHere (Grp 0 digitsRe) prev (String c t) = None.
Proof. intros H. unfold matchHere, digitsRe. cbn [Regex.run]. rewrite H. reflexivity. Qed.

(** The pattern of the first strategy finds the first run of digits. *)
Lemma digits_found (pre ds rest : string) :
  allb (fun c => negb (isDigit c)) pre = true ->
  allb isDigit ds = true -> ds <> "" -> clear isDigit rest ->
  exec digitsRe (pre ++ ds ++ rest) = Some [(0%nat, ds); (1%nat, ds)].
Proof.
  intros Hpre Hd Hne Hrest. unfold exec.
  rewrite (skip_to_digits _ _ _ _ digits_need_digit Hpre).
  apply searchFrom_here. destruct ds as [|c ds]; [congruence|].
  unfold matchHere, digitsRe. cbn [Regex.run append].
  cbn [allb] in Hd. apply andb_true_iff in Hd. destruct Hd as [Hc Hd]. rewrite Hc.
  apply star_run; [exact Hd|exact Hrest|].
  change (String c (ds ++ rest)) with (String c ds ++ rest).
  rewrite !consumed_append. reflexivity.
Qed.

Lemma digits_not_found (line : string) :
  allb (fun c => negb (isDigit c)) line = true -> exec digitsRe line = None.
Proof.
  intros H. unfold exec. rewrite <- (append_nil_r line).
  rewrite (skip_to_digits _ _ _ _ digits_need_digit H). reflexivity.
Qed.

Lemma clear_digit_then_spaces (rest t0 : string) :
  clear isDigit rest -> allb isSpace t0 = true -> clear isDigit (rest ++ t0).
Proof.
  intros Hr H0. destruct rest as [|c rest]; [|exact Hr].
  cbn [append]. destruct t0 as [|x t0]; [exact I|].
  cbn [allb] in H0. apply andb_true_iff in H0. cbn [clear].
  apply isSpace_not_digit. tauto.
Qed.

Lemma digit_not_blank (pre ds rest : string) :
  allb isDigit ds = true -> ds <> "" -> allb isSpace (pre ++ ds ++ rest) = false.
Proof.
  intros Hd Hne. destruct ds as [|c ds]; [congruence|].
  cbn [allb] in Hd. apply andb_true_iff in Hd. destruct Hd as [Hc _].
  rewrite allb_append. cbn [append allb]. rewrite (isDigit_not_space c Hc).
  apply andb_false_r.
Qed.

(** First strategy, in general: the first run of digits of the last line
    that is not blank. *)
Lemma lastLine_first_digits (before pre ds rest tail : string) :
  before = "" \/ (exists body, before = body ++ nl) ->
  allb (fun c => negb (code c =? 10)%N) (pre ++ ds ++ rest) = true ->
  allb (fun c => negb (isDigit c)) pre = true ->
  allb isDigit ds = true -> ds <> "" -> clear isDigit rest ->
  allb isSpace tail = true ->
  number (lastLineMatch (before ++ (pre ++ ds ++ rest) ++ tail)) 1
  = Some (parseInt ds).
Proof.
  intros Hb Hl Hpre Hd Hne Hrest Ht.
  destruct (lastLineMatch_last_line before (pre ++ ds ++ rest) tail Hb Hl
              (digit_not_blank pre ds rest Hd Hne) Ht) as (t0 & H0 & ->).
  rewrite !append_assoc.
  rewrite (digits_found pre ds (rest ++ t0) Hpre Hd Hne
             (clear_digit_then_spaces rest t0 Hrest H0)).
  reflexivity.
Qed.

Lemma nondigit_spaces (s : string) :
  allb isSpace s = true -> allb (fun c => negb (isDigit c)) s = true.
Proof.
  induction s as [|c s IH]; [reflexivity|]. cbn [allb]. intros H.
  apply andb_true_iff in H. destruct H as [Hc Hs].
  rewrite (isSpace_not_digit c Hc), (IH Hs). reflexivity.
Qed.

(** A last line without digits gives no number, whatever the lines before
    it hold; neither does a text of blank lines. *)
Lemma lastLine_without_digits (before line tail : string) :
  before = "" \/ (exists body, before = body ++ nl) ->
  allb (fun c => negb (code c =? 10)%N) line = true ->
  allb (fun c => negb (isDigit c)) line = true ->
  allb isSpace line = false -> allb isSpace tail = true ->
  number (lastLineMatch (before ++ line ++ tail)) 1 = None.
Proof.
  intros Hb Hl Hnd Hn Ht.
  destruct (lastLineMatch_last_line before line tail Hb Hl Hn Ht) as (t0 & H0 & ->).
  rewrite digits_not_found; [reflexivity|].
  rewrite allb_append, Hnd, (nondigit_spaces t0 H0). reflexivity.
Qed.

Lemma lastLine_blank_text (text : string) :
  allb isSpace text = true -> number (lastLineMatch text) 1 = None.
Proof.
  intros H. unfold lastLineMatch.
  rewrite (filter_blank _ (splitLines_spaces text H)). reflexivity.
Qed.

(** Second strategy at one position. *)
Lemma phrase_here (prev : option ascii) (t : string) :
  option_map (group 1) (matchHere (Grp 0 productPhraseRe) prev t) = phraseAt t.
Proof.
  unfold matchHere, productPhraseRe, phraseAt.
  destruct t as [|a [|b [|c [|d [|e [|f [|g after]]]]]]];
    cbn [Regex.run lit chri toLowerCase String.eqb];
    change (lowerChar "P") with "p"%char; change (lowerChar "r") with "r"%char;
    change (lowerChar "o") with "o"%char; change (lowerChar "d") with "d"%char;
    change (lowerChar "u") with "u"%char; change (lowerChar "c") with "c"%char;
    change (lowerChar "t") with "t"%char;
    repeat match goal with
           | |- context [Ascii.eqb (lowerChar ?x) ?y] =>
               destruct (Ascii.eqb (lowerChar x) y); cbn [andb]
           end;
    try reflexivity.
  destruct after as [|s after]; [reflexivity|].
  destruct (isSpace s) eqn:Es; [|reflexivity].
  rewrite star_last_resort.
  2:{ intros a0 c0 t0 _ _ Hc0. rewrite (isSpace_not_digit c0 Hc0). reflexivity. }
  cbn [dropWhile]. rewrite Es.
  destruct (dropWhile isSpace after) as [|x s'] eqn:Ed; [reflexivity|].
  cbn [takeWhile]. destruct (isDigit x) eqn:Ex; [|reflexivity].
  rewrite <- (take_drop isDigit s') at 1.
  erewrite star_run;
    [|apply allb_takeWhile|apply clear_dropWhile|reflexivity].
  cbn [option_map group capture Nat.eqb].
  rewrite <- (take_drop isDigit s') at 1.
  change (String x (takeWhile isDigit s' ++ dropWhile isDigit s'))
    with (String x (takeWhile isDigit s') ++ dropWhile isDigit s').
  rewrite consumed_append. reflexivity.
Qed.

Lemma phrase_found (prev : option ascii) (t : string) :
  option_map (group 1) (searchFrom (Grp 0 productPhraseRe) prev t) = firstPhrase t.
Proof.
  revert prev. induction t as [|c t IH]; intros prev.
  - cbn [searchFrom firstPhrase]. pose proof (phrase_here prev "") as H.
    destruct (matchHere (Grp 0 productPhraseRe) prev ""); rewrite <- H; reflexivity.
  - cbn [searchFrom firstPhrase]. pose proof (phrase_here prev (String c t)) as H.
    destruct (matchHere (Grp 0 productPhraseRe) prev (String c t));
      rewrite <- H; cbn [option_map]; [reflexivity|apply IH].
Qed.

Lemma number_of_group (m : option caps) (g : nat) :
  number m g = option_map parseInt (option_map (group g) m).
Proof. destruct m; reflexivity. Qed.

(** Second strategy, in general: the leftmost phrase of the text. *)
Lemma productPhrase_anywhere (text : string) :
  number (exec productPhraseRe text) 1 = option_map parseInt (firstPhrase text).
Proof. rewrite number_of_group. unfold exec. rewrite phrase_found. reflexivity. Qed.

(** Fourth strategy at one position. *)
Lemma token_here (prev : option ascii) (t : string) :
  option_map (group 1) (matchHere (Grp 0 anyNumberRe) prev t) = tokenAt prev t.
Proof.
  unfold matchHere, anyNumberRe, tokenAt.
  destruct t as [|c s].
  - cbn [Regex.run headOf wordAt takeWhile]. destruct (xorb (wordAt prev) false); reflexivity.
  - cbn [Regex.run headOf takeWhile dropWhile].
    destruct (isDigit c) eqn:Ec.
    2:{ destruct (xorb (wordAt prev) (wordAt (Some c))); reflexivity. }
    cbn [wordAt]. rewrite (digit_is_word c Ec).
    change (match prev with Some c0 => isWord c0 | None => false end) with (wordAt prev).
    destruct (wordAt prev); cbn [xorb]; [reflexivity|].
    rewrite star_last_resort.
    2:{ intros a c0 t0 _ Ha Hc0. cbn [Regex.run headOf wordAt].
        destruct (lastOf_digit c a Ec Ha) as (x & -> & Hx).
        cbn [wordAt]. rewrite (digit_is_word x Hx), (digit_is_word c0 Hc0).
        reflexivity. }
    cbn [Regex.run].
    destruct (lastOf_digit c (takeWhile isDigit s) Ec (allb_takeWhile isDigit s))
      as (x & -> & Hx).
    cbn [wordAt]. rewrite (digit_is_word x Hx).
    assert (Ecap : consumed (String c s) (dropWhile isDigit s)
                   = String c (takeWhile isDigit s)).
    { rewrite <- (take_drop isDigit s) at 1.
      change (String c (takeWhile isDigit s ++ dropWhile isDigit s))
        with (String c (takeWhile isDigit s) ++ dropWhile isDigit s).
      apply consumed_append. }
    destruct (dropWhile isDigit s) as [|y rest] eqn:Ed; cbn [headOf wordAt xorb].
    + cbn [option_map group capture Nat.eqb]. rewrite Ecap. reflexivity.
    + destruct (isWord y); cbn [xorb negb]; [reflexivity|].
      cbn [option_map group capture Nat.eqb]. rewrite Ecap. reflexivity.
Qed.

Lemma token_found (prev : option ascii) (t : string) :
  option_map (group 1) (searchFrom (Grp 0 anyNumberRe) prev t) = firstToken prev t.
Proof.
  revert prev. induction t as [|c t IH]; intros prev.
  - cbn [searchFrom firstToken]. pose proof (token_here prev "") as H.
    destruct (matchHere (Grp 0 anyNumberRe) prev ""); rewrite <- H; reflexivity.
  - cbn [searchFrom firstToken]. pose proof (token_here prev (String c t)) as H.
    destruct (matchHere (Grp 0 anyNumberRe) prev (String c t));
      rewrite <- H; cbn [option_map]; [reflexivity|apply IH].
Qed.

(** Fourth strategy, in general: the leftmost token of the text. *)
Lemma anyNumber_anywhere (text : string) :
  number (exec anyNumberRe text) 1 = option_map parseInt (firstToken None text).
Proof. rewrite number_of_group. unfold exec. rewrite token_found. reflexivity. Qed.

(** C3, as amended.  [fromResponse] returns the product of the first
    number in range among four extractions of the trimmed answer, tried in
    this order, and the first product when there is none.  (1) The first
    run of digits of the last line that is not blank, whatever comes before
    the run on that line and after it; there is no number when that line
    has no digit or all lines are blank.  (2) The digits of the leftmost
    place, anywhere in the text, where the word Product in any case, one or
    more white-space characters and digits follow each other.  (3) The whole
    answer when it is one digit from 1 to 9.  (4) The leftmost run of
    digits, anywhere in the text, with no letter, digit or underscore next
    to it on either side. *)
Theorem response_strategies_tried_in_order
        (products : list Product) (content : string) :
  fromResponse products content
  = Ret (chosen products (extracted (trim content))) /\
  (forall before pre ds rest tail,
      before = "" \/ (exists body, before = body ++ nl) ->
      allb (fun c => negb (code c =? 10)%N) (pre ++ ds ++ rest) = true ->
      allb (fun c => negb (isDigit c)) pre = true ->
      allb isDigit ds = true -> ds <> "" -> clear isDigit rest ->
      allb isSpace tail = true ->
      number (lastLineMatch (before ++ (pre ++ ds ++ rest) ++ tail)) 1
      = Some (parseInt ds)) /\
  (forall before line tail,
      before = "" \/ (exists body, before = body ++ nl) ->
      allb (fun c => negb (code c =? 10)%N) line = true ->
      allb (fun c => negb (isDigit c)) line = true ->
      allb isSpace line = false -> allb isSpace tail = true ->
      number (lastLineMatch (before ++ line ++ tail)) 1 = None) /\
  (forall text,
      allb isSpace text = true -> number (lastLineMatch text) 1 = None) /\
  (forall text,
      number (exec productPhraseRe text) 1 = option_map parseInt (firstPhrase text)) /\
  (forall p w ds rest,
      toLowerCase p = "product" ->
      allb isSpace w = true -> w <> "" ->
      allb isDigit ds = true -> ds <> "" ->
      clear isDigit rest ->
      number (exec productPhraseRe (p ++ w ++ ds ++ rest)) 1 = Some (parseInt ds)) /\
  (forall text,
      exec singleDigitRe text <> None <->
      exists c, text = String c "" /\ between 49 57 c = true) /\
  (forall c,
      between 49 57 c = true ->
      number (exec singleDigitRe (String c "")) 0 = Some (parseInt (String c ""))) /\
  (forall text,
      number (exec anyNumberRe text) 1 = option_map parseInt (firstToken None text)) /\
  (forall ds rest,
      allb isDigit ds = true -> ds <> "" -> clear isWord rest ->
      number (exec anyNumberRe (ds ++ rest)) 1 = Some (parseInt ds)).
Proof.
  split; [apply fromResponse_chosen|].
  split; [exact lastLine_first_digits|].
  split; [exact lastLine_without_digits|].
  split; [exact lastLine_blank_text|].
  split; [exact productPhrase_anywhere|].
  split; [exact productPhrase_number|].
  split; [exact singleDigit_whole_text|].
  split; [exact singleDigit_number|].
  split; [exact anyNumber_anywhere|exact anyNumber_number].
Qed.

(** C3, as stated, fails: the phrase Final choice: N is not one of the
    patterns.  With three products and an answer that says so before a
    last line without digits, the fourth strategy picks the 3 of the first
    sentence, where the chain as specified picks product 2. *)
Lemma final_choice_phrase_is_not_recognised :
  let products := [ mkProduct "A" 1 None None None 0;
                    mkProduct "B" 2 None None None 0;
                    mkProduct "C" 3 None None None 0 ] in
  let content := "Of the 3 options, Final choice: 2" ++ nl ++ "Thanks." in
  fromResponse products content = Ret (nth_error products 2) /\
  chosen products (extractedAsSpecified (trim content)) = nth_error products 1 /\
  fromResponse products content
  <> Ret (chosen products (extractedAsSpecified (trim content))).
Proof.
  vm_compute. repeat split. discriminate.
Qed.

Lemma run_tryCatch {A : Type} (oracle : string -> option string)
      (body : prog A) (h : A) :
  run oracle (tryCatch body (Ret h)) =
  (Some (match result oracle body with Some a => a | None => h end),
   requests oracle body).
Proof.
  unfold result, requests.
  induction body as [a| |q k IH]; try reflexivity.
  cbn [tryCatch run]. rewrite IH.
  destruct (run oracle (k (oracle q))). reflexivity.
Qed.

Lemma chosen_nil (numbers : list (option Z)) : chosen [] numbers = None.
Proof.
  unfold chosen.
  assert (E : firstInRange [] numbers = None).
  { induction numbers as [|[n|] numbers IH]; simpl; [reflexivity| |exact IH].
    unfold inRange. simpl. rewrite IH.
    destruct (Z.leb_spec 0 (n - 1)), (Z.ltb_spec (n - 1) 0);
      try reflexivity; lia. }
  rewrite E. reflexivity.
Qed.

Lemma result_llm_path (products : list Product) (item : string)
      (oracle : string -> option string) :
  requestedWeight item = None ->
  result oracle (selectBestProduct products item) =
  Some (match oracle (selectionPrompt products item) with
        | Some content => chosen products (extracted (trim content))
        | None => None
        end).
Proof.
  intros E. unfold result, selectBestProduct. rewrite run_tryCatch, E.
  cbn [fst]. unfold result. cbn [chat bind run].
  destruct (oracle (selectionPrompt products item)) as [content|].
  - cbn [bind]. rewrite fromResponse_chosen. reflexivity.
  - reflexivity.
Qed.

(** C4, as amended.  [selectBestProduct] never lets an exception escape.
    Without a weight in the item: when the call to the collaborator fails it
    returns none; when the collaborator answers and no strategy gives a
    number in range it returns the first candidate, or none for an empty
    list.  For an empty list it returns none in every case. *)
Theorem selection_falls_back_to_first_or_none
        (products : list Product) (item : string)
        (oracle : string -> option string) :
  (exists r, result oracle (selectBestProduct products item) = Some r) /\
  (requestedWeight item = None ->
   oracle (selectionPrompt products item) = None ->
   result oracle (selectBestProduct products item) = Some None) /\
  (forall content,
      requestedWeight item = None ->
      oracle (selectionPrompt products item) = Some content ->
      firstInRange products (extracted (trim content)) = None ->
      result oracle (selectBestProduct products item) = Some (hd_error products)) /\
  (products = [] ->
   result oracle (selectBestProduct products item) = Some None).
Proof.
  split; [|split; [|split]].
  - unfold result, selectBestProduct. rewrite run_tryCatch. cbn [fst]. eauto.
  - intros Ew Eo. rewrite (result_llm_path _ _ _ Ew), Eo. reflexivity.
  - intros content Ew Eo En. rewrite (result_llm_path _ _ _ Ew), Eo.
    unfold chosen. rewrite En. destruct products; reflexivity.
  - intros ->. destruct (requestedWeight item) as [R|] eqn:Ew.
    + unfold result, selectBestProduct. rewrite run_tryCatch, Ew. reflexivity.
    + rewrite (result_llm_path _ _ _ Ew).
      destruct (oracle (selectionPrompt [] item)); [|reflexivity].
      rewrite chosen_nil. reflexivity.
Qed.

(** C4, as stated, fails: when the call to the collaborator fails, the
    result is none although the list has a first candidate. *)
Lemma collaborator_error_selects_nothing :
  let products := [ mkProduct "A" 1 None None None 0;
                    mkProduct "B" 2 None None None 0 ] in
  let unreachable := fun _ : string => @None string in
  requestedWeight "en burk tomater" = None /\
  result unreachable (selectBestProduct products "en burk tomater") = Some None /\
  result unreachable (selectBestProduct products "en burk tomater")
  <> Some (hd_error products).
Proof.
  vm_compute. repeat split. discriminate.
Qed.

(** C9.  [processIngredientDescription] sends one prompt; when the call
    fails it returns the ingredient as it was given, and no exception
    escapes; when the collaborator answers it returns the answer trimmed:
    the answer without a run of white space at each end, neither beginning
    nor ending with white space. *)
Theorem normalizer_trims_or_returns_ingredient
        (ingredient : string) (oracle : string -> option string) :
  run oracle (processIngredientDescription ingredient)
  = (Some (match oracle (ingredientPrompt ingredient) with
           | Some content => trim content
           | None => ingredient
           end),
     [ingredientPrompt ingredient]) /\
  (forall content,
      exists l r,
        content = l ++ trim content ++ r /\
        allb isSpace l = true /\ allb isSpace r = true /\
        clear isSpace (trim content) /\ clear isSpace (reverse (trim content))).
Proof.
  split; [|exact trim_spec].
  unfold processIngredientDescription. rewrite run_tryCatch.
  unfold result, requests. cbn [chat bind run].
  destruct (oracle (ingredientPrompt ingredient)); reflexivity.
Qed.

End ResponseFacts.

(* ================================================================== *)
(** * The quantity to buy *)

Module MainFacts.
Import JsString Regex Main StringFacts Binary64Facts WeightFacts.

Lemma forLoop_clickPlus (fuel : nat) (i n : Z) (c : Cart) :
  Z.of_nat fuel = n - i ->
  forLoop fuel i n clickPlus c =
  mkCart (mkProduct (title (inCart c)) (element (inCart c)) (price (inCart c))
                    (comparePrice (inCart c)) (displayVolume (inCart c))
                    (quantity (inCart c) + Z.of_nat fuel))
         (plusClicks c + fuel).
Proof.
  revert i c. induction fuel as [|fuel IH]; intros i c E.
  - simpl. rewrite Z.add_0_r, Nat.add_0_r. destruct c as [[] ?]. reflexivity.
  - cbn [forLoop]. replace (i <? n) with true by (symmetry; apply Z.ltb_lt; lia).
    rewrite IH by lia. unfold clickPlus, incrementQuantity. simpl.
    f_equal; [f_equal; lia|lia].
Qed.

Lemma scaled_back (r : Q) (u : Z) :
  0 < u -> ((r / inject_Z u) * inject_Z u == r)%Q.
Proof.
  intros Hu. rewrite Qmult_comm. apply Qmult_div_r.
  intros E. assert (H : (0 < inject_Z u)%Q) by (change (inject_Z 0 < inject_Z u)%Q; rewrite <- Zlt_Qlt; exact Hu).
  rewrite E in H. apply (Qlt_irrefl 0). exact H.
Qed.

(** The ceiling of the quotient, in exact arithmetic. *)
Lemma ceiling_bounds (u : Z) (r : Q) :
  0 < u ->
  let c := Qceiling (r / inject_Z u) in
  (inject_Z ((c - 1) * u) < r)%Q /\ (r <= inject_Z (c * u))%Q.
Proof.
  intros Hu c. subst c.
  assert (HU : (0 < inject_Z u)%Q) by (change (inject_Z 0 < inject_Z u)%Q; rewrite <- Zlt_Qlt; exact Hu).
  pose proof (Qceiling_lt (r / inject_Z u)) as Hlt.
  pose proof (Qle_ceiling (r / inject_Z u)) as Hle.
  rewrite !inject_Z_mult. split.
  - apply (Qmult_lt_r _ _ _ HU) in Hlt. rewrite (scaled_back r u Hu) in Hlt. exact Hlt.
  - apply (Qmult_le_r _ _ _ HU) in Hle. rewrite (scaled_back r u Hu) in Hle. exact Hle.
Qed.

Lemma ceiling_unique (u : Z) (r : Q) (k c : Z) :
  0 < u ->
  (inject_Z ((k - 1) * u) < r)%Q -> (r <= inject_Z (k * u))%Q ->
  (inject_Z ((c - 1) * u) < r)%Q -> (r <= inject_Z (c * u))%Q ->
  k = c.
Proof.
  intros Hu Hlo Hhi Clo Chi.
  assert (L1 : (inject_Z ((k - 1) * u) < inject_Z (c * u))%Q)
    by (eapply Qlt_le_trans; eassumption).
  assert (L2 : (inject_Z ((c - 1) * u) < inject_Z (k * u))%Q)
    by (eapply Qlt_le_trans; eassumption).
  rewrite <- Zlt_Qlt in L1, L2. nia.
Qed.

Lemma ceiling_positive (u : Z) (r : Q) :
  0 < u -> (0 < r)%Q -> 1 <= Qceiling (r / inject_Z u).
Proof.
  intros Hu Hr. destruct (ceiling_bounds u r Hu) as [_ Chi].
  assert (L : (inject_Z 0 < inject_Z (Qceiling (r / inject_Z u) * u))%Q)
    by (eapply Qlt_le_trans; [exact Hr|exact Chi]).
  rewrite <- Zlt_Qlt in L. nia.
Qed.

(** [Math.ceil] of the binary64 quotient is the ceiling of the quotient,
    unless the quotient underflows. *)
Lemma optimalQuantity_is_ceiling (u : Z) (r : Q) :
  Binary64.finite r -> 0 < u -> (inject_Z u <= r * inject_Z (2 ^ 1022))%Q ->
  optimalQuantity u r = Qceiling (r / inject_Z u).
Proof.
  intros Hf Hu Hn.
  destruct (ceiling_of_quotient r u Hf Hu Hn) as [Olo Ohi].
  destruct (ceiling_bounds u r Hu) as [Clo Chi].
  exact (ceiling_unique u r _ _ Hu Olo Ohi Clo Chi).
Qed.

(** The clicks that follow from it are those of the ceiling in any case:
    a quotient of at most 1 gives a count of 0 or 1, and no click. *)
Lemma clicks_of_optimalQuantity (u : Z) (r : Q) :
  Binary64.finite r -> 0 < u ->
  Z.to_nat (optimalQuantity u r - 1) = Z.to_nat (Qceiling (r / inject_Z u) - 1).
Proof.
  intros Hf Hu.
  pose proof (finite_positive r Hf) as Hr.
  assert (HU : (0 < inject_Z u)%Q)
    by (change (inject_Z 0 < inject_Z u)%Q; rewrite <- Zlt_Qlt; exact Hu).
  destruct (Qlt_le_dec (inject_Z u) r) as [Hbig|Hsmall].
  - rewrite (optimalQuantity_is_ceiling u r Hf Hu); [reflexivity|].
    apply Qlt_le_weak. eapply Qlt_le_trans; [exact Hbig|].
    rewrite <- (Qmult_1_r r) at 1.
    apply Qmult_le_l; [exact Hr|]. discriminate.
  - assert (Hq : (0 < r / inject_Z u)%Q).
    { apply Qlt_shift_div_l; [exact HU|]. rewrite Qmult_0_l. exact Hr. }
    assert (Hq1 : (r / inject_Z u <= inject_Z 1)%Q).
    { apply Qle_shift_div_r; [exact HU|]. rewrite Qmult_1_l. exact Hsmall. }
    assert (HC : Qceiling (r / inject_Z u) = 1).
    { destruct (ceiling_bounds u r Hu) as [Clo Chi].
      apply (ceiling_unique u r _ 1 Hu Clo Chi).
      - exact Hr.
      - rewrite Z.mul_1_l. exact Hsmall. }
    rewrite HC. unfold optimalQuantity.
    pose proof (round_le_integer _ 1 Hq Hq1) as Hle.
    pose proof (round_nonneg _ (Qlt_le_weak _ _ Hq)) as Hge.
    fold (Binary64.div r (inject_Z u)) in Hle, Hge.
    pose proof (Qceiling_resp_le _ _ Hle) as H1.
    rewrite Qceiling_Z in H1. lia.
Qed.

Lemma forLoop_clicks (n : Z) (c : Cart) :
  forLoop (Z.to_nat n) 0 n clickPlus c =
  mkCart (mkProduct (title (inCart c)) (element (inCart c)) (price (inCart c))
                    (comparePrice (inCart c)) (displayVolume (inCart c))
                    (quantity (inCart c) + Z.of_nat (Z.to_nat n)))
         (plusClicks c + Z.to_nat n).
Proof.
  destruct (Z.le_gt_cases 0 n) as [L|L].
  - apply forLoop_clickPlus. lia.
  - replace (Z.to_nat n) with 0%nat by lia.
    cbn [forLoop Z.of_nat]. rewrite Z.add_0_r, Nat.add_0_r.
    destruct c as [[] ?]. reflexivity.
Qed.

(** [main.ts] reads the two weights as [llm.ts] does. *)
Lemma extractWeightInformation_parsers (product : Product) (item : string) :
  extractWeightInformation product item =
  (Llm.productWeight product,
   match Llm.requestedWeight item with Some q => q | None => 0%Q end).
Proof.
  unfold extractWeightInformation, Llm.productWeight, Llm.requestedWeight.
  f_equal.
  - destruct (displayVolume product); reflexivity.
  - destruct (exec Llm.requirementRe item) as [m|]; [|reflexivity].
    destruct (String.eqb (toLowerCase (group 2 m)) "kg"
              || String.eqb (toLowerCase (group 2 m)) "kilo"); reflexivity.
Qed.

Lemma adjust_without_button (product : Product) (item : string) :
  adjustProductQuantity 0 product item = mkCart product 0.
Proof. reflexivity. Qed.

Lemma adjust_with_button (plusButtonCount : nat) (product : Product) (item : string)
      (u : Z) (r : Q) :
  extractWeightInformation product item = (u, r) ->
  plusButtonCount <> 0%nat ->
  adjustProductQuantity plusButtonCount product item =
  if (u =? 0) || Qeq_bool r 0 then mkCart product 0
  else forLoop (Z.to_nat (optimalQuantity u r - 1)) 0
               (optimalQuantity u r - 1) clickPlus (mkCart product 0).
Proof.
  intros Hw Hplus. unfold adjustProductQuantity.
  destruct (Nat.eqb_spec plusButtonCount 0) as [E|_]; [contradiction|].
  rewrite Hw. reflexivity.
Qed.

Lemma unknown_weight_guard (u : Z) (r : Q) :
  u = 0 \/ (r == 0)%Q -> (u =? 0) || Qeq_bool r 0 = true.
Proof.
  intros [->|Hz]; [reflexivity|].
  apply Qeq_bool_iff in Hz. rewrite Hz. apply orb_true_r.
Qed.

Lemma known_weight_guard (u : Z) (r : Q) :
  0 < u -> (0 < r)%Q -> (u =? 0) || Qeq_bool r 0 = false.
Proof.
  intros Hu Hr. apply orb_false_iff. split; [apply Z.eqb_neq; lia|].
  destruct (Qeq_bool r 0) eqn:E; [|reflexivity].
  apply Qeq_bool_iff in E. rewrite E in Hr. discriminate Hr.
Qed.

(** The required weight is a binary64: 0, or a positive number of at
    most 53 significant bits, or one of the numbers from 2^53 on. *)
Lemma requiredWeight_shape (product : Product) (item : string) (u : Z) (r : Q) :
  extractWeightInformation product item = (u, r) ->
  (r == 0)%Q \/ (inject_Z (2 ^ 53) <= r)%Q \/ Binary64.finite r.
Proof.
  unfold extractWeightInformation. intros [= _ <-].
  destruct (exec Llm.requirementRe item) as [m|]; [|left; reflexivity].
  destruct (String.eqb (toLowerCase (group 2 m)) "kg"
            || String.eqb (toLowerCase (group 2 m)) "kilo").
  - apply round_shape. apply Qmult_le_0_compat; [apply parseFloat_nonneg|discriminate].
  - unfold parseFloat. apply round_shape.
    unfold Qle. cbn [Qnum Qden]. rewrite Z.mul_1_r. cbn [Z.mul].
    apply decAcc_nonneg. apply parseInt_nonneg.
Qed.

(** C2, as amended.  Let [u] and [r] be the unit weight and the required
    weight read from the product and the shopping-list item, [r] being the
    binary64 the program holds, and let the product be in the cart with
    quantity 1.  If [u > 0] and [0 < r < 2^53], let [c] be the ceiling of
    [r / u]: it is the one integer with [(c-1)*u < r <= c*u], [c - 1] is not
    negative, the count the program computes in binary64 is [c] unless the
    quotient underflows, and, when the page shows a plus button, exactly
    [c - 1] clicks are requested and the quantity ends at [c].  If [u = 0] or
    [r = 0], no click is requested and the quantity stays 1.  When the page
    shows no plus button, no click is requested and the quantity stays 1.  In
    every case the quantity is one more than the number of clicks requested. *)
Theorem quantity_adjustment_with_plus_button
        (plusButtonCount : nat) (product : Product) (item : string)
        (u : Z) (r : Q) :
  extractWeightInformation product item = (u, r) ->
  quantity product = 1 ->
  let cart := adjustProductQuantity plusButtonCount product item in
  (0 < u -> (0 < r)%Q -> (r < inject_Z (2 ^ 53))%Q ->
     let c := Qceiling (r / inject_Z u) in
     (inject_Z ((c - 1) * u) < r)%Q /\ (r <= inject_Z (c * u))%Q /\
     (forall k, (inject_Z ((k - 1) * u) < r)%Q -> (r <= inject_Z (k * u))%Q -> k = c) /\
     0 <= c - 1 /\
     ((inject_Z u <= r * inject_Z (2 ^ 1022))%Q -> optimalQuantity u r = c) /\
     (plusButtonCount <> 0%nat ->
      plusClicks cart = Z.to_nat (c - 1) /\ quantity (inCart cart) = c)) /\
  (u = 0 \/ (r == 0)%Q ->
     plusClicks cart = 0%nat /\ quantity (inCart cart) = 1) /\
  (plusButtonCount = 0%nat ->
     plusClicks cart = 0%nat /\ quantity (inCart cart) = 1) /\
  quantity (inCart cart) = 1 + Z.of_nat (plusClicks cart).
Proof.
  intros Hw Hq cart.
  split; [|split; [|split]].
  - intros Hu Hr Hmax c. subst c.
    assert (Hf : Binary64.finite r).
    { destruct (requiredWeight_shape _ _ _ _ Hw) as [Hz|[Hbig|Hf]]; [| |exact Hf].
      - rewrite Hz in Hr. discriminate Hr.
      - exfalso. apply (Qlt_irrefl r). eapply Qlt_le_trans; eassumption. }
    destruct (ceiling_bounds u r Hu) as [Clo Chi].
    pose proof (ceiling_positive u r Hu Hr) as Hc.
    split; [exact Clo|]. split; [exact Chi|].
    split; [intros k Hlo Hhi; exact (ceiling_unique u r _ _ Hu Hlo Hhi Clo Chi)|].
    split; [lia|].
    split; [intros Hn; exact (optimalQuantity_is_ceiling u r Hf Hu Hn)|].
    intros Hplus. subst cart. rewrite (adjust_with_button _ _ _ u r Hw Hplus).
    rewrite (known_weight_guard u r Hu Hr).
    rewrite forLoop_clicks, (clicks_of_optimalQuantity u r Hf Hu).
    cbn [inCart plusClicks quantity]. rewrite Hq.
    split; [reflexivity|clear - Hc; lia].
  - intros Hz. subst cart. destruct plusButtonCount as [|n].
    + rewrite adjust_without_button. auto.
    + rewrite (adjust_with_button _ _ _ u r Hw) by discriminate.
      rewrite (unknown_weight_guard u r Hz). auto.
  - intros ->. subst cart. rewrite adjust_without_button. auto.
  - subst cart. destruct plusButtonCount as [|n].
    + rewrite adjust_without_button. cbn [inCart plusClicks]. rewrite Hq. reflexivity.
    + rewrite (adjust_with_button _ _ _ u r Hw) by discriminate.
      destruct ((u =? 0) || Qeq_bool r 0).
      * cbn [inCart plusClicks]. rewrite Hq. reflexivity.
      * rewrite forLoop_clicks. cbn [inCart plusClicks quantity]. rewrite Hq. lia.
Qed.

(** C2, as stated, fails when the page shows no plus button: a 500 g
    product bought for 2.5 kg needs 5 units, yet no click is requested and the
    quantity stays 1. *)
Lemma no_plus_button_no_adjustment :
  let product := addedToCart (mkProduct "Bananer" 0 None None (Some "500g") 0) in
  let cart := adjustProductQuantity 0 product "2.5 kg bananer" in
  fst (extractWeightInformation product "2.5 kg bananer") = 500 /\
  (snd (extractWeightInformation product "2.5 kg bananer") == 2500)%Q /\
  optimalQuantity 500 2500 = 5 /\
  plusClicks cart <> Z.to_nat (optimalQuantity 500 2500 - 1) /\
  quantity (inCart cart) <> optimalQuantity 500 2500.
Proof.
  vm_compute. repeat split; discriminate.
Qed.

End MainFacts.

(* ================================================================== *)
(** * The recipe parser *)

Module JsonLdFacts.
Import JsString JsonLd JsonLdSpec StringFacts.

Lemma isRecipeBlock_declares (block : json) :
  block <> JNull -> isRecipeBlock block = Ok (declaresRecipe block).
Proof.
  intros Hn. destruct block as [| | | | |members]; try reflexivity; [congruence|].
  unfold isRecipeBlock, declaresRecipe. simpl.
  destruct (lookup "@type" members) as [[]|]; reflexivity.
Qed.

Lemma findDirect_find (blocks : list json) :
  Forall (fun b => b <> JNull) blocks ->
  findDirect blocks = Ok (find declaresRecipe blocks).
Proof.
  induction 1 as [|b blocks Hb _ IH]; simpl; [reflexivity|].
  rewrite (isRecipeBlock_declares b Hb).
  destruct (declaresRecipe b); [reflexivity|exact IH].
Qed.

Lemma isNestedRecipe_object (value : json) :
  isNestedRecipe value = isRecipeObject value.
Proof.
  destruct value as [| | | | |members]; try reflexivity;
    unfold isNestedRecipe, isRecipeObject;
    destruct (lookup "@type" members) as [[]|]; reflexivity.
Qed.

Lemma scanValues_find (values : list json) :
  scanValues values None = find isRecipeObject values.
Proof.
  induction values as [|v values IH]; simpl; [reflexivity|].
  rewrite isNestedRecipe_object.
  destruct (isRecipeObject v); [reflexivity|exact IH].
Qed.

Lemma find_app {A : Type} (f : A -> bool) (l1 l2 : list A) :
  find f (l1 ++ l2)%list =
  match find f l1 with Some x => Some x | None => find f l2 end.
Proof.
  induction l1 as [|a l1 IH]; simpl; [reflexivity|].
  destruct (f a); [reflexivity|exact IH].
Qed.

(** The characters of a text block are no objects. *)
Lemma find_among_characters (l : list ascii) :
  find isRecipeObject (map (fun c => JStr (String c EmptyString)) l) = None.
Proof. induction l as [|c l IH]; [reflexivity|exact IH]. Qed.

Lemma ownValues_propertyValues (block : json) :
  find isRecipeObject (ownValues block) = find isRecipeObject (propertyValues block).
Proof.
  destruct block; try reflexivity. cbn [ownValues propertyValues].
  apply find_among_characters.
Qed.

(** The nested scan passes over every block, [null] included. *)
Lemma scanBlocks_find (blocks : list json) :
  scanBlocks blocks None = find isRecipeObject (flat_map propertyValues blocks).
Proof.
  induction blocks as [|b blocks IH]; simpl; [reflexivity|].
  rewrite find_app, scanValues_find, ownValues_propertyValues.
  destruct (find isRecipeObject (propertyValues b)); [reflexivity|exact IH].
Qed.

Lemma located_is_object (blocks : list json) (r : json) :
  locateRecipe blocks = Some r -> exists members, r = JObj members.
Proof.
  unfold locateRecipe. destruct (find declaresRecipe blocks) as [b|] eqn:E.
  - intros [= <-]. apply find_some in E. destruct E as [_ E].
    destruct b; try discriminate. eauto.
  - intros E'. apply find_some in E'. destruct E' as [_ E'].
    destruct r; try discriminate. eauto.
Qed.

(** A [null] block met before any block that declares Recipe makes the
    scan raise; [extractIngredientsFromJsonLd] then returns the empty list. *)
Lemma findRecipeData_null_block (before after : list json) :
  Forall (fun b => b <> JNull) before ->
  find declaresRecipe before = None ->
  findRecipeData (before ++ JNull :: after)%list = Raise /\
  ingredientsOfBlocks (before ++ JNull :: after)%list = [].
Proof.
  intros Hb Hn.
  assert (E : findDirect (before ++ JNull :: after)%list = Raise).
  { induction Hb as [|b before Hb _ IH]; [reflexivity|].
    simpl in Hn. cbn [app findDirect]. rewrite (isRecipeBlock_declares b Hb).
    destruct (declaresRecipe b); [discriminate|]. apply IH. exact Hn. }
  unfold ingredientsOfBlocks, findRecipeData. rewrite E. auto.
Qed.

Lemma located_without_null (blocks : list json) :
  Forall (fun b => b <> JNull) blocks ->
  findRecipeData blocks = Ok (locateRecipe blocks).
Proof.
  intros Hb. unfold findRecipeData, locateRecipe. rewrite (findDirect_find blocks Hb).
  destruct (find declaresRecipe blocks); [reflexivity|].
  rewrite scanBlocks_find. reflexivity.
Qed.

Lemma ingredients_of_located (blocks : list json) (recipe : json) :
  locateRecipe blocks = Some recipe ->
  extractIngredients recipe = Ok (ingredientList recipe).
Proof.
  intros Hr. destruct (located_is_object _ _ Hr) as (members & ->).
  unfold extractIngredients, ingredientList. simpl.
  destruct (lookup "recipeIngredient" members) as [[]|];
    try reflexivity;
    destruct (lookup "ingredients" members) as [[]|]; reflexivity.
Qed.

(** C8.  On blocks none of which is [null], [findRecipeData] returns the
    first top-level block whose [@type] is Recipe or is an array that
    includes Recipe, and only when there is none the first object of
    [@type] Recipe among the values one level deeper; the ingredients are
    then the [recipeIngredient] list of that object, or its [ingredients]
    list when [recipeIngredient] is absent or not a list, and the empty
    list when no Recipe object is found or it has neither list.  A [null]
    block, which the script text null gives, breaks this: the top-level
    scan reads [block['@type']] of every block it meets and raises on
    [null], so that a Recipe block that follows is not located and the
    extractor returns the empty list.  The nested scan has no such fault:
    it passes over a [null] block and skips a [null] value. *)
Theorem recipe_located_top_level_then_nested :
  (forall blocks,
     Forall (fun b => b <> JNull) blocks ->
     findRecipeData blocks = Ok (locateRecipe blocks) /\
     (forall recipe, locateRecipe blocks = Some recipe ->
                     extractIngredients recipe = Ok (ingredientList recipe)) /\
     ingredientsOfBlocks blocks =
       match locateRecipe blocks with
       | Some recipe => ingredientList recipe
       | None => []
       end) /\
  (forall before after,
     Forall (fun b => b <> JNull) before ->
     find declaresRecipe before = None ->
     findRecipeData (before ++ JNull :: after)%list = Raise /\
     ingredientsOfBlocks (before ++ JNull :: after)%list = []) /\
  (forall ingredients,
     let recipe := JObj [("@type", JStr "Recipe");
                         ("recipeIngredient", JArr ingredients)] in
     locateRecipe [JNull; recipe] = Some recipe /\
     ingredientList recipe = ingredients /\
     ingredientsOfBlocks [recipe] = ingredients /\
     ingredientsOfBlocks [JNull; recipe] = []) /\
  (forall blocks,
     scanBlocks blocks None = find isRecipeObject (flat_map propertyValues blocks)) /\
  (forall values, scanValues (JNull :: values) None = scanValues values None).
Proof.
  split; [|split; [|split; [|split]]].
  - intros blocks Hb.
    pose proof (located_without_null blocks Hb) as E1.
    split; [exact E1|]. split; [apply ingredients_of_located|].
    unfold ingredientsOfBlocks. rewrite E1.
    destruct (locateRecipe blocks) as [recipe|] eqn:El; [|reflexivity].
    rewrite (ingredients_of_located blocks recipe El). reflexivity.
  - exact findRecipeData_null_block.
  - intros ingredients recipe. repeat split; reflexivity.
  - exact scanBlocks_find.
  - reflexivity.
Qed.

Lemma filter_filter {A : Type} (f g : A -> bool) (l : list A) :
  filter f (filter g l) = filter (fun x => g x && f x) l.
Proof.
  induction l as [|a l IH]; simpl; [reflexivity|].
  destruct (g a); simpl; [destruct (f a); rewrite IH; reflexivity|exact IH].
Qed.

Lemma shouldExclude_iff (excl : list string) (i : string) :
  shouldExcludeIngredient excl i = true <->
  exists e, In e excl /\ occursIgnoringCase e i.
Proof.
  unfold shouldExcludeIngredient, occursIgnoringCase. rewrite existsb_exists.
  split; intros (e & He & H); exists e; (split; [exact He|]);
    apply includes_iff; exact H.
Qed.

Lemma existsb_over_map {A B : Type} (f : B -> bool) (g : A -> B) (l : list A) :
  existsb f (map g l) = existsb (fun x => f (g x)) l.
Proof. induction l as [|a l IH]; simpl; [reflexivity|rewrite IH; reflexivity]. Qed.

Lemma shouldExclude_case (excl excl' : list string) (i i' : string) :
  map toLowerCase excl = map toLowerCase excl' ->
  toLowerCase i = toLowerCase i' ->
  shouldExcludeIngredient excl i = shouldExcludeIngredient excl' i'.
Proof.
  intros Ee Ei. unfold shouldExcludeIngredient. rewrite Ei.
  rewrite <- (existsb_over_map (includes (toLowerCase i')) toLowerCase excl).
  rewrite <- (existsb_over_map (includes (toLowerCase i')) toLowerCase excl').
  rewrite Ee. reflexivity.
Qed.

(** C7.  The filter keeps, in their original order, exactly the ingredients
    that are not empty and in which no exclusion word occurs when case is
    ignored; whether an ingredient is excluded does not change when the
    ingredient or the exclusion words are written in another case, for
    instance all in lower case. *)
Theorem exclusion_filter_case_insensitive (excl : list string) (ingredients : list string) :
  (exists keep : string -> bool,
      filteredIngredients excl ingredients = filter keep ingredients /\
      forall i, keep i = true <->
                (i <> "" /\ forall e, In e excl -> ~ occursIgnoringCase e i)) /\
  (forall excl' i i',
      map toLowerCase excl = map toLowerCase excl' ->
      toLowerCase i = toLowerCase i' ->
      shouldExcludeIngredient excl i = shouldExcludeIngredient excl' i') /\
  (forall i,
      shouldExcludeIngredient excl i
      = shouldExcludeIngredient (map toLowerCase excl) (toLowerCase i)).
Proof.
  split; [|split; [intros excl' i i'; apply shouldExclude_case|]].
  2:{ intros i. apply shouldExclude_case.
      - rewrite map_map. apply map_ext. intros e.
        symmetry. apply toLowerCase_idempotent.
      - symmetry. apply toLowerCase_idempotent. }
  exists (fun i => (truthy i && (0 <? String.length i)%nat)
                   && negb (shouldExcludeIngredient excl i)).
  split.
  - unfold filteredIngredients. apply filter_filter.
  - intros i. rewrite !andb_true_iff, negb_true_iff. split.
    + intros [[Ht _] Hx]. split.
      * intros ->. discriminate Ht.
      * intros e He Ho.
        assert (shouldExcludeIngredient excl i = true)
          by (apply shouldExclude_iff; exists e; auto).
        congruence.
    + intros [Hne Hno]. split; [split|].
      * unfold truthy. destruct (String.eqb_spec i ""); [contradiction|reflexivity].
      * destruct i; [congruence|reflexivity].
      * destruct (shouldExcludeIngredient excl i) eqn:E; [|reflexivity].
        apply shouldExclude_iff in E. destruct E as (e & He & Ho).
        exfalso. exact (Hno e He Ho).
Qed.

End JsonLdFacts.

(* ================================================================== *)
(** * The theorems at concrete inputs, and the scenarios of the
      specification *)

Module Scenarios.
Import JsString Regex Effect Llm LlmSpec Main JsonLd JsonLdSpec Samples.

Lemma select_by_weight_first_minimal_sufficient_witness :
  potatoes <> [] /\
  requestedWeight "4.03 kg potatis" = Some fourKiloThirty /\
  (0 < fourKiloThirty)%Q /\
  (inject_Z 4030 < fourKiloThirty)%Q /\
  selectBestProduct potatoes "4.03 kg potatis" = Ret (Some (potato 1 "5 kg")) /\
  sufficient fourKiloThirty (potato 1 "5 kg") /\
  ~ sufficient fourKiloThirty (potato 0 "4030g").
Proof.
  assert (Hs : sufficient fourKiloThirty (potato 1 "5 kg"))
    by (vm_compute; discriminate).
  split; [discriminate|]. split; [vm_compute; reflexivity|].
  split; [reflexivity|]. split; [reflexivity|].
  destruct (LlmFacts.select_by_weight_first_minimal_sufficient
              potatoes "4.03 kg potatis" fourKiloThirty)
    as (l1 & p & l2 & _ & E & _ & Hmin & _).
  - discriminate.
  - vm_compute. reflexivity.
  - reflexivity.
  - assert (Ep : potato 1 "5 kg" = p).
    { pose proof E as E'. vm_compute in E'. injection E' as E'. exact E'. }
    destruct Hmin as (Hp & _).
    + exists (potato 1 "5 kg"). split; [right; left; reflexivity|exact Hs].
    + rewrite <- Ep in E, Hp. split; [exact E|]. split; [exact Hp|].
      vm_compute. intros H. apply H. reflexivity.
Defined.

Lemma select_by_weight_all_zero_picks_first_witness :
  requestedWeight "2.5 kg bananer" = Some 2500%Q /\
  (0 < 2500)%Q /\
  (forall q, In q [banana 0 "en klase"; banana 1 "2 st"] -> productWeight q = 0) /\
  selectBestProduct [banana 0 "en klase"; banana 1 "2 st"] "2.5 kg bananer"
  = Ret (Some (banana 0 "en klase")).
Proof.
  assert (H : forall q, In q [banana 0 "en klase"; banana 1 "2 st"] ->
                        productWeight q = 0)
    by (intros q [<-|[<-|[]]]; reflexivity).
  split; [vm_compute; reflexivity|]. split; [reflexivity|]. split; [exact H|].
  apply (LlmFacts.select_by_weight_all_zero_picks_first
           (banana 0 "en klase") [banana 1 "2 st"] "2.5 kg bananer" 2500%Q).
  - vm_compute. reflexivity.
  - reflexivity.
  - exact H.
Defined.

Lemma quantity_adjustment_with_plus_button_witness :
  let product := addedToCart (banana 0 "130g") in
  extractWeightInformation product "4.03 kg bananer" = (130, fourKiloThirty) /\
  quantity product = 1 /\
  0 < 130 /\ (0 < fourKiloThirty)%Q /\ (fourKiloThirty < inject_Z (2 ^ 53))%Q /\
  1%nat <> 0%nat /\
  Qceiling (fourKiloThirty / inject_Z 130) = 32 /\
  optimalQuantity 130 fourKiloThirty = 32 /\
  plusClicks (adjustProductQuantity 1 product "4.03 kg bananer") = 31%nat /\
  quantity (inCart (adjustProductQuantity 1 product "4.03 kg bananer")) = 32.
Proof.
  intros product.
  assert (Hc : Qceiling (fourKiloThirty / inject_Z 130) = 32)
    by (vm_compute; reflexivity).
  split; [vm_compute; reflexivity|]. split; [reflexivity|].
  split; [reflexivity|]. split; [reflexivity|]. split; [reflexivity|].
  split; [discriminate|]. split; [exact Hc|].
  destruct (MainFacts.quantity_adjustment_with_plus_button
              1 product "4.03 kg bananer" 130 fourKiloThirty)
    as (Hpos & _).
  - vm_compute. reflexivity.
  - reflexivity.
  - destruct Hpos as (_ & _ & _ & _ & Ho & Hq);
      [reflexivity|reflexivity|reflexivity|].
    rewrite Hc in Ho, Hq. split; [apply Ho; vm_compute; discriminate|].
    apply Hq. discriminate.
Defined.

Lemma response_strategies_tried_in_order_witness :
  number (lastLineMatch ("Product 2 is cheaper, product 3 is larger." ++ nl
                           ++ "Answer: 3.")) 1 = Some 3 /\
  number (exec productPhraseRe "I would take product 2 of these 3.") 1 = Some 2 /\
  number (exec anyNumberRe "a1 b2c 3d e_4 5") 1 = Some 5.
Proof.
  destruct (ResponseFacts.response_strategies_tried_in_order jars "3")
    as (_ & Hlast & _ & _ & Hphrase & _ & _ & _ & Htoken & _).
  split; [|split].
  - apply (Hlast ("Product 2 is cheaper, product 3 is larger." ++ nl)
                 "Answer: " "3" "." "").
    + right. exists "Product 2 is cheaper, product 3 is larger.". reflexivity.
    + reflexivity.
    + reflexivity.
    + reflexivity.
    + discriminate.
    + reflexivity.
    + reflexivity.
  - rewrite Hphrase. vm_compute. reflexivity.
  - rewrite Htoken. vm_compute. reflexivity.
Defined.

Lemma selection_falls_back_to_first_or_none_witness :
  let prose := fun _ : string => Some "I cannot decide between them." in
  requestedWeight "en burk tomater" = None /\
  prose (selectionPrompt jars "en burk tomater")
  = Some "I cannot decide between them." /\
  firstInRange jars (extracted (trim "I cannot decide between them.")) = None /\
  result prose (selectBestProduct jars "en burk tomater") = Some (hd_error jars).
Proof.
  intros prose.
  split; [vm_compute; reflexivity|]. split; [reflexivity|].
  split; [vm_compute; reflexivity|].
  apply (proj1 (proj2 (proj2
           (ResponseFacts.selection_falls_back_to_first_or_none
              jars "en burk tomater" prose)))
           "I cannot decide between them.").
  - vm_compute. reflexivity.
  - reflexivity.
  - vm_compute. reflexivity.
Defined.

Lemma response_selection_total_and_in_range_witness :
  inRange (parseInt (group 1 [(0%nat, "7"); (1%nat, "7")]) - 1) jars = false /\
  step (Some [(0%nat, "7"); (1%nat, "7")]) 1 jars (Ret None) = Ret None.
Proof.
  split; [reflexivity|].
  apply (proj2 (proj2 (ResponseFacts.response_selection_total_and_in_range jars "7"))).
  reflexivity.
Defined.

Lemma candidate_weight_whole_number_g_or_kg_witness :
  productWeight (banana 0 "2 x 170 G") = 170 /\
  productWeight (banana 0 "ca: 170g") = 170 /\
  productWeight (banana 1 "2 st") = 0 /\
  requestedWeight "ca 400 Gram socker" = Some (inject_Z 400) /\
  requestedWeight "ca 4.03 kilo potatis" = Some fourKiloThirty.
Proof.
  destruct WeightFacts.candidate_weight_whole_number_g_or_kg
    as (Hfirst & _ & _ & _ & Hnone & Hvolume & Hwhole & Hdecimal & _).
  split; [|split; [|split; [|split]]].
  - refine (eq_trans (Hfirst (banana 0 "2 x 170 G")) _). vm_compute. reflexivity.
  - apply (proj1 (Hvolume (banana 0 "ca: 170g") "ca: " "170" "" "g" ""
                          eq_refl eq_refl ltac:(discriminate) eq_refl eq_refl)).
    reflexivity.
  - apply (Hnone (banana 1 "2 st") "" "2" " " "st"); reflexivity.
  - apply (proj1 (Hwhole "ca " "400" " " "Gram" " socker"
                         eq_refl eq_refl ltac:(discriminate) eq_refl)).
    right. reflexivity.
  - refine (eq_trans
              (proj2 (Hdecimal "ca " "4" "03" " " "kilo" " potatis"
                               eq_refl eq_refl ltac:(discriminate) eq_refl eq_refl)
                     (or_intror eq_refl)) _).
    vm_compute. reflexivity.
Defined.

Lemma exclusion_filter_case_insensitive_witness :
  map toLowerCase ["salt"] = map toLowerCase ["SALT"] /\
  toLowerCase "1 tsk Havssalt" = toLowerCase "1 TSK HAVSSALT" /\
  shouldExcludeIngredient ["salt"] "1 tsk Havssalt"
  = shouldExcludeIngredient ["SALT"] "1 TSK HAVSSALT".
Proof.
  split; [reflexivity|]. split; [reflexivity|].
  apply (proj1 (proj2 (JsonLdFacts.exclusion_filter_case_insensitive ["salt"] []))).
  - reflexivity.
  - reflexivity.
Defined.

Lemma recipe_located_top_level_then_nested_witness :
  let blocks := [JObj [("@type", JStr "WebSite")]; pageBlock] in
  Forall (fun b => b <> JNull) blocks /\
  locateRecipe blocks = Some recipeBlock /\
  findRecipeData blocks = Ok (Some recipeBlock) /\
  ingredientsOfBlocks blocks
  = [JStr ("500g vetemj" ++ oe ++ "l"); JStr "1 burk tomater"] /\
  findRecipeData [JNull; recipeBlock] = Raise /\
  ingredientsOfBlocks [JNull; recipeBlock] = [].
Proof.
  intros blocks.
  assert (H : Forall (fun b => b <> JNull) blocks)
    by (repeat constructor; discriminate).
  destruct JsonLdFacts.recipe_located_top_level_then_nested as (Hgood & Hnull & _).
  destruct (Hgood blocks H) as (E1 & _ & E3).
  split; [exact H|]. split; [reflexivity|]. split; [exact E1|]. split; [exact E3|].
  exact (Hnull [] [recipeBlock] (Forall_nil _) eq_refl).
Defined.

(** Scenario A: nothing reaches 2500 g, the 500 g candidate is taken and five
    units are bought. *)
Example scenario_A :
  selectBestProduct bananas "2.5 kg bananer" = Ret (Some (banana 2 "500g")) /\
  optimalQuantity 500 2500 = 5 /\
  quantity (inCart (adjustProductQuantity 1 (addedToCart (banana 2 "500g"))
                                          "2.5 kg bananer")) = 5.
Proof. vm_compute. auto. Qed.

(** Scenario B: no weight in the item, the answer ends with the line 3. *)
Example scenario_B :
  let answer := fun _ : string =>
    Some ("The third one is the best match." ++ nl ++ "3") in
  requestedWeight "en burk tomater" = None /\
  result answer (selectBestProduct jars "en burk tomater") = Some (nth_error jars 2).
Proof. vm_compute. auto. Qed.

(** Scenario C: prose without any digit, the first candidate is taken. *)
Example scenario_C :
  let answer := fun _ : string => Some "All of them look fine to me." in
  result answer (selectBestProduct jars "en burk tomater") = Some (nth_error jars 0).
Proof. vm_compute. auto. Qed.

(** Scenario D: a top-level Recipe block, neither ingredient is excluded. *)
Example scenario_D :
  ingredientsOfBlocks [recipeBlock]
  = [JStr ("500g vetemj" ++ oe ++ "l"); JStr "1 burk tomater"] /\
  filteredIngredients ["salt"] ["500g vetemj" ++ oe ++ "l"; "1 burk tomater"]
  = ["500g vetemj" ++ oe ++ "l"; "1 burk tomater"].
Proof. vm_compute. auto. Qed.

(** The exclusion list of the configuration file at work. *)
Example exclusion_by_configuration :
  filteredIngredients configExcludeIngredients
    [ "2 dl Vatten"; "1 kg potatis"; ""; "Sm" ++ oe ++ "r till stekning";
      "1 krm SALT"; "3 morotter" ]
  = ["1 kg potatis"; "3 morotter"].
Proof. vm_compute. reflexivity. Qed.

End Scenarios.

(* ================================================================== *)
(** * More about the selection *)

Module SelectionFacts.
Import JsString Regex Effect Llm LlmSpec StringFacts RegexFacts.
Import LlmFacts ResponseFacts.

Lemma run_bind {A B : Type} (oracle : string -> option string)
      (m : prog A) (f : A -> prog B) :
  run oracle (bind m f) =
  match run oracle m with
  | (Some a, log) => let (r, log') := run oracle (f a) in (r, (log ++ log')%list)
  | (None, log) => (None, log)
  end.
Proof.
  induction m as [a| |q k IH]; cbn [bind run].
  - destruct (run oracle (f a)). reflexivity.
  - reflexivity.
  - rewrite IH. destruct (run oracle (k (oracle q))) as [[a|] log].
    + destruct (run oracle (f a)). reflexivity.
    + reflexivity.
Qed.

Lemma chosen_In (products : list Product) (numbers : list (option Z)) (p : Product) :
  chosen products numbers = Some p -> In p products.
Proof.
  unfold chosen. destruct (firstInRange products numbers); apply nth_error_In.
Qed.

Lemma selectByWeight_value (products : list Product) (R : Q) :
  (products = [] /\ selectByWeight products R = Throw) \/
  (exists p, In p products /\ selectByWeight products R = Ret (Some p)).
Proof.
  destruct products as [|a products]; [left; auto|right].
  destruct (selectByWeight_spec (a :: products) R) as (l1 & p & l2 & El & Es & _);
    [discriminate|].
  exists p. split; [|exact Es]. rewrite El. apply in_or_app. right. left. reflexivity.
Qed.

(** What a run of [selectBestProduct] gives: a value, never an exception,
    and the prompts it sent. *)
Lemma selectBestProduct_run (products : list Product) (item : string)
      (oracle : string -> option string) :
  exists r,
    run oracle (selectBestProduct products item) =
    (Some r, match requestedWeight item with
             | Some _ => []
             | None => [selectionPrompt products item]
             end) /\
    (forall p, r = Some p -> In p products).
Proof.
  unfold selectBestProduct. rewrite run_tryCatch.
  destruct (requestedWeight item) as [R|].
  - destruct (selectByWeight_value products R) as [[_ E]|(q & Hq & E)]; rewrite E.
    + exists None. split; [reflexivity|discriminate].
    + exists (Some q). split; [reflexivity|]. intros p [= <-]. exact Hq.
  - unfold result, requests. cbn [chat bind run].
    destruct (oracle (selectionPrompt products item)) as [content|].
    + cbn [bind]. rewrite fromResponse_chosen. cbn [run fst snd].
      eexists. split; [reflexivity|]. intros p E. exact (chosen_In _ _ _ E).
    + exists None. split; [reflexivity|discriminate].
Qed.

(** X1.  Whatever the collaborator answers, a product returned by
    [selectBestProduct] is one of the candidates it was given. *)
Theorem selected_product_is_a_candidate
        (products : list Product) (item : string)
        (oracle : string -> option string) (p : Product) :
  result oracle (selectBestProduct products item) = Some (Some p) ->
  In p products.
Proof.
  destruct (requestedWeight item) as [R|] eqn:Ew.
  - unfold result, selectBestProduct. rewrite run_tryCatch, Ew. cbn [fst].
    destruct (selectByWeight_value products R) as [[_ E]|(q & Hq & E)]; rewrite E.
    + discriminate.
    + cbn. intros [= <-]. exact Hq.
  - rewrite (result_llm_path _ _ _ Ew).
    destruct (oracle (selectionPrompt products item)); [|discriminate].
    intros [= E]. exact (chosen_In _ _ _ E).
Qed.

(** X2.  [selectBestProduct] consults the collaborator exactly when the item
    states no weight: then it sends one prompt, the selection prompt, also
    for an empty list of candidates; when the item states a weight it sends
    none. *)
Theorem collaborator_consulted_only_without_weight
        (products : list Product) (item : string)
        (oracle : string -> option string) :
  requests oracle (selectBestProduct products item) =
  match requestedWeight item with
  | Some _ => []
  | None => [selectionPrompt products item]
  end.
Proof.
  unfold requests at 1. unfold selectBestProduct. rewrite run_tryCatch. cbn [snd].
  destruct (requestedWeight item) as [R|].
  - destruct (selectByWeight_value products R) as [[_ E]|(q & _ & E)];
      rewrite E; reflexivity.
  - unfold requests. cbn [chat bind run].
    destruct (oracle (selectionPrompt products item)) as [content|].
    + cbn [bind]. rewrite fromResponse_chosen. reflexivity.
    + reflexivity.
Qed.

Lemma decAcc_of_uint (d : Decimal.uint) (acc : nat) :
  decAcc (Z.of_nat acc) (NilEmpty.string_of_uint d) = Z.of_nat (Nat.of_uint_acc d acc).
Proof.
  revert acc.
  induction d as [|d IH|d IH|d IH|d IH|d IH|d IH|d IH|d IH|d IH|d IH]; intros acc;
    [reflexivity|..];
    cbn [NilEmpty.string_of_uint decAcc Nat.of_uint_acc]; rewrite <- IH; f_equal;
    rewrite Nat.tail_mul_spec; vm_compute (Z.of_N _); lia.
Qed.

Lemma parseInt_ofNat (n : nat) : parseInt (ofNat n) = Z.of_nat n.
Proof.
  unfold parseInt, ofNat.
  pose proof (decAcc_of_uint (Nat.to_uint n) 0) as H. cbn [Z.of_nat] in H.
  rewrite H.
  change (Nat.of_uint_acc (Nat.to_uint n) 0) with (Nat.of_uint (Nat.to_uint n)).
  rewrite DecimalNat.Unsigned.of_to. reflexivity.
Qed.

Lemma digits_string_of_uint (d : Decimal.uint) :
  allb isDigit (NilEmpty.string_of_uint d) = true.
Proof. induction d; simpl; [reflexivity|..]; exact IHd. Qed.

Lemma digits_ofNat (n : nat) : allb isDigit (ofNat n) = true.
Proof. apply digits_string_of_uint. Qed.

Lemma ofNat_not_empty (n : nat) : ofNat n <> "".
Proof.
  unfold ofNat. intros E.
  assert (Hn : Nat.to_uint n = Decimal.Nil)
    by (destruct (Nat.to_uint n); simpl in E; congruence).
  pose proof (DecimalNat.Unsigned.to_of (Nat.to_uint n)) as H.
  rewrite DecimalNat.Unsigned.of_to, Hn in H. discriminate H.
Qed.

Lemma dropWhile_run (p : ascii -> bool) (l t : string) :
  allb p l = true -> dropWhile p (l ++ t) = dropWhile p t.
Proof.
  induction l as [|c l IH]; simpl; [reflexivity|].
  intros H. apply andb_true_iff in H. destruct H as [Hc Hl]. rewrite Hc. auto.
Qed.

Lemma dropWhile_all (p : ascii -> bool) (l : string) :
  allb p l = true -> dropWhile p l = "".
Proof. intros H. apply (takeWhile_all p l H). Qed.

(** [trim] is determined by a decomposition into white space, a text that
    neither begins nor ends with white space, and white space. *)
Lemma trim_unique (l m r : string) :
  allb isSpace l = true -> allb isSpace r = true ->
  clear isSpace m -> clear isSpace (reverse m) ->
  trim (l ++ m ++ r) = m.
Proof.
  intros Hl Hr Hm Hm'. unfold trim. rewrite (dropWhile_run _ _ _ Hl).
  destruct m as [|c m].
  - simpl. rewrite (dropWhile_all _ _ Hr). reflexivity.
  - rewrite (dropWhile_clear isSpace (String c m ++ r)) by exact Hm.
    rewrite reverse_append, dropWhile_run by (rewrite allb_reverse; exact Hr).
    rewrite (dropWhile_clear _ _ Hm'). apply reverse_involutive.
Qed.

Lemma clear_reverse_digits (a ds : string) :
  allb isDigit ds = true -> ds <> "" -> clear isSpace (reverse (a ++ ds)).
Proof.
  intros Hd Hne. rewrite reverse_append.
  assert (Hr : allb isDigit (reverse ds) = true) by (rewrite allb_reverse; exact Hd).
  destruct (reverse ds) as [|c rd] eqn:E.
  - exfalso. apply Hne. rewrite <- (reverse_involutive ds), E. reflexivity.
  - simpl in Hr. apply andb_true_iff in Hr. simpl. apply isDigit_not_space. tauto.
Qed.

Lemma lastLine_only_digits (ds : string) :
  allb isDigit ds = true -> ds <> "" ->
  number (lastLineMatch ds) 1 = Some (parseInt ds).
Proof.
  intros Hd Hne. unfold lastLineMatch.
  rewrite (splitLines_digits ds Hd). cbn [filter]. rewrite (trim_digits ds Hd).
  destruct ds as [|c ds']; [congruence|]. cbn [String.length Nat.ltb Nat.leb pop].
  rewrite (digits_match _ Hd Hne). reflexivity.
Qed.

(** A text that ends, white space apart, with a line of digits: its first
    strategy gives the number of that line. *)
Lemma trimmed_last_line (before ds tail : string) :
  before = "" \/ (exists reasoning, before = reasoning ++ nl) ->
  allb isDigit ds = true -> ds <> "" -> allb isSpace tail = true ->
  number (lastLineMatch (trim (before ++ ds ++ tail))) 1 = Some (parseInt ds).
Proof.
  intros Hb Hd Hne Ht.
  destruct Hb as [->|(reasoning & ->)].
  - rewrite (trim_unique "" ds tail); auto.
    + apply lastLine_only_digits; assumption.
    + apply clear_space_digits. exact Hd.
    + apply (clear_reverse_digits "" ds Hd Hne).
  - rewrite <- (take_drop isSpace reasoning).
    destruct (dropWhile isSpace reasoning) as [|c b] eqn:Eb.
    + rewrite append_nil_r.
      rewrite (trim_unique (takeWhile isSpace reasoning ++ nl) ds tail); auto.
      * apply lastLine_only_digits; assumption.
      * rewrite allb_append, allb_takeWhile. reflexivity.
      * apply clear_space_digits. exact Hd.
      * apply (clear_reverse_digits "" ds Hd Hne).
    + replace (((takeWhile isSpace reasoning ++ String c b) ++ nl) ++ ds ++ tail)
        with (takeWhile isSpace reasoning ++ (String c b ++ nl ++ ds) ++ tail)
        by (rewrite !append_assoc; reflexivity).
      rewrite trim_unique; auto.
      * apply lastLine_digits; assumption.
      * apply allb_takeWhile.
      * pose proof (clear_dropWhile isSpace reasoning) as H. rewrite Eb in H. exact H.
      * replace (String c b ++ nl ++ ds) with ((String c b ++ nl) ++ ds)
          by (rewrite append_assoc; reflexivity).
        apply clear_reverse_digits; assumption.
Qed.

Lemma chosen_first_number (products : list Product) (n : Z) (rest : list (option Z))
      (i : nat) (p : Product) :
  n = Z.of_nat (i + 1) -> nth_error products i = Some p ->
  chosen products (Some n :: rest) = Some p.
Proof.
  intros -> Hp. unfold chosen. cbn [firstInRange].
  assert (Hi : (i < List.length products)%nat)
    by (apply nth_error_Some; congruence).
  replace (inRange (Z.of_nat (i + 1) - 1) products) with true.
  - replace (Z.to_nat (Z.of_nat (i + 1) - 1)) with i by lia. exact Hp.
  - symmetry. unfold inRange. apply andb_true_iff. split.
    + apply Z.leb_le. lia.
    + apply Z.ltb_lt. lia.
Qed.

(** X3.  The numbers of the listing and the parser of the answer fit
    together: when the item states no weight and the answer of the
    collaborator ends, white space apart, with a line that holds only the
    number [i + 1], whatever reasoning comes before, [selectBestProduct]
    returns the candidate at position [i], the one the listing shows under
    that number. *)
Theorem numbered_last_line_selects_that_product
        (products : list Product) (item : string)
        (oracle : string -> option string)
        (before tail : string) (i : nat) (p : Product) :
  requestedWeight item = None ->
  nth_error products i = Some p ->
  before = "" \/ (exists reasoning, before = reasoning ++ nl) ->
  allb isSpace tail = true ->
  oracle (selectionPrompt products item) = Some (before ++ ofNat (i + 1) ++ tail) ->
  result oracle (selectBestProduct products item) = Some (Some p).
Proof.
  intros Ew Hp Hb Ht Eo. rewrite (result_llm_path _ _ _ Ew), Eo. f_equal.
  unfold extracted.
  rewrite (trimmed_last_line before (ofNat (i + 1)) tail Hb
             (digits_ofNat _) (ofNat_not_empty _) Ht).
  apply (chosen_first_number _ _ _ i); [apply parseInt_ofNat|exact Hp].
Qed.

Lemma single_digit_seen_by_first_strategy (text : string) (n : Z) :
  number (exec singleDigitRe text) 0 = Some n ->
  number (lastLineMatch text) 1 = Some n.
Proof.
  intros H.
  assert (Hm : exec singleDigitRe text <> None)
    by (destruct (exec singleDigitRe text); [discriminate|discriminate H]).
  apply singleDigit_whole_text in Hm. destruct Hm as (c & -> & Hc).
  rewrite (singleDigit_number c Hc) in H. injection H as <-.
  apply lastLine_only_digits; [|discriminate].
  simpl. rewrite andb_true_r.
  destruct c as [[] [] [] [] [] [] [] []]; vm_compute in Hc |- *; congruence.
Qed.

(** X4.  The third strategy, the answer that is one digit from 1 to 9,
    never decides: such an answer is its own last line, so the first
    strategy has read the same number before.  [fromResponse] returns what
    the chain of the other three strategies returns. *)
Theorem single_digit_strategy_never_decides
        (products : list Product) (content : string) :
  fromResponse products content =
  Ret (chosen products
         [ number (lastLineMatch (trim content)) 1;
           number (exec productPhraseRe (trim content)) 1;
           number (exec anyNumberRe (trim content)) 1 ]).
Proof.
  rewrite fromResponse_chosen. f_equal. unfold chosen, extracted.
  cbn [firstInRange].
  destruct (number (exec singleDigitRe (trim content)) 0) as [n|] eqn:E3;
    [|reflexivity].
  rewrite (single_digit_seen_by_first_strategy _ _ E3).
  destruct (inRange (n - 1) products); [reflexivity|].
  destruct (number (exec productPhraseRe (trim content)) 1) as [m|]; [|reflexivity].
  destruct (inRange (m - 1) products); reflexivity.
Qed.

Lemma listing_split (index : nat) (l1 l2 : list Product) (p : Product) :
  listing index (l1 ++ p :: l2)%list =
  (listing index l1 ++
   ((ofNat (index + List.length l1 + 1) ++ ". " ++ title p
      ++ " - " ++ orNotAvailable "Price" (price p)
      ++ " - " ++ orNotAvailable "Compare Price" (comparePrice p)
      ++ " - " ++ orNotAvailable "Volume/Weight" (displayVolume p))%string
   :: listing (S (index + List.length l1)) l2))%list.
Proof.
  revert index. induction l1 as [|a l1 IH]; intros index.
  - cbn [app listing List.length]. rewrite Nat.add_0_r. reflexivity.
  - cbn [app listing List.length]. rewrite IH.
    replace (S index + List.length l1)%nat with (index + S (List.length l1))%nat by lia.
    reflexivity.
Qed.

Lemma join_cons (sep x : string) (rest : list string) :
  rest <> [] -> join sep (x :: rest) = x ++ sep ++ join sep rest.
Proof. destruct rest; [congruence|reflexivity]. Qed.

(** A piece of a joined text stands between two separators once the text is
    itself put between separators. *)
Lemma join_piece (sep x : string) (l1 l2 : list string) :
  exists pre post,
    sep ++ join sep (l1 ++ x :: l2)%list ++ sep = pre ++ (sep ++ x ++ sep) ++ post.
Proof.
  induction l1 as [|a l1 IH].
  - cbn [app]. destruct l2 as [|b l2].
    + exists "", "". cbn [join]. rewrite append_nil_r. reflexivity.
    + exists "", (join sep (b :: l2) ++ sep).
      rewrite join_cons by discriminate.
      rewrite !append_assoc. reflexivity.
  - destruct IH as (pre & post & E). cbn [app].
    rewrite join_cons by (destruct l1; discriminate).
    exists (sep ++ a ++ pre), post.
    rewrite !append_assoc. rewrite !append_assoc in E. rewrite E. reflexivity.
Qed.

(** A piece that is neither the first nor the last stands between two
    separators in the joined text itself. *)
Lemma join_inner_piece (sep x : string) (l1 l2 : list string) :
  l1 <> [] -> l2 <> [] ->
  exists pre post, join sep (l1 ++ x :: l2)%list = pre ++ (sep ++ x ++ sep) ++ post.
Proof.
  intros H1 H2. destruct l1 as [|a l1]; [congruence|clear H1].
  revert a. induction l1 as [|b l1 IH]; intros a.
  - cbn [app]. destruct l2 as [|c l2]; [congruence|].
    exists a, (join sep (c :: l2)).
    rewrite !join_cons by discriminate. rewrite !append_assoc. reflexivity.
  - destruct (IH b) as (pre & post & E).
    change ((a :: b :: l1) ++ x :: l2)%list with (a :: ((b :: l1) ++ x :: l2))%list.
    rewrite join_cons by discriminate. rewrite E.
    exists (a ++ sep ++ pre), post. rewrite !append_assoc. reflexivity.
Qed.

Lemma includes_trans (s t u : string) :
  includes s t = true -> includes t u = true -> includes s u = true.
Proof.
  rewrite !includes_iff. intros (a & b & ->) (c & d & ->).
  exists (a ++ c), (d ++ b). rewrite !append_assoc. reflexivity.
Qed.

(** X5.  The prompt shows every candidate on a line of its own: the line
    of the candidate at position [i] opens with the number [i + 1] and its
    title, and gives each of price, compare price and volume or the words
    Not available. *)
Theorem prompt_lists_every_candidate
        (products : list Product) (item : string) (i : nat) (p : Product) :
  nth_error products i = Some p ->
  includes (selectionPrompt products item)
           (nl ++ (ofNat (i + 1) ++ ". " ++ title p
                     ++ " - " ++ orNotAvailable "Price" (price p)
                     ++ " - " ++ orNotAvailable "Compare Price" (comparePrice p)
                     ++ " - " ++ orNotAvailable "Volume/Weight" (displayVolume p))
               ++ nl) = true.
Proof.
  intros Hp. apply nth_error_split in Hp. destruct Hp as (l1 & l2 & -> & <-).
  apply (includes_trans _ (nl ++ productListText (l1 ++ p :: l2)%list ++ nl)).
  - apply includes_iff. unfold selectionPrompt.
    apply (join_inner_piece nl (productListText (l1 ++ p :: l2)%list)
             [ ""; "Shopping list item: " ++ item; ""; "Available products:" ]);
      discriminate.
  - apply includes_iff. unfold productListText. rewrite listing_split.
    apply join_piece.
Qed.

End SelectionFacts.

(* ================================================================== *)
(** * More about the weights *)

Module WeightMore.
Import JsString Regex Llm Main StringFacts RegexFacts Binary64Facts WeightFacts.

(** X6.  The parser of the requirement accepts whole and decimal numbers
    with the units g, kg and kilo in any case, and the unit need not end a
    word: whatever follows it, a text that begins with digits, optional
    white space and the unit states the number as its weight, times 1000
    unless the unit is g (so 2 gurkor asks for 2 g); and in a text that
    begins with digits, a point, digits, optional white space and the unit,
    the number with its decimals and the unit are what the pattern
    captures, so a weight is found there too. *)
Theorem requirement_reads_decimals_and_units
        (ds fs ws u rest : string) :
  allb isDigit ds = true -> ds <> "" ->
  allb isDigit fs = true -> allb isSpace ws = true ->
  toLowerCase u = "g" \/ toLowerCase u = "kg" \/ toLowerCase u = "kilo" ->
  let factor := if String.eqb (toLowerCase u) "g" then 1%Q else 1000%Q in
  (exists q, requestedWeight (ds ++ ws ++ u ++ rest) = Some q /\
             (q == inject_Z (parseInt ds) * factor)%Q) /\
  (exists whole,
      exec requirementRe (ds ++ "." ++ fs ++ ws ++ u ++ rest)
      = Some [(0%nat, whole); (2%nat, u); (1%nat, ds ++ "." ++ fs)]) /\
  requestedWeight (ds ++ "." ++ fs ++ ws ++ u ++ rest) <> None.
Proof.
  intros Hd Hne Hf Hs Hu factor.
  split; [|split].
  - pose proof (requestedWeight_whole "" ds ws u rest eq_refl Hd Hne Hs Hu) as E.
    cbn [append] in E. rewrite E.
    eexists. split; [reflexivity|]. subst factor. rewrite inject_Z_mult.
    destruct (String.eqb (toLowerCase u) "g"); reflexivity.
  - eexists.
    exact (requirement_found_decimal "" ds ws rest eq_refl Hd Hne Hs fs u Hf Hu).
  - pose proof (requestedWeight_decimal "" ds fs ws u rest eq_refl Hd Hne Hf Hs Hu)
      as E.
    intros X.
    change (requestedWeight ("" ++ ds ++ "." ++ fs ++ ws ++ u ++ rest) = None) in X.
    rewrite E in X. discriminate X.
Qed.

(** X7.  The weights the program reads from text are never negative: the
    weight of a product, the weight a shopping-list item asks for, and the
    two weights the quantity is computed from. *)
Theorem weights_are_never_negative :
  (forall p, 0 <= productWeight p) /\
  (forall item R, requestedWeight item = Some R -> (0 <= R)%Q) /\
  (forall p item,
      0 <= fst (extractWeightInformation p item) /\
      (0 <= snd (extractWeightInformation p item))%Q).
Proof.
  assert (Hp : forall p, 0 <= productWeight p).
  { intros p. unfold productWeight.
    destruct (exec volumeRe _) as [m|]; [|lia].
    pose proof (decAcc_nonneg 0 (group 1 m) (Z.le_refl 0)) as H.
    fold (parseInt (group 1 m)) in H.
    destruct (String.eqb _ _); lia. }
  assert (Hr : forall item R, requestedWeight item = Some R -> (0 <= R)%Q).
  { intros item R. unfold requestedWeight.
    destruct (exec requirementRe item) as [m|]; [|discriminate].
    pose proof (parseFloat_nonneg (group 1 m)) as H.
    destruct (_ || _); intros [= <-]; [|exact H].
    apply round_nonneg. apply Qmult_le_0_compat; [exact H|discriminate]. }
  split; [exact Hp|]. split; [exact Hr|].
  intros p item. rewrite MainFacts.extractWeightInformation_parsers. cbn [fst snd].
  split; [apply Hp|].
  destruct (requestedWeight item) as [R|] eqn:E; [exact (Hr _ _ E)|discriminate].
Qed.

End WeightMore.

(* ================================================================== *)
(** * The items of the shopping list, one after the other *)

Module PipelineFacts.
Import JsString Regex Effect Llm Main Pipeline LlmSpec.
Import StringFacts Binary64Facts WeightFacts LlmFacts ResponseFacts MainFacts SelectionFacts.

(** The search term the normalizer gives for a text. *)
Lemma run_processIngredientDescription (oracle : string -> option string)
      (ingredient : string) :
  run oracle (processIngredientDescription ingredient) =
  (Some (match oracle (ingredientPrompt ingredient) with
         | Some content => trim content
         | None => ingredient
         end),
   [ingredientPrompt ingredient]).
Proof.
  unfold processIngredientDescription, chat. cbn [bind tryCatch run].
  destruct (oracle (ingredientPrompt ingredient)); reflexivity.
Qed.

Lemma run_extractSearchTerm (oracle : string -> option string) (item : string) :
  run oracle (extractSearchTerm item) = run oracle (processIngredientDescription item).
Proof.
  unfold extractSearchTerm, processIngredientDescription, chat.
  cbn [bind tryCatch run].
  destruct (oracle (ingredientPrompt item)); reflexivity.
Qed.

(** X8.  [extractSearchTerm] gives what the normalizer gives and sends the
    same single prompt: the trimmed answer, or the item itself when the call
    to the collaborator fails.  It never throws, so the fallback of its own
    try block is never taken. *)
Theorem search_term_is_the_normalized_item
        (oracle : string -> option string) (item : string) :
  run oracle (extractSearchTerm item) = run oracle (processIngredientDescription item) /\
  result oracle (extractSearchTerm item)
  = Some (match oracle (ingredientPrompt item) with
          | Some content => trim content
          | None => item
          end) /\
  requests oracle (extractSearchTerm item) = [ingredientPrompt item].
Proof.
  unfold result, requests.
  rewrite run_extractSearchTerm, run_processIngredientDescription. auto.
Qed.

Lemma addProductToCart_cases (controls : Controls) (product : Product) :
  addProductToCart controls product = (true, addedToCart product) \/
  addProductToCart controls product = (false, product).
Proof.
  unfold addProductToCart, addProductToCartAlternativeMethod.
  destruct (containerCount controls =? 0)%nat.
  - destruct (parentDivCount controls =? 0)%nat; [auto|].
    destruct (alternativeBuyButtonCount controls =? 0)%nat; auto.
  - destruct (buyButtonCount controls =? 0)%nat; auto.
Qed.

(** When the click on a buy button is made, in terms of what the page
    shows: the button of the product container or, when there is no
    container, the button of the parent block. *)
Lemma addProductToCart_counts (controls : Controls) (product : Product) :
  fst (addProductToCart controls product) = true <->
  (containerCount controls <> 0%nat /\ buyButtonCount controls <> 0%nat) \/
  (containerCount controls = 0%nat /\ parentDivCount controls <> 0%nat /\
   alternativeBuyButtonCount controls <> 0%nat).
Proof.
  unfold addProductToCart, addProductToCartAlternativeMethod.
  destruct (Nat.eqb_spec (containerCount controls) 0) as [Ec|Ec].
  - destruct (Nat.eqb_spec (parentDivCount controls) 0) as [Ep|Ep].
    + cbn [fst]. split; [discriminate|]. intros [[H _]|(_ & H & _)]; contradiction.
    + destruct (Nat.eqb_spec (alternativeBuyButtonCount controls) 0) as [Ea|Ea].
      * cbn [fst]. split; [discriminate|]. intros [[H _]|(_ & _ & H)]; contradiction.
      * cbn [fst]. split; [intros _; right; auto|reflexivity].
  - destruct (Nat.eqb_spec (buyButtonCount controls) 0) as [Eb|Eb].
    + cbn [fst]. split; [discriminate|]. intros [[_ H]|(H & _)]; contradiction.
    + cbn [fst]. split; [intros _; left; auto|reflexivity].
Qed.

(** The adjustment changes the quantity only, and never lowers it. *)
Lemma adjust_keeps_fields (plusButtonCount : nat) (product : Product) (item : string) :
  let b := inCart (adjustProductQuantity plusButtonCount product item) in
  title b = title product /\ element b = element product /\
  price b = price product /\ comparePrice b = comparePrice product /\
  displayVolume b = displayVolume product /\ quantity product <= quantity b.
Proof.
  unfold adjustProductQuantity.
  destruct (plusButtonCount =? 0)%nat; [cbn; repeat split; lia|].
  destruct (extractWeightInformation product item) as [u r].
  destruct ((u =? 0) || Qeq_bool r 0); [cbn; repeat split; lia|].
  rewrite forLoop_clicks. cbn. repeat split; lia.
Qed.

Lemma adjust_quantity_unknown (plusButtonCount : nat) (product : Product) (item : string) :
  requestedWeight item = None \/ plusButtonCount = 0%nat \/ productWeight product = 0 ->
  adjustProductQuantity plusButtonCount product item = mkCart product 0.
Proof.
  intros H. unfold adjustProductQuantity.
  destruct (plusButtonCount =? 0)%nat eqn:En; [reflexivity|].
  rewrite extractWeightInformation_parsers.
  destruct H as [H|[H|H]].
  - rewrite H. rewrite orb_true_r. reflexivity.
  - subst. discriminate En.
  - rewrite H. reflexivity.
Qed.

(** A stated weight is a binary64. *)
Lemma requestedWeight_shape (item : string) (R : Q) :
  requestedWeight item = Some R -> (0 < R)%Q -> (R < inject_Z (2 ^ 53))%Q ->
  Binary64.finite R.
Proof.
  intros Hr HR Hmax.
  assert (Hw : extractWeightInformation (mkProduct "" 0 None None None 0) item = (0, R))
    by (rewrite extractWeightInformation_parsers, Hr; reflexivity).
  destruct (requiredWeight_shape _ _ _ _ Hw) as [Hz|[Hbig|Hf]]; [| |exact Hf].
  - rewrite Hz in HR. discriminate HR.
  - exfalso. apply (Qlt_irrefl R). eapply Qlt_le_trans; eassumption.
Qed.

Lemma adjust_quantity_known (plusButtonCount : nat) (product : Product) (item : string)
      (R : Q) :
  plusButtonCount <> 0%nat -> requestedWeight item = Some R ->
  0 < productWeight product -> (0 < R)%Q -> (R < inject_Z (2 ^ 53))%Q ->
  quantity (inCart (adjustProductQuantity plusButtonCount product item))
  = quantity product + (Qceiling (R / inject_Z (productWeight product)) - 1).
Proof.
  intros Hn Hr Hu HR Hmax.
  assert (Hw : extractWeightInformation product item = (productWeight product, R))
    by (rewrite extractWeightInformation_parsers, Hr; reflexivity).
  rewrite (adjust_with_button _ _ _ _ _ Hw Hn).
  rewrite (known_weight_guard _ _ Hu HR).
  pose proof (ceiling_positive _ _ Hu HR) as Hc.
  rewrite forLoop_clicks,
    (clicks_of_optimalQuantity _ _ (requestedWeight_shape _ _ Hr HR Hmax) Hu).
  cbn [inCart quantity]. lia.
Qed.

(** What a run of [processSearchResults] gives. *)
Lemma run_processSearchResults (page : Page) (item : string)
      (oracle : string -> option string) :
  exists r,
    run oracle (processSearchResults page item) =
    (Some r,
     if (List.length (productsOnPage page) =? 0)%nat then []
     else match requestedWeight item with
          | Some _ => []
          | None => [selectionPrompt (productsOnPage page) item]
          end) /\
    (forall b, r = Some b ->
       exists p,
         In p (productsOnPage page) /\
         result oracle (selectBestProduct (productsOnPage page) item) = Some (Some p) /\
         addProductToCart (controlsOf page (element p)) p = (true, addedToCart p) /\
         b = inCart (adjustProductQuantity
                       (plusButtonCount (controlsOf page (element p)))
                       (addedToCart p) item)).
Proof.
  unfold processSearchResults.
  destruct (List.length (productsOnPage page) =? 0)%nat.
  { exists None. split; [reflexivity|discriminate]. }
  rewrite run_bind.
  destruct (selectBestProduct_run (productsOnPage page) item oracle) as (r & Er & Hin).
  unfold result. rewrite Er. cbn [fst].
  destruct r as [p|].
  - destruct (addProductToCart_cases (controlsOf page (element p)) p) as [E|E];
      rewrite E; cbn [negb run]; rewrite app_nil_r.
    + eexists. split; [reflexivity|]. intros b [= <-]. exists p. auto.
    + exists None. split; [reflexivity|discriminate].
  - cbn [run]. rewrite app_nil_r. exists None. split; [reflexivity|discriminate].
Qed.

(** X9.  A product that [processSearchResults] reports as bought is the
    product that was selected among those of the page; the page shows a buy
    button for it, in its product container or, when it has no container, in
    its parent block; only its quantity differs from what the page listed,
    and the quantity is at least 1; it is exactly 1 when the item states no
    weight, when the page shows no plus button for it or when its own
    weight is unknown. *)
Theorem bought_product_is_from_the_page
        (page : Page) (item : string) (oracle : string -> option string)
        (b : Product) :
  result oracle (processSearchResults page item) = Some (Some b) ->
  exists p,
    In p (productsOnPage page) /\
    result oracle (selectBestProduct (productsOnPage page) item) = Some (Some p) /\
    ((containerCount (controlsOf page (element p)) <> 0%nat /\
      buyButtonCount (controlsOf page (element p)) <> 0%nat) \/
     (containerCount (controlsOf page (element p)) = 0%nat /\
      parentDivCount (controlsOf page (element p)) <> 0%nat /\
      alternativeBuyButtonCount (controlsOf page (element p)) <> 0%nat)) /\
    title b = title p /\ element b = element p /\ price b = price p /\
    comparePrice b = comparePrice p /\ displayVolume b = displayVolume p /\
    1 <= quantity b /\
    (requestedWeight item = None \/
     plusButtonCount (controlsOf page (element p)) = 0%nat \/
     productWeight p = 0 -> quantity b = 1).
Proof.
  destruct (run_processSearchResults page item oracle) as (r & Er & Hr).
  unfold result at 1. rewrite Er. cbn [fst]. intros [= ->].
  destruct (Hr b eq_refl) as (p & Hin & Hsel & Ea & ->).
  exists p. split; [exact Hin|]. split; [exact Hsel|].
  split; [apply (addProductToCart_counts _ p); rewrite Ea; reflexivity|].
  pose proof (adjust_keeps_fields (plusButtonCount (controlsOf page (element p)))
                (addedToCart p) item) as K.
  cbv zeta in K. destruct K as (K1 & K2 & K3 & K4 & K5 & K6).
  cbn [addedToCart title element price comparePrice displayVolume quantity] in *.
  repeat (split; [assumption|]).
  intros H. rewrite adjust_quantity_unknown; [reflexivity|].
  exact H.
Qed.

(** X10.  When the item states a weight above 0 and below 2^53 grams and
    the bought product has a known weight and a plus button, the packages
    bought cover the weight the program read, a binary64, and one package
    fewer would not; and exactly one package is bought if and only if some
    product of the page is alone heavy enough.  The collaborator has no
    part in it. *)
Theorem bought_quantity_covers_requirement
        (page : Page) (item : string) (R : Q)
        (oracle : string -> option string) (b : Product) :
  requestedWeight item = Some R -> (0 < R)%Q -> (R < inject_Z (2 ^ 53))%Q ->
  result oracle (processSearchResults page item) = Some (Some b) ->
  plusButtonCount (controlsOf page (element b)) <> 0%nat ->
  0 < productWeight b ->
  (inject_Z ((quantity b - 1) * productWeight b) < R)%Q /\
  (R <= inject_Z (quantity b * productWeight b))%Q /\
  (quantity b = 1 <-> exists q, In q (productsOnPage page) /\ sufficient R q) /\
  requests oracle (processSearchResults page item) = [].
Proof.
  intros Ew HR Hmax Hres Hplus Hu.
  destruct (run_processSearchResults page item oracle) as (r & Er & Hr).
  unfold result in Hres. unfold requests. rewrite Er in *. cbn [fst snd] in *.
  injection Hres as ->.
  destruct (Hr b eq_refl) as (p & Hin & Esel & _ & Eb).
  pose proof (adjust_keeps_fields (plusButtonCount (controlsOf page (element p)))
                (addedToCart p) item) as K.
  cbv zeta in K. rewrite <- Eb in K. destruct K as (_ & Ke & _ & _ & Kv & _).
  cbn [addedToCart element displayVolume] in Ke, Kv.
  assert (Ewb : productWeight b = productWeight p)
    by (unfold productWeight; rewrite Kv; reflexivity).
  assert (Ewa : productWeight (addedToCart p) = productWeight p) by reflexivity.
  rewrite Ke in Hplus. rewrite Ewb in *.
  assert (Eq : quantity b = Qceiling (R / inject_Z (productWeight p))).
  { rewrite Eb, (adjust_quantity_known _ _ _ R Hplus Ew);
      [|rewrite Ewa; exact Hu|exact HR|exact Hmax].
    rewrite Ewa. cbn [addedToCart quantity]. lia. }
  destruct (ceiling_bounds (productWeight p) R Hu) as [Clo Chi].
  rewrite Eq. split; [exact Clo|]. split; [exact Chi|]. split.
  - split.
    + intros E1. exists p. split; [exact Hin|]. unfold sufficient.
      rewrite E1, Z.mul_1_l in Chi. exact Chi.
    + intros Hex.
      assert (Hne : productsOnPage page <> []) by (intros E; rewrite E in Hin; exact Hin).
      destruct (selectByWeight_spec (productsOnPage page) R Hne)
        as (l1 & p' & l2 & _ & Es & Hsuff & _).
      rewrite (selectBestProduct_weighted _ _ _ Ew), Es in Esel.
      cbn in Esel. injection Esel as <-.
      destruct (Hsuff Hex) as [Hs _]. unfold sufficient in Hs.
      apply (ceiling_unique (productWeight p') R _ 1 Hu Clo Chi).
      * change ((1 - 1) * productWeight p') with 0. exact HR.
      * rewrite Z.mul_1_l. exact Hs.
  - rewrite Ew. destruct (List.length (productsOnPage page) =? 0)%nat; reflexivity.
Qed.

(** What a run of the loop over the items gives. *)
Lemma run_processItems (site : string -> Page) (oracle : string -> option string)
      (shoppingList : list string) (cartItems : list Product) :
  exists added,
    run oracle (processItems site shoppingList cartItems) =
    (Some (cartItems ++ added)%list,
     flat_map
       (fun item =>
          let searchTerm := match oracle (ingredientPrompt item) with
                            | Some content => trim content
                            | None => item
                            end in
          ingredientPrompt item ::
          (if (List.length (productsOnPage (site searchTerm)) =? 0)%nat then []
           else match requestedWeight item with
                | Some _ => []
                | None => [selectionPrompt (productsOnPage (site searchTerm)) item]
                end))
       shoppingList) /\
    (List.length added <= List.length shoppingList)%nat /\
    Forall (fun b => 1 <= quantity b) added.
Proof.
  revert cartItems. induction shoppingList as [|item rest IH]; intros cartItems.
  - exists []. cbn. rewrite app_nil_r. auto.
  - cbn [processItems flat_map]. rewrite run_bind, run_extractSearchTerm,
      run_processIngredientDescription.
    set (searchTerm := match oracle (ingredientPrompt item) with
                       | Some content => trim content
                       | None => item
                       end).
    rewrite run_bind.
    destruct (run_processSearchResults (site searchTerm) item oracle) as (r & Er & Hr).
    rewrite Er.
    destruct r as [b|].
    + destruct (IH (cartItems ++ [b])%list) as (added & Ea & Hlen & Hq).
      rewrite Ea. exists (b :: added). split; [|split].
      * rewrite <- app_assoc. cbn [app]. reflexivity.
      * cbn [List.length]. lia.
      * constructor; [|exact Hq].
        destruct (Hr b eq_refl) as (p & _ & _ & _ & ->).
        pose proof (adjust_keeps_fields
                      (plusButtonCount (controlsOf (site searchTerm) (element p)))
                      (addedToCart p) item) as K.
        cbv zeta in K. destruct K as (_ & _ & _ & _ & _ & K). exact K.
    + destruct (IH cartItems) as (added & Ea & Hlen & Hq).
      rewrite Ea. exists added. split; [|split].
      * cbn [app]. reflexivity.
      * cbn [List.length]. lia.
      * exact Hq.
Qed.

(** X11.  No answer and no failure of the collaborator aborts the loop over
    the shopping list: it always ends with a cart that keeps what it held,
    gains at most one product per item, each with a quantity of at least
    1. *)
Theorem shopping_survives_the_collaborator
        (site : string -> Page) (oracle : string -> option string)
        (shoppingList : list string) (cartItems : list Product) :
  exists added,
    result oracle (processItems site shoppingList cartItems)
    = Some (cartItems ++ added)%list /\
    (List.length added <= List.length shoppingList)%nat /\
    Forall (fun b => 1 <= quantity b) added.
Proof.
  destruct (run_processItems site oracle shoppingList cartItems)
    as (added & E & Hlen & Hq).
  exists added. unfold result. rewrite E. auto.
Qed.

(** X12.  For every item of the shopping list the loop asks the normalizer
    once, searches with its answer (trimmed; the item itself when the call
    fails), and asks for a selection at most once: only when the result
    page lists a product and the item itself, not the search term, states
    no weight. *)
Theorem prompts_sent_per_item
        (site : string -> Page) (oracle : string -> option string)
        (shoppingList : list string) (cartItems : list Product) :
  requests oracle (processItems site shoppingList cartItems) =
  flat_map
    (fun item =>
       let searchTerm := match oracle (ingredientPrompt item) with
                         | Some content => trim content
                         | None => item
                         end in
       ingredientPrompt item ::
       (if (List.length (productsOnPage (site searchTerm)) =? 0)%nat then []
        else match requestedWeight item with
             | Some _ => []
             | None => [selectionPrompt (productsOnPage (site searchTerm)) item]
             end))
    shoppingList.
Proof.
  destruct (run_processItems site oracle shoppingList cartItems) as (added & E & _).
  unfold requests. rewrite E. reflexivity.
Qed.

Lemma run_normalizeInto (oracle : string -> option string)
      (ingredients shoppingList : list string) :
  run oracle (normalizeInto shoppingList ingredients) =
  (Some (shoppingList ++
         map (fun ingredient =>
                match oracle (ingredientPrompt ingredient) with
                | Some content => trim content
                | None => ingredient
                end) ingredients)%list,
   map ingredientPrompt ingredients).
Proof.
  revert shoppingList. induction ingredients as [|i rest IH]; intros shoppingList.
  - cbn. rewrite app_nil_r. reflexivity.
  - cbn [normalizeInto map]. rewrite run_bind, run_processIngredientDescription, IH.
    rewrite <- app_assoc. reflexivity.
Qed.

(** X13.  With a recipe address the shopping list holds one search term per
    extracted ingredient, in order: the trimmed answer of the normalizer,
    or the ingredient itself when the call fails; the ingredients of the
    JSON-LD parser are used when there are any, else those of the older
    parser, and one prompt is sent per ingredient.  The default list is
    used, and nothing is asked, when there is no address or both parsers
    give nothing. *)
Theorem shopping_list_from_recipe
        (oracle : string -> option string) (recipeUrl : option string)
        (ingredients fallbackIngredients defaultList : list string) :
  let used := match recipeUrl with
              | Some url =>
                  if truthy url
                  then match ingredients with
                       | [] => fallbackIngredients
                       | _ => ingredients
                       end
                  else []
              | None => []
              end in
  run oracle (buildShoppingList recipeUrl ingredients fallbackIngredients defaultList)
  = match used with
    | [] => (Some defaultList, [])
    | _ => (Some (map (fun ingredient =>
                         match oracle (ingredientPrompt ingredient) with
                         | Some content => trim content
                         | None => ingredient
                         end) used),
            map ingredientPrompt used)
    end.
Proof.
  cbv zeta. unfold buildShoppingList.
  destruct recipeUrl as [url|]; [|reflexivity].
  destruct url as [|c url]; [reflexivity|].
  unfold truthy. cbn [String.eqb negb].
  destruct ingredients as [|i ingredients].
  - destruct fallbackIngredients as [|f fallbackIngredients]; [reflexivity|].
    cbn [List.length Nat.eqb]. rewrite run_normalizeInto. reflexivity.
  - cbn [List.length Nat.eqb]. rewrite run_normalizeInto. reflexivity.
Qed.

End PipelineFacts.

(* ================================================================== *)
(** * The cookie dialog *)

Module CookieFacts.
Import Pipeline PipelineSpec.

Lemma maxAttempts_value : maxAttempts = 15.
Proof. reflexivity. Qed.

(** One round of the loop that does not meet a button it can click. *)
Lemma poll_round (fuel : nat) (attempt : Z) (probe : Z -> Probe)
      (actions : list PageAction) :
  attempt < 15 -> probe attempt <> Rejected ->
  pollCookieDialog (S fuel) attempt probe actions =
  pollCookieDialog fuel (attempt + 1) probe
    ((actions ++ match probe attempt with
                 | ClickFailed => [WaitFor 500; Click]
                 | _ => []
                 end)
       ++ (if attempt <? 14 then [WaitFor pollingInterval] else []))%list.
Proof.
  intros Ha Hp. cbn [pollCookieDialog]. rewrite maxAttempts_value.
  replace (attempt <? 15) with true by (symmetry; apply Z.ltb_lt; lia).
  change (15 - 1) with 14.
  destruct (probe attempt); try congruence;
    destruct (attempt <? 14); rewrite ?app_nil_r; reflexivity.
Qed.

Lemma poll_rejected (fuel : nat) (attempt : Z) (probe : Z -> Probe)
      (actions : list PageAction) :
  attempt < 15 -> probe attempt = Rejected ->
  pollCookieDialog (S fuel) attempt probe actions =
  (true, (actions ++ [WaitFor 500; Click])%list).
Proof.
  intros Ha Hp. cbn [pollCookieDialog]. rewrite maxAttempts_value.
  replace (attempt <? 15) with true by (symmetry; apply Z.ltb_lt; lia).
  rewrite Hp. reflexivity.
Qed.

(** The waits between two polls among the actions. *)
Lemma pollingWaits_app (l1 l2 : list PageAction) :
  pollingWaits (l1 ++ l2)%list = (pollingWaits l1 + pollingWaits l2)%nat.
Proof. unfold pollingWaits. rewrite filter_app, length_app. reflexivity. Qed.

Section Polling.
Variable probe : Z -> Probe.

Lemma poll_handled (fuel : nat) (attempt : Z) (actions : list PageAction) :
  0 <= attempt -> Z.of_nat fuel = 15 - attempt ->
  fst (pollCookieDialog fuel attempt probe actions) = true ->
  exists a, attempt <= a < 15 /\ probe a = Rejected.
Proof.
  revert attempt actions. induction fuel as [|fuel IH]; intros attempt actions H0 Hf.
  - cbn. discriminate.
  - destruct (probe attempt) eqn:Ep;
      try (rewrite poll_round by (try lia; congruence); intros H;
           apply IH in H; [|lia|lia]; destruct H as (a & Ha & Hr);
           exists a; split; [lia|exact Hr]).
    intros _. exists attempt. split; [lia|exact Ep].
Qed.

Lemma poll_first_rejection (fuel : nat) (attempt a : Z) (actions : list PageAction) :
  0 <= attempt -> Z.of_nat fuel = 15 - attempt ->
  attempt <= a < 15 -> probe a = Rejected ->
  (forall a', attempt <= a' < a -> probe a' <> Rejected) ->
  exists done,
    pollCookieDialog fuel attempt probe actions
    = (true, (done ++ [WaitFor 500; Click])%list) /\
    Z.of_nat (pollingWaits done)
    = Z.of_nat (pollingWaits actions) + (a - attempt).
Proof.
  revert attempt actions. induction fuel as [|fuel IH];
    intros attempt actions H0 Hf Ha Hr Hfirst; [lia|].
  destruct (Z.eq_dec attempt a) as [->|Hne].
  - rewrite poll_rejected by (lia || exact Hr).
    exists actions. split; [reflexivity|lia].
  - assert (Hp : probe attempt <> Rejected) by (apply Hfirst; lia).
    rewrite poll_round by (lia || exact Hp).
    edestruct (IH (attempt + 1)) as (done & E & Hc);
      [| |split; [|apply Ha]|exact Hr| |]; try lia.
    { intros a' Ha'. apply Hfirst. lia. }
    exists done. split; [exact E|]. rewrite Hc.
    replace (attempt <? 14) with true by (symmetry; apply Z.ltb_lt; lia).
    rewrite !pollingWaits_app.
    destruct (probe attempt);
      change (pollingWaits [WaitFor 500; Click]) with 0%nat;
      change (pollingWaits [WaitFor pollingInterval]) with 1%nat;
      change (pollingWaits []) with 0%nat; lia.
Qed.

Lemma poll_never_rejected (fuel : nat) (attempt : Z) (actions : list PageAction) :
  0 <= attempt <= 15 -> Z.of_nat fuel = 15 - attempt ->
  (forall a, attempt <= a < 15 -> probe a <> Rejected) ->
  exists done,
    pollCookieDialog fuel attempt probe actions = (false, done) /\
    Z.of_nat (pollingWaits done)
    = Z.of_nat (pollingWaits actions) + Z.max 0 (14 - attempt).
Proof.
  revert attempt actions. induction fuel as [|fuel IH];
    intros attempt actions H0 Hf Hnone.
  - exists actions. split; [reflexivity|lia].
  - assert (Hp : probe attempt <> Rejected) by (apply Hnone; lia).
    rewrite poll_round by (lia || exact Hp).
    destruct (IH (attempt + 1) ((actions ++ match probe attempt with
                 | ClickFailed => [WaitFor 500; Click]
                 | _ => []
                 end)
       ++ (if attempt <? 14 then [WaitFor pollingInterval] else []))%list
                 ltac:(lia) ltac:(lia)) as (done & E & Hc).
    { intros a Ha. apply Hnone. lia. }
    exists done. split; [exact E|]. rewrite Hc.
    rewrite !pollingWaits_app.
    destruct (Z.ltb_spec attempt 14); destruct (probe attempt);
      change (pollingWaits [WaitFor 500; Click]) with 0%nat;
      change (pollingWaits [WaitFor pollingInterval]) with 1%nat;
      change (pollingWaits []) with 0%nat; lia.
Qed.

Lemma poll_some_rejection (fuel : nat) (attempt : Z) (actions : list PageAction) :
  0 <= attempt -> Z.of_nat fuel = 15 - attempt ->
  (exists a, attempt <= a < 15 /\ probe a = Rejected) ->
  fst (pollCookieDialog fuel attempt probe actions) = true.
Proof.
  revert attempt actions. induction fuel as [|fuel IH];
    intros attempt actions H0 Hf (a & Ha & Hr); [lia|].
  destruct (probe attempt) eqn:Ep;
    try (rewrite poll_rejected by (lia || exact Ep); reflexivity);
    (rewrite poll_round by (lia || congruence);
     apply IH; [lia|lia|];
     exists a; split; [|exact Hr];
     assert (a <> attempt) by (intros ->; congruence); lia).
Qed.

(** X14.  The cookie dialog is reported as handled exactly when one of the
    15 attempts finds the button and clicks it.  The first such attempt,
    numbered [a] from 0, ends the polling: [a] waits of one second were
    made before it and the last two actions are the short wait and the
    click.  When no attempt succeeds the program has waited 14 times one
    second between the attempts, not 15. *)
Theorem cookie_dialog_polling :
  (fst (handleCookieDialog probe) = true <->
   exists a, 0 <= a < 15 /\ probe a = Rejected) /\
  (forall a, 0 <= a < 15 -> probe a = Rejected ->
     (forall a', 0 <= a' < a -> probe a' <> Rejected) ->
     exists done,
       handleCookieDialog probe = (true, (done ++ [WaitFor 500; Click])%list) /\
       Z.of_nat (pollingWaits done) = a) /\
  ((forall a, 0 <= a < 15 -> probe a <> Rejected) ->
     exists done,
       handleCookieDialog probe = (false, done) /\
       pollingWaits done = 14%nat).
Proof.
  unfold handleCookieDialog. rewrite maxAttempts_value.
  split; [split|split].
  - apply poll_handled; lia.
  - apply poll_some_rejection; lia.
  - intros a Ha Hr Hfirst.
    destruct (poll_first_rejection (Z.to_nat 15) 0 a [] ltac:(lia) ltac:(lia) Ha Hr Hfirst)
      as (done & E & Hc).
    exists done. split; [exact E|]. rewrite Hc. cbn. lia.
  - intros Hnone.
    destruct (poll_never_rejected (Z.to_nat 15) 0 [] ltac:(lia) ltac:(lia) Hnone)
      as (done & E & Hc).
    exists done. split; [exact E|]. cbn in Hc. lia.
Qed.
End Polling.

End CookieFacts.

(* ================================================================== *)
(** * The command line *)

Module CommandLineFacts.
Import JsString Pipeline StringFacts.

Lemma findIndex_range {A : Type} (test : A -> bool) (l : list A) :
  -1 <= findIndex test l < Z.of_nat (List.length l).
Proof.
  induction l as [|x l IH]; cbn [findIndex List.length]; [lia|].
  destruct (test x); [lia|].
  destruct (Z.eqb_spec (findIndex test l) (-1)); lia.
Qed.

Lemma findIndex_none {A : Type} (test : A -> bool) (l : list A) :
  findIndex test l = -1 <-> forall x, In x l -> test x = false.
Proof.
  induction l as [|x l IH]; cbn [findIndex].
  - split; [intros _ x []|reflexivity].
  - destruct (test x) eqn:Ex.
    + split; [discriminate|]. intros H. rewrite (H x) in Ex; [discriminate|left; reflexivity].
    + pose proof (findIndex_range test l) as Hr.
      destruct (Z.eqb_spec (findIndex test l) (-1)) as [E|E].
      * split; [|reflexivity]. intros _ y [<-|Hy]; [exact Ex|].
        apply (proj1 IH E). exact Hy.
      * split; [lia|]. intros H. exfalso. apply E, IH.
        intros y Hy. apply H. right. exact Hy.
Qed.

Lemma findIndex_first {A : Type} (test : A -> bool) (l : list A) :
  findIndex test l <> -1 ->
  exists pre x post,
    l = (pre ++ x :: post)%list /\ test x = true /\
    (forall y, In y pre -> test y = false) /\
    findIndex test l = Z.of_nat (List.length pre).
Proof.
  induction l as [|x l IH]; cbn [findIndex]; [congruence|].
  destruct (test x) eqn:Ex.
  - intros _. exists [], x, l. repeat split; [exact Ex|intros y []].
  - destruct (Z.eqb_spec (findIndex test l) (-1)) as [E|E]; [congruence|].
    intros _. destruct (IH E) as (pre & y & post & -> & Hy & Hpre & Ei).
    exists (x :: pre), y, post. repeat split; [exact Hy| |cbn [List.length]; lia].
    intros z [<-|Hz]; [exact Ex|apply Hpre; exact Hz].
Qed.

Lemma findIndex_at {A : Type} (test : A -> bool) (pre post : list A) (x : A) :
  test x = true -> (forall y, In y pre -> test y = false) ->
  findIndex test (pre ++ x :: post)%list = Z.of_nat (List.length pre).
Proof.
  intros Hx. induction pre as [|y pre IH]; intros Hpre; cbn [app findIndex List.length].
  - rewrite Hx. reflexivity.
  - rewrite (Hpre y) by (left; reflexivity).
    rewrite IH by (intros z Hz; apply Hpre; right; exact Hz).
    destruct (Z.eqb_spec (Z.of_nat (List.length pre)) (-1)); lia.
Qed.

Lemma http_truthy (text : string) : startsWith "http" text = true -> truthy text = true.
Proof. destruct text; [discriminate|reflexivity]. Qed.

Section Arguments.
Variable newURL : string -> option string.

(** The part of [getRecipeUrlFromCommandLine] after the search for an
    argument that starts with http. *)
Lemma flag_value (args : list string) (url : string) :
  let recipeIndex :=
    findIndex (fun arg => String.eqb arg "--recipe" || String.eqb arg "-r") args in
  (if negb (recipeIndex =? -1) && (recipeIndex <? Z.of_nat (List.length args) - 1)
   then match nth_error args (Z.to_nat (recipeIndex + 1)) with
        | Some text => newURL text
        | None => None
        end
   else None) = Some url <->
  exists pre flag value post,
    args = (pre ++ flag :: value :: post)%list /\
    (flag = "--recipe" \/ flag = "-r") /\
    (forall y, In y pre -> y <> "--recipe" /\ y <> "-r") /\
    newURL value = Some url.
Proof.
  cbv zeta.
  set (test := fun arg => String.eqb arg "--recipe" || String.eqb arg "-r").
  assert (Htest : forall x, test x = true <-> x = "--recipe" \/ x = "-r").
  { intros x. unfold test. rewrite orb_true_iff, !String.eqb_eq. reflexivity. }
  assert (Hnot : forall x, test x = false <-> x <> "--recipe" /\ x <> "-r").
  { intros x. unfold test. rewrite orb_false_iff, !String.eqb_neq. reflexivity. }
  split.
  - destruct (Z.eq_dec (findIndex test args) (-1)) as [E|E].
    { rewrite E. discriminate. }
    destruct (findIndex_first test args E) as (pre & flag & rest & Ea & Hf & Hpre & Ei).
    rewrite Ei.
    destruct (negb (Z.of_nat (List.length pre) =? -1)
              && (Z.of_nat (List.length pre) <? Z.of_nat (List.length args) - 1)) eqn:Ec;
      [|discriminate].
    apply andb_true_iff in Ec. destruct Ec as [_ Ec]. apply Z.ltb_lt in Ec.
    rewrite Ea in *. rewrite length_app in Ec. cbn [List.length] in Ec.
    destruct rest as [|value post]; [cbn [List.length] in Ec; lia|].
    replace (Z.to_nat (Z.of_nat (List.length pre) + 1)) with (List.length pre + 1)%nat by lia.
    rewrite nth_error_app2 by lia.
    replace (List.length pre + 1 - List.length pre)%nat with 1%nat by lia.
    cbn [nth_error]. intros Hu.
    exists pre, flag, value, post. split; [reflexivity|]. split; [apply Htest; exact Hf|].
    split; [|exact Hu]. intros y Hy. apply Hnot, Hpre. exact Hy.
  - intros (pre & flag & value & post & -> & Hf & Hpre & Hu).
    rewrite findIndex_at; [|apply Htest; exact Hf|intros y Hy; apply Hnot, Hpre; exact Hy].
    replace (negb (Z.of_nat (List.length pre) =? -1)) with true
      by (symmetry; apply negb_true_iff, Z.eqb_neq; lia).
    replace (Z.of_nat (List.length pre)
             <? Z.of_nat (List.length (pre ++ flag :: value :: post)) - 1) with true
      by (symmetry; apply Z.ltb_lt; rewrite length_app; cbn [List.length]; lia).
    cbn [andb].
    replace (Z.to_nat (Z.of_nat (List.length pre) + 1)) with (List.length pre + 1)%nat by lia.
    rewrite nth_error_app2 by lia.
    replace (List.length pre + 1 - List.length pre)%nat with 1%nat by lia.
    exact Hu.
Qed.

(** X15.  The recipe address of the command line is the first argument
    that starts with http, when the URL constructor accepts it; otherwise
    (no such argument, or the first one is refused, later ones are not
    tried) it is the argument that directly follows the first --recipe or
    -r, when there is one and the constructor accepts it.  In every other
    case there is no address. *)
Theorem recipe_address_from_arguments (args : list string) (url : string) :
  getRecipeUrlFromCommandLine newURL args = Some url <->
  (exists a, find (startsWith "http") args = Some a /\ newURL a = Some url) \/
  ((forall a, find (startsWith "http") args = Some a -> newURL a = None) /\
   exists pre flag value post,
     args = (pre ++ flag :: value :: post)%list /\
     (flag = "--recipe" \/ flag = "-r") /\
     (forall y, In y pre -> y <> "--recipe" /\ y <> "-r") /\
     newURL value = Some url).
Proof.
  unfold getRecipeUrlFromCommandLine.
  pose proof (flag_value args url) as Hflag. cbv zeta in Hflag.
  destruct (find (startsWith "http") args) as [a|] eqn:Ef.
  - apply find_some in Ef. destruct Ef as [_ Eh].
    rewrite (http_truthy a Eh).
    destruct (newURL a) as [u|] eqn:Eu.
    + split.
      * intros [= ->]. left. exists a. auto.
      * intros [(a' & [= <-] & Ea)|(Hnone & _)]; [congruence|].
        specialize (Hnone a eq_refl). congruence.
    + rewrite Hflag. split.
      * intros H. right. split; [|exact H]. intros a' [= <-]. exact Eu.
      * intros [(a' & [= <-] & Ea)|(_ & H)]; [congruence|exact H].
  - rewrite Hflag. split.
    + intros H. right. split; [discriminate|exact H].
    + intros [(a' & Ea & _)|(_ & H)]; [discriminate|exact H].
Qed.
End Arguments.

End CommandLineFacts.

(* ================================================================== *)
(** * The logger *)

Module LoggerFacts.
Import Logger.

(** X16.  The levels are cumulative: what a method writes at one level it
    writes unchanged at every higher level, at most one line, whose message
    is the text it was given; at level NONE no method writes, from level
    ERROR on the errors are written, from level INFO on everything but the
    debug lines, and these at level DEBUG only. *)
Theorem log_levels_are_cumulative (method : Method) (text : string) :
  (forall low high,
      levelValue low <= levelValue high ->
      write method low text <> [] ->
      write method high text = write method low text) /\
  (forall level line,
      In line (write method level text) ->
      write method level text = [line] /\ message line = text) /\
  (forall level,
      write method level text <> [] <->
      levelValue (match method with
                  | MError => ERROR
                  | MDebug => DEBUG
                  | _ => INFO
                  end) <= levelValue level).
Proof.
  split; [|split].
  - intros low high Hle Hw.
    destruct method, low, high; cbn in *; try reflexivity; try congruence; lia.
  - intros level line Hin.
    destruct method, level; cbn in *; try contradiction;
      destruct Hin as [<-|[]]; split; reflexivity.
  - intros level. destruct method, level; cbn; split; intros H;
      try congruence; try lia; discriminate.
Qed.



End LoggerFacts.

(* ================================================================== *)
(** * From the page to the ingredients *)

Module ExtractorFacts.
Import JsString JsonLd Extractor ExtractorSpec StringFacts.

Section Extraction.
Variable jsonParse : string -> option json.
Variable lengthPositive : list (string * json) -> bool.
Variable excludeIngredients : list string.




Lemma keepAllowed_texts (items : list json) :
  forallb isText items = true ->
  keepAllowed excludeIngredients items =
  Ok (filter (fun i => negb (shouldExcludeIngredient excludeIngredients i))
             (textsOf items)).
Proof.
  induction items as [|item items IH]; [reflexivity|].
  cbn [forallb]. intros H. apply andb_true_iff in H. destruct H as [Hi Hrest].
  destruct item; try discriminate Hi.
  cbn [keepAllowed textsOf flat_map app]. rewrite (IH Hrest).
  fold (textsOf items). cbn [filter].
  destruct (shouldExcludeIngredient excludeIngredients s); reflexivity.
Qed.

Lemma keepAllowed_other (items : list json) :
  forallb isText items = false -> keepAllowed excludeIngredients items = Raise.
Proof.
  induction items as [|item items IH]; [discriminate|].
  cbn [forallb]. intros H.
  destruct item; try reflexivity.
  cbn [isText andb] in H. cbn [keepAllowed]. rewrite (IH H). reflexivity.
Qed.

Lemma textsOf_nonEmpty (items : list json) :
  textsOf (filter (nonEmptyIngredient lengthPositive) items)
  = filter (fun i => truthy i && (0 <? String.length i)%nat) (textsOf items).
Proof.
  induction items as [|item items IH]; [reflexivity|].
  cbn [filter textsOf flat_map]. fold (textsOf items).
  destruct item; cbn [nonEmptyIngredient app];
    try (destruct (_ : bool); cbn [textsOf flat_map app]; exact IH);
    try exact IH.
  destruct (truthy s && (0 <? String.length s)%nat) eqn:E;
    cbn [filter textsOf flat_map app]; rewrite E; fold (textsOf
      (filter (nonEmptyIngredient lengthPositive) items)); rewrite IH; reflexivity.
Qed.

(** What [extractIngredientsFromJsonLd] gives once the recipe and its list
    are known. *)
Lemma extraction_from_list (scripts : list (option string)) (recipeData : json)
      (items : list json) :
  findRecipeData (extractJsonLdData jsonParse scripts) = Ok (Some recipeData) ->
  extractIngredients recipeData = Ok items ->
  extractIngredientsFromJsonLd jsonParse lengthPositive excludeIngredients (Some scripts)
  = match keepAllowed excludeIngredients
            (filter (nonEmptyIngredient lengthPositive) items) with
    | Ok kept => kept
    | Raise => []
    end.
Proof.
  intros Hf He. unfold extractIngredientsFromJsonLd.
  destruct (extractJsonLdData jsonParse scripts) as [|block blocks] eqn:Eb.
  - discriminate Hf.
  - cbn [List.length Nat.eqb]. rewrite Hf, He.
    destruct items as [|item items]; [reflexivity|].
    cbn [List.length Nat.eqb]. reflexivity.
Qed.

Lemma filteredIngredients_texts (texts : list string) :
  filteredIngredients excludeIngredients texts
  = filter (fun text => negb (String.eqb text "")
                        && negb (shouldExcludeIngredient excludeIngredients text))
           texts.
Proof.
  unfold filteredIngredients. rewrite JsonLdFacts.filter_filter.
  apply filter_ext. intros text. destruct text; reflexivity.
Qed.

(** X19.  Once the recipe of the page and its ingredient list are found,
    the result depends on the values of the list that are not texts.  If
    no value is a non-empty array or an object of positive length, the
    result is the texts of the list that are not empty and that the
    exclusion filter keeps, in order: null, numbers, booleans, empty
    arrays and objects without a positive length are dropped.  But a single
    non-empty array, or a single object of positive length, anywhere among
    the ingredients makes the whole result empty. *)
Theorem ingredients_that_are_not_texts
        (scripts : list (option string)) (recipeData : json) (items : list json) :
  findRecipeData (extractJsonLdData jsonParse scripts) = Ok (Some recipeData) ->
  extractIngredients recipeData = Ok items ->
  let result :=
    extractIngredientsFromJsonLd jsonParse lengthPositive excludeIngredients
                                 (Some scripts) in
  ((forall item, In item items ->
      match item with
      | JArr (_ :: _) => False
      | JObj members => lengthPositive members = false
      | _ => True
      end) ->
   result = filter (fun text =>
                      negb (String.eqb text "")
                      && negb (shouldExcludeIngredient excludeIngredients text))
                   (textsOf items)) /\
  (forall before first others after,
      items = (before ++ JArr (first :: others) :: after)%list -> result = []) /\
  (forall before members after,
      items = (before ++ JObj members :: after)%list ->
      lengthPositive members = true -> result = []).
Proof.
  intros Hf He. cbv zeta. rewrite (extraction_from_list _ _ _ Hf He).
  assert (Hbad : forall item, In item items ->
                   nonEmptyIngredient lengthPositive item = true ->
                   isText item = false ->
                   match keepAllowed excludeIngredients
                           (filter (nonEmptyIngredient lengthPositive) items) with
                   | Ok kept => kept
                   | Raise => []
                   end = []).
  { intros item Hin Hne Hnt. rewrite keepAllowed_other; [reflexivity|].
    destruct (forallb isText (filter (nonEmptyIngredient lengthPositive) items)) eqn:E;
      [|reflexivity].
    rewrite forallb_forall in E. rewrite (E item) in Hnt; [discriminate|].
    apply filter_In. auto. }
  split; [|split].
  - intros Hall. rewrite keepAllowed_texts.
    + rewrite textsOf_nonEmpty. apply filteredIngredients_texts.
    + apply forallb_forall. intros item Hin. apply filter_In in Hin.
      destruct Hin as [Hin Hne]. specialize (Hall item Hin).
      destruct item as [| | | |l|members]; try discriminate Hne; [reflexivity| |].
      * destruct l; [discriminate Hne|contradiction].
      * cbn [nonEmptyIngredient] in Hne. congruence.
  - intros before first others after ->.
    apply (Hbad (JArr (first :: others))); [|reflexivity|reflexivity].
    apply in_or_app. right. left. reflexivity.
  - intros before members after -> Hl.
    apply (Hbad (JObj members)); [|exact Hl|reflexivity].
    apply in_or_app. right. left. reflexivity.
Qed.

(** X20.  Every ingredient of the result is a text of the ingredient list
    of the recipe found on the page, it is not empty and the exclusion
    filter does not reject it. *)
Theorem extracted_ingredients_are_sound
        (page : option (list (option string))) (ingredient : string) :
  In ingredient
     (extractIngredientsFromJsonLd jsonParse lengthPositive excludeIngredients page) ->
  ingredient <> "" /\
  shouldExcludeIngredient excludeIngredients ingredient = false /\
  exists scripts recipeData items,
    page = Some scripts /\
    findRecipeData (extractJsonLdData jsonParse scripts) = Ok (Some recipeData) /\
    extractIngredients recipeData = Ok items /\
    In (JStr ingredient) items.
Proof.
  destruct page as [scripts|]; [|intros []].
  destruct (findRecipeData (extractJsonLdData jsonParse scripts)) as [[recipeData|]|] eqn:Hf.
  2,3: unfold extractIngredientsFromJsonLd; rewrite Hf;
       destruct (List.length _ =? 0)%nat; intros [].
  destruct (extractIngredients recipeData) as [items|] eqn:He.
  2: unfold extractIngredientsFromJsonLd; rewrite Hf, He;
     destruct (List.length _ =? 0)%nat; intros [].
  rewrite (extraction_from_list _ _ _ Hf He).
  destruct (forallb isText (filter (nonEmptyIngredient lengthPositive) items)) eqn:E.
  - rewrite (keepAllowed_texts _ E). intros Hin.
    apply filter_In in Hin. destruct Hin as [Hin Hex].
    assert (Hj : In (JStr ingredient) (filter (nonEmptyIngredient lengthPositive) items)).
    { clear - Hin. induction (filter (nonEmptyIngredient lengthPositive) items)
        as [|item l IH]; [exact Hin|].
      cbn [textsOf flat_map] in Hin. apply in_app_or in Hin.
      destruct Hin as [Hin|Hin]; [|right; apply IH; exact Hin].
      destruct item; try contradiction. destruct Hin as [->|[]]. left. reflexivity. }
    apply filter_In in Hj. destruct Hj as [Hj Hne].
    split; [|split].
    + intros ->. discriminate Hne.
    + apply negb_true_iff. exact Hex.
    + exists scripts, recipeData, items. auto.
  - rewrite (keepAllowed_other _ E). intros [].
Qed.

End Extraction.

(** X21.  A recipe that is listed in an array-valued member of a block, as
    with the member graph of a JSON-LD document, is not located: when no
    block declares a type and no member of a block is itself an object,
    no recipe is found, whatever the arrays hold. *)
Theorem recipe_inside_array_is_not_located (blocks : list json) :
  (forall block, In block blocks ->
     exists members,
       block = JObj members /\ lookup "@type" members = None /\
       forall key value, In (key, value) members ->
                         match value with JObj _ => False | _ => True end) ->
  findRecipeData blocks = Ok None.
Proof.
  intros H. unfold findRecipeData.
  assert (Hd : findDirect blocks = Ok None).
  { induction blocks as [|block blocks IH]; [reflexivity|].
    cbn [findDirect].
    destruct (H block (or_introl eq_refl)) as (members & -> & Ht & _).
    unfold isRecipeBlock, prop. rewrite Ht.
    apply IH. intros b Hb. apply H. right. exact Hb. }
  rewrite Hd.
  assert (Hs : scanBlocks blocks None = None).
  { induction blocks as [|block blocks IH]; [reflexivity|].
    cbn [scanBlocks].
    destruct (H block (or_introl eq_refl)) as (members & -> & _ & Hm).
    assert (Hv : scanValues (ownValues (JObj members)) None = None).
    { cbn [ownValues]. clear - Hm.
      induction members as [|[key value] members IH]; [reflexivity|].
      cbn [map snd scanValues].
      assert (Hn : isNestedRecipe value = false).
      { specialize (Hm key value (or_introl eq_refl)).
        destruct value; try reflexivity. contradiction. }
      rewrite Hn. apply IH. intros k v Hkv. apply (Hm k v). right. exact Hkv. }
    rewrite Hv. apply IH.
    - intros b Hb. apply H. right. exact Hb.
    - unfold findDirect in Hd. cbn in Hd. fold findDirect in Hd.
      destruct (lookup "@type" members) as [[]|]; try exact Hd; try discriminate.
      all: try (destruct (String.eqb _ _); [discriminate|exact Hd]).
      destruct (existsb isRecipeString items); [discriminate|exact Hd]. }
  rewrite Hs. reflexivity.
Qed.

End ExtractorFacts.

(* ================================================================== *)
(** * The product records read from a result page *)

Module ProductInfoFacts.
Import JsString Regex Llm Pipeline StringFacts RegexFacts SelectionFacts.






End ProductInfoFacts.

(* ================================================================== *)
(** * More scenarios *)

Module MoreScenarios.
Import JsString Regex Effect Llm LlmSpec Main JsonLd Pipeline Extractor ExtractorSpec.
Import Samples MoreSamples.

Lemma selected_product_is_a_candidate_witness :
  result (answering "2") (selectBestProduct jars "en burk tomater")
  = Some (Some (mkProduct "B" 2 None None None 0)) /\
  In (mkProduct "B" 2 None None None 0) jars.
Proof.
  split; [vm_compute; reflexivity|].
  apply (SelectionFacts.selected_product_is_a_candidate
           jars "en burk tomater" (answering "2")).
  vm_compute. reflexivity.
Defined.

Lemma numbered_last_line_selects_that_product_witness :
  let before := "The second jar is cheaper." ++ nl in
  requestedWeight "en burk tomater" = None /\
  nth_error jars 1 = Some (mkProduct "B" 2 None None None 0) /\
  (before = "" \/ exists reasoning, before = reasoning ++ nl) /\
  allb isSpace " " = true /\
  answering (before ++ ofNat (1 + 1) ++ " ") (selectionPrompt jars "en burk tomater")
  = Some (before ++ ofNat (1 + 1) ++ " ") /\
  result (answering (before ++ ofNat (1 + 1) ++ " "))
         (selectBestProduct jars "en burk tomater")
  = Some (Some (mkProduct "B" 2 None None None 0)).
Proof.
  intros before.
  assert (Hb : before = "" \/ exists reasoning, before = reasoning ++ nl)
    by (right; exists "The second jar is cheaper."; reflexivity).
  split; [vm_compute; reflexivity|]. split; [reflexivity|]. split; [exact Hb|].
  split; [reflexivity|]. split; [reflexivity|].
  apply (SelectionFacts.numbered_last_line_selects_that_product
           jars "en burk tomater" (answering (before ++ ofNat (1 + 1) ++ " "))
           before " " 1 (mkProduct "B" 2 None None None 0)).
  - vm_compute. reflexivity.
  - reflexivity.
  - exact Hb.
  - reflexivity.
  - reflexivity.
Defined.

Lemma prompt_lists_every_candidate_witness :
  nth_error jars 1 = Some (mkProduct "B" 2 None None None 0) /\
  includes (selectionPrompt jars "en burk tomater")
           (nl ++ "2. B - Price: Not available - Compare Price: Not available"
               ++ " - Volume/Weight: Not available" ++ nl) = true.
Proof.
  split; [reflexivity|].
  apply (SelectionFacts.prompt_lists_every_candidate
           jars "en burk tomater" 1 (mkProduct "B" 2 None None None 0)).
  reflexivity.
Defined.

Lemma requirement_reads_decimals_and_units_witness :
  allb isDigit "2" = true /\ "2" <> "" /\ allb isDigit "5" = true /\
  allb isSpace " " = true /\
  (toLowerCase "g" = "g" \/ toLowerCase "g" = "kg" \/ toLowerCase "g" = "kilo") /\
  exists q, requestedWeight ("2" ++ " " ++ "g" ++ "urkor") = Some q /\ (q == 2)%Q.
Proof.
  assert (Hu : toLowerCase "g" = "g" \/ toLowerCase "g" = "kg" \/ toLowerCase "g" = "kilo")
    by (left; reflexivity).
  split; [reflexivity|]. split; [discriminate|]. split; [reflexivity|].
  split; [reflexivity|]. split; [exact Hu|].
  destruct (WeightMore.requirement_reads_decimals_and_units
              "2" "5" " " "g" "urkor" eq_refl ltac:(discriminate) eq_refl eq_refl Hu)
    as [(q & Eq & Hq) _].
  exists q. split; [exact Eq|]. rewrite Hq. reflexivity.
Defined.

Lemma bought_product_is_from_the_page_witness :
  let b := mkProduct "Bananer" 2 None None (Some "500g") 5 in
  let p := banana 2 "500g" in
  result unreachable (processSearchResults shelf "2.5 kg bananer") = Some (Some b) /\
  In p (productsOnPage shelf) /\
  result unreachable (selectBestProduct (productsOnPage shelf) "2.5 kg bananer")
  = Some (Some p) /\
  containerCount (controlsOf shelf (element p)) <> 0%nat /\
  buyButtonCount (controlsOf shelf (element p)) <> 0%nat /\
  title b = title p /\ 1 <= quantity b.
Proof.
  intros b p.
  split; [vm_compute; reflexivity|].
  destruct (PipelineFacts.bought_product_is_from_the_page
              shelf "2.5 kg bananer" unreachable b)
    as (p' & Hin & Hsel & Hbuy & Ht & _ & _ & _ & _ & Hq & _);
    [vm_compute; reflexivity|].
  assert (Ep : p' = p).
  { pose proof Hsel as E. vm_compute in E. injection E as E. symmetry. exact E. }
  rewrite Ep in Hin, Hsel, Hbuy, Ht.
  split; [exact Hin|]. split; [exact Hsel|].
  destruct Hbuy as [[Hc Hb]|(Hc & _)]; [|discriminate Hc].
  split; [exact Hc|]. split; [exact Hb|]. split; [exact Ht|exact Hq].
Defined.

Lemma bought_quantity_covers_requirement_witness :
  let b := mkProduct "Bananer" 0 None None (Some "130g") 32 in
  requestedWeight "4.03 kg bananer" = Some fourKiloThirty /\
  (0 < fourKiloThirty)%Q /\ (fourKiloThirty < inject_Z (2 ^ 53))%Q /\
  result unreachable (processSearchResults smallShelf "4.03 kg bananer")
  = Some (Some b) /\
  plusButtonCount (controlsOf smallShelf (element b)) <> 0%nat /\
  0 < productWeight b /\
  (inject_Z ((quantity b - 1) * productWeight b) < fourKiloThirty)%Q /\
  (fourKiloThirty <= inject_Z (quantity b * productWeight b))%Q.
Proof.
  intros b.
  split; [vm_compute; reflexivity|]. split; [reflexivity|]. split; [reflexivity|].
  split; [vm_compute; reflexivity|]. split; [discriminate|].
  split; [reflexivity|].
  destruct (PipelineFacts.bought_quantity_covers_requirement
              smallShelf "4.03 kg bananer" fourKiloThirty unreachable b)
    as (Hlo & Hhi & _).
  - vm_compute. reflexivity.
  - reflexivity.
  - reflexivity.
  - vm_compute. reflexivity.
  - discriminate.
  - reflexivity.
  - split; assumption.
Defined.

Lemma ingredients_that_are_not_texts_witness :
  let parse := fun _ : string => Some mixedBlock in
  let grouped := fun _ : string => Some groupedBlock in
  let items := [ JStr "1 kg potatis"; JNull; JNum 3; JBool true; JArr [];
                 JStr ""; JObj []; JStr "2 dl vatten"; JStr "3 morotter" ] in
  findRecipeData (extractJsonLdData parse [Some "recipe"]) = Ok (Some mixedBlock) /\
  extractIngredients mixedBlock = Ok items /\
  extractIngredientsFromJsonLd parse (fun _ => false) configExcludeIngredients
                               (Some [Some "recipe"])
  = ["1 kg potatis"; "3 morotter"] /\
  findRecipeData (extractJsonLdData grouped [Some "recipe"]) = Ok (Some groupedBlock) /\
  extractIngredients groupedBlock
  = Ok ([JStr "1 kg potatis"] ++ JArr [JStr "3 morotter"] :: [])%list /\
  extractIngredientsFromJsonLd grouped (fun _ => false) configExcludeIngredients
                               (Some [Some "recipe"])
  = [].
Proof.
  intros parse grouped items.
  split; [reflexivity|]. split; [reflexivity|]. split.
  - refine (eq_trans
              (proj1 (ExtractorFacts.ingredients_that_are_not_texts
                        parse (fun _ => false) configExcludeIngredients
                        [Some "recipe"] mixedBlock items eq_refl eq_refl) _) _).
    + intros item Hin.
      repeat (destruct Hin as [<-|Hin]; [first [exact I|reflexivity]|]).
      destruct Hin.
    + vm_compute. reflexivity.
  - split; [reflexivity|]. split; [reflexivity|].
    exact (proj1 (proj2 (ExtractorFacts.ingredients_that_are_not_texts
                           grouped (fun _ => false) configExcludeIngredients
                           [Some "recipe"] groupedBlock _ eq_refl eq_refl))
                 [JStr "1 kg potatis"] (JStr "3 morotter") [] [] eq_refl).
Defined.

Lemma extracted_ingredients_are_sound_witness :
  In "1 burk tomater"
     (extractIngredientsFromJsonLd parseRecipeScript (fun _ => false)
                                   configExcludeIngredients
                                   (Some [Some recipeScript])) /\
  "1 burk tomater" <> "" /\
  shouldExcludeIngredient configExcludeIngredients "1 burk tomater" = false.
Proof.
  assert (Hin : In "1 burk tomater"
                   (extractIngredientsFromJsonLd parseRecipeScript (fun _ => false)
                                                 configExcludeIngredients
                                                 (Some [Some recipeScript])))
    by (vm_compute; right; left; reflexivity).
  split; [exact Hin|].
  destruct (ExtractorFacts.extracted_ingredients_are_sound
              parseRecipeScript (fun _ => false) configExcludeIngredients
              (Some [Some recipeScript]) "1 burk tomater" Hin)
    as (Hne & Hex & _).
  split; assumption.
Defined.

Lemma recipe_inside_array_is_not_located_witness :
  (forall block, In block [graphBlock] ->
     exists members,
       block = JObj members /\ lookup "@type" members = None /\
       forall key value, In (key, value) members ->
                         match value with JObj _ => False | _ => True end) /\
  findRecipeData [graphBlock] = Ok None.
Proof.
  assert (H : forall block, In block [graphBlock] ->
     exists members,
       block = JObj members /\ lookup "@type" members = None /\
       forall key value, In (key, value) members ->
                         match value with JObj _ => False | _ => True end).
  { intros block [<-|[]]. eexists. split; [reflexivity|]. split; [reflexivity|].
    intros key value [[= <- <-]|[[= <- <-]|[]]]; exact I. }
  split; [exact H|].
  apply (ExtractorFacts.recipe_inside_array_is_not_located [graphBlock] H).
Defined.

End MoreScenarios.
